(** * three_scene: the character controller's physics and movement core

    A shallow embedding of the player controllers of the repository:
    the character-driven [PlayerModel] and its scene, the camera-driven
    [PlayerModel] / [PlayerCamera] and their scene, and the inline
    controller of the basic game scene.

    JavaScript numbers are read as real numbers: every arithmetic
    operation of the source is the corresponding operation of [R], so
    rounding, overflow, infinities and NaN are outside the model.  A
    method that mutates [this] becomes a function returning the new
    object; an object shared between two owners (the player model seen
    by the scene and by its camera controller) is kept once, in the
    record that holds both. *)

From Stdlib Require Import Reals Lra Psatz Bool String.

Open Scope R_scope.

(** ** Comparisons of the source, as booleans *)

Definition Rgtb (a b : R) : bool := if Rlt_dec b a then true else false.
Definition Rgeb (a b : R) : bool := if Rle_dec b a then true else false.
Definition Rleb (a b : R) : bool := if Rle_dec a b then true else false.

(** ** The part of three.js the controllers call

    [Vector3], [Matrix4], [Capsule] and the camera come from the
    rendering library.  Each operation below follows the library's
    method of the same name, component by component. *)

Module Three.

Record Vector3 : Type := mkVector3 { x : R; y : R; z : R }.

(** [new THREE.Vector3()] *)
Definition zero : Vector3 := mkVector3 0 0 0.

Definition set (a b c : R) : Vector3 := mkVector3 a b c.

Definition setY (b : R) (v : Vector3) : Vector3 := mkVector3 (x v) b (z v).

Definition add (this v : Vector3) : Vector3 :=
  mkVector3 (x this + x v) (y this + y v) (z this + z v).

Definition sub (this v : Vector3) : Vector3 :=
  mkVector3 (x this - x v) (y this - y v) (z this - z v).

(** [this.x += v.x * s; this.y += v.y * s; this.z += v.z * s].  The three
    assignments run in this order; when [v] is [this] itself each one
    still reads the component it is about to write, so the aliased call
    is [addScaledVector this this s]. *)
Definition addScaledVector (this v : Vector3) (s : R) : Vector3 :=
  mkVector3 (x this + x v * s) (y this + y v * s) (z this + z v * s).

Definition multiplyScalar (this : Vector3) (s : R) : Vector3 :=
  mkVector3 (x this * s) (y this * s) (z this * s).

Definition divideScalar (this : Vector3) (s : R) : Vector3 :=
  multiplyScalar this (1 / s).

Definition dot (this v : Vector3) : R :=
  x this * x v + y this * y v + z this * z v.

Definition length (this : Vector3) : R :=
  sqrt (x this * x this + y this * y this + z this * z this).

(** The divisor of [normalize]: [this.length() || 1]. *)
Definition normalizeDivisor (this : Vector3) : R :=
  if Req_dec_T (length this) 0 then 1 else length this.

(** [this.divideScalar(this.length() || 1)] *)
Definition normalize (this : Vector3) : Vector3 :=
  divideScalar this (normalizeDivisor this).

Definition cross (this v : Vector3) : Vector3 :=
  mkVector3 (y this * z v - z this * y v)
            (z this * x v - x this * z v)
            (x this * y v - y this * x v).

(** A 4x4 matrix, named by row and column as the arguments of
    [Matrix4.set] are. *)
Record Matrix4 : Type := mkMatrix4 {
  n11 : R; n12 : R; n13 : R; n14 : R;
  n21 : R; n22 : R; n23 : R; n24 : R;
  n31 : R; n32 : R; n33 : R; n34 : R;
  n41 : R; n42 : R; n43 : R; n44 : R }.

Definition makeRotationY (theta : R) : Matrix4 :=
  let c := cos theta in
  let s := sin theta in
  mkMatrix4 c     0 s 0
            0     1 0 0
            (- s) 0 c 0
            0     0 0 1.

(** [Vector3.applyMatrix4]: the affine image, divided by the
    perspective component. *)
Definition applyMatrix4 (this : Vector3) (m : Matrix4) : Vector3 :=
  let w := 1 / (n41 m * x this + n42 m * y this + n43 m * z this + n44 m) in
  mkVector3 ((n11 m * x this + n12 m * y this + n13 m * z this + n14 m) * w)
            ((n21 m * x this + n22 m * y this + n23 m * z this + n24 m) * w)
            ((n31 m * x this + n32 m * y this + n33 m * z this + n34 m) * w).

(** [Math.atan2 b a], the angle of the point [(a, b)]. *)
Definition atan2 (b a : R) : R :=
  if Rlt_dec 0 a then atan (b / a)
  else if Rlt_dec a 0 then
    (if Rle_dec 0 b then atan (b / a) + PI else atan (b / a) - PI)
  else if Rlt_dec 0 b then PI / 2
  else if Rlt_dec b 0 then - (PI / 2)
  else 0.

(** The collider of three.js' [Capsule]: a segment and a radius. *)
Record Capsule : Type := mkCapsule {
  start : Vector3;
  end_ : Vector3;
  radius : R }.

(** [Capsule.translate]: [this.start.add(v); this.end.add(v)] *)
Definition translate (c : Capsule) (v : Vector3) : Capsule :=
  mkCapsule (add (start c) v) (add (end_ c) v) (radius c).

(** What [Octree.capsuleIntersect] returns when the capsule touches the
    world: the contact normal and the penetration depth. *)
Record Intersection : Type := mkIntersection {
  normal : Vector3;
  depth : R }.

(** The static world, seen through its only query: [capsuleIntersect]
    answers [false] ([None]) or one contact. *)
Definition Octree : Type := Capsule -> option Intersection.

Definition capsuleIntersect (worldOctree : Octree) (c : Capsule)
  : option Intersection := worldOctree c.

(** The transform of a loaded mesh the controllers write: its position
    and its rotation about the vertical axis. *)
Record Object3D : Type := mkObject3D {
  position : Vector3;
  rotation_y : R }.

(** A camera's rotation, Euler angles in the order YXZ the scenes set. *)
Record Euler : Type := mkEuler { ex : R; ey : R; ez : R }.

Record Camera : Type := mkCamera {
  cam_position : Vector3;
  cam_rotation : Euler;
  up : Vector3 }.

(** [camera.getWorldDirection]: the negated third column of the world
    matrix, normalized.  The cameras of the scenes have no parent and
    unit scale, so the column is that of the YXZ rotation matrix:
    [(cos x * sin y, - sin x, cos x * cos y)]. *)
Definition getWorldDirection (c : Camera) : Vector3 :=
  let a := cos (ex (cam_rotation c)) in
  let b := sin (ex (cam_rotation c)) in
  let c' := cos (ey (cam_rotation c)) in
  let d := sin (ey (cam_rotation c)) in
  normalize (set (- (a * d)) (- (- b)) (- (a * c'))).

(** [Vector3.lerp]: [this.x += (v.x - this.x) * alpha], and so on. *)
Definition lerp (this v : Vector3) (alpha : R) : Vector3 :=
  mkVector3 (x this + (x v - x this) * alpha)
            (y this + (y v - y this) * alpha)
            (z this + (z v - z this) * alpha).

Record Quaternion : Type := mkQuaternion { qx : R; qy : R; qz : R; qw : R }.

(** [Quaternion.setFromAxisAngle]; the axis is assumed normalized by
    the library. *)
Definition setFromAxisAngle (axis : Vector3) (angle : R) : Quaternion :=
  let halfAngle := angle / 2 in
  let s := sin halfAngle in
  mkQuaternion (x axis * s) (y axis * s) (z axis * s) (cos halfAngle).

(** [Vector3.applyQuaternion]: [t = 2 * cross(q.xyz, v)], then
    [v + q.w * t + cross(q.xyz, t)]. *)
Definition applyQuaternion (this : Vector3) (q : Quaternion) : Vector3 :=
  let vx := x this in
  let vy := y this in
  let vz := z this in
  let tx := 2 * (qy q * vz - qz q * vy) in
  let ty := 2 * (qz q * vx - qx q * vz) in
  let tz := 2 * (qx q * vy - qy q * vx) in
  mkVector3 (vx + qw q * tx + qy q * tz - qz q * ty)
            (vy + qw q * ty + qz q * tx - qx q * tz)
            (vz + qw q * tz + qx q * ty - qy q * tx).

Definition applyAxisAngle (this axis : Vector3) (angle : R) : Vector3 :=
  applyQuaternion this (setFromAxisAngle axis angle).

End Three.

Import Three.

(** The five movement flags both controllers keep. *)
Record MoveState : Type := mkMoveState {
  forward : bool;
  backward : bool;
  left : bool;
  right : bool;
  jump : bool }.

Definition noMove : MoveState := mkMoveState false false false false false.

(** [keyStates]: the pressed state of each key code.  A code that was
    never pressed reads [undefined], which every test of the source
    treats as [false]. *)
Definition KeyStates : Type := string -> bool.

(** [for (let i = 0; i < n; i++) body()]: the body run [n] times. *)
Fixpoint forLoop {S : Type} (n : nat) (body : S -> S) (s : S) : S :=
  match n with
  | O => s
  | Datatypes.S n' => forLoop n' body (body s)
  end.

(** ** The character-driven controller

    [PlayerModel] of the character-driven scene, its follow camera's
    angles, and the scene's frame-driver functions. *)

Module CharacterDriven.

Record PlayerModel : Type := mkPlayerModel {
  player : option Object3D;
  playerCollider : Capsule;
  playerVelocity : Vector3;
  playerOnFloor : bool;
  debugCapsule : option Vector3;
  showDebug : bool;
  groundSpeed : R;
  airSpeed : R;
  jumpForce : R;
  dampingFactor : R;
  playerDirection : Vector3;
  moveState : MoveState }.

(** The state the constructor leaves, before the mesh has loaded. *)
Definition newPlayerModel : PlayerModel :=
  mkPlayerModel None
    (mkCapsule (mkVector3 0 0 0) (mkVector3 0 1.8 0) 0.35)
    zero false (Some zero) true
    25 8 15 4
    (mkVector3 0 0 1) noMove.

Definition set_player (o : option Object3D) (pm : PlayerModel) :=
  mkPlayerModel o (playerCollider pm) (playerVelocity pm) (playerOnFloor pm)
    (debugCapsule pm) (showDebug pm) (groundSpeed pm) (airSpeed pm)
    (jumpForce pm) (dampingFactor pm) (playerDirection pm) (moveState pm).

Definition set_playerCollider (c : Capsule) (pm : PlayerModel) :=
  mkPlayerModel (player pm) c (playerVelocity pm) (playerOnFloor pm)
    (debugCapsule pm) (showDebug pm) (groundSpeed pm) (airSpeed pm)
    (jumpForce pm) (dampingFactor pm) (playerDirection pm) (moveState pm).

Definition set_playerVelocity (v : Vector3) (pm : PlayerModel) :=
  mkPlayerModel (player pm) (playerCollider pm) v (playerOnFloor pm)
    (debugCapsule pm) (showDebug pm) (groundSpeed pm) (airSpeed pm)
    (jumpForce pm) (dampingFactor pm) (playerDirection pm) (moveState pm).

Definition set_playerOnFloor (b : bool) (pm : PlayerModel) :=
  mkPlayerModel (player pm) (playerCollider pm) (playerVelocity pm) b
    (debugCapsule pm) (showDebug pm) (groundSpeed pm) (airSpeed pm)
    (jumpForce pm) (dampingFactor pm) (playerDirection pm) (moveState pm).

Definition set_debugCapsule (d : option Vector3) (pm : PlayerModel) :=
  mkPlayerModel (player pm) (playerCollider pm) (playerVelocity pm)
    (playerOnFloor pm) d (showDebug pm) (groundSpeed pm) (airSpeed pm)
    (jumpForce pm) (dampingFactor pm) (playerDirection pm) (moveState pm).

Definition set_playerDirection (d : Vector3) (pm : PlayerModel) :=
  mkPlayerModel (player pm) (playerCollider pm) (playerVelocity pm)
    (playerOnFloor pm) (debugCapsule pm) (showDebug pm) (groundSpeed pm)
    (airSpeed pm) (jumpForce pm) (dampingFactor pm) d (moveState pm).

Definition set_moveState (m : MoveState) (pm : PlayerModel) :=
  mkPlayerModel (player pm) (playerCollider pm) (playerVelocity pm)
    (playerOnFloor pm) (debugCapsule pm) (showDebug pm) (groundSpeed pm)
    (airSpeed pm) (jumpForce pm) (dampingFactor pm) (playerDirection pm) m.

Definition updateDebugCapsule (pm : PlayerModel) : PlayerModel :=
  match debugCapsule pm with
  | None => pm
  | Some _ =>
      if negb (showDebug pm) then pm
      else set_debugCapsule (Some (start (playerCollider pm))) pm
  end.

Definition updateModelTransform (pm : PlayerModel) : PlayerModel :=
  let pm :=
    match player pm with
    | Some _ =>
        let position := start (playerCollider pm) in
        let rotation :=
          atan2 (x (playerDirection pm)) (z (playerDirection pm)) in
        set_player (Some (mkObject3D position rotation)) pm
    | None => pm
    end in
  updateDebugCapsule pm.

Definition updateMovementState (keyStates : KeyStates) (pm : PlayerModel)
  : PlayerModel :=
  set_moveState
    (mkMoveState (keyStates "KeyW"%string) (keyStates "KeyS"%string)
                 (keyStates "KeyA"%string) (keyStates "KeyD"%string)
                 (keyStates "Space"%string)) pm.

Definition executeJump (pm : PlayerModel) : PlayerModel :=
  if playerOnFloor pm
  then set_playerVelocity (setY (jumpForce pm) (playerVelocity pm)) pm
  else pm.

Definition processMovement (deltaTime : R) (pm : PlayerModel) : PlayerModel :=
  let speedDelta :=
    deltaTime * (if playerOnFloor pm then groundSpeed pm else airSpeed pm) in
  let rotationSpeed := 1.5 * deltaTime in
  let pm :=
    if left (moveState pm) then
      let rotationMatrix := makeRotationY rotationSpeed in
      set_playerDirection
        (normalize (applyMatrix4 (playerDirection pm) rotationMatrix)) pm
    else pm in
  let pm :=
    if right (moveState pm) then
      let rotationMatrix := makeRotationY (- rotationSpeed) in
      set_playerDirection
        (normalize (applyMatrix4 (playerDirection pm) rotationMatrix)) pm
    else pm in
  let moveDirection := zero in
  let hasMovement := false in
  let '(moveDirection, hasMovement) :=
    if forward (moveState pm)
    then (add moveDirection (playerDirection pm), true)
    else (moveDirection, hasMovement) in
  let '(moveDirection, hasMovement) :=
    if backward (moveState pm)
    then (sub moveDirection (playerDirection pm), true)
    else (moveDirection, hasMovement) in
  let pm :=
    if hasMovement then
      let moveDirection := normalize moveDirection in
      let moveDirection := setY 0 moveDirection in
      set_playerVelocity
        (add (playerVelocity pm) (multiplyScalar moveDirection speedDelta)) pm
    else pm in
  if jump (moveState pm) then executeJump pm else pm.

(** The blocks of [processMovement], one definition per block of the
    source, so that a property can speak of one of them.
    [processMovement_blocks] below shows that the function is their
    composition. *)

(** One turn: rotate the facing direction about the vertical axis, then
    normalize. *)
Definition turn (angle : R) (pm : PlayerModel) : PlayerModel :=
  let rotationMatrix := makeRotationY angle in
  set_playerDirection
    (normalize (applyMatrix4 (playerDirection pm) rotationMatrix)) pm.

Definition turnBlock (deltaTime : R) (pm : PlayerModel) : PlayerModel :=
  let rotationSpeed := 1.5 * deltaTime in
  let pm := if left (moveState pm) then turn rotationSpeed pm else pm in
  if right (moveState pm) then turn (- rotationSpeed) pm else pm.

(** The move vector accumulated from the forward and backward flags,
    with the [hasMovement] flag. *)
Definition accumulatedMove (pm : PlayerModel) : Vector3 * bool :=
  let moveDirection := zero in
  let hasMovement := false in
  let '(moveDirection, hasMovement) :=
    if forward (moveState pm)
    then (add moveDirection (playerDirection pm), true)
    else (moveDirection, hasMovement) in
  if backward (moveState pm)
  then (sub moveDirection (playerDirection pm), true)
  else (moveDirection, hasMovement).

Definition moveBlock (deltaTime : R) (pm : PlayerModel) : PlayerModel :=
  let speedDelta :=
    deltaTime * (if playerOnFloor pm then groundSpeed pm else airSpeed pm) in
  let '(moveDirection, hasMovement) := accumulatedMove pm in
  if hasMovement then
    let moveDirection := normalize moveDirection in
    let moveDirection := setY 0 moveDirection in
    set_playerVelocity
      (add (playerVelocity pm) (multiplyScalar moveDirection speedDelta)) pm
  else pm.

Definition jumpBlock (pm : PlayerModel) : PlayerModel :=
  if jump (moveState pm) then executeJump pm else pm.

Definition translate (vec3 : Vector3) (pm : PlayerModel) : PlayerModel :=
  set_playerCollider (Three.translate (playerCollider pm) vec3) pm.

Definition checkCollisions (worldOctree : Octree) (pm : PlayerModel)
  : PlayerModel :=
  let result := capsuleIntersect worldOctree (playerCollider pm) in
  let pm := set_playerOnFloor false pm in
  match result with
  | Some result =>
      let pm := set_playerOnFloor (Rgtb (y (normal result)) 0) pm in
      let pm :=
        if negb (playerOnFloor pm) then
          set_playerVelocity
            (addScaledVector (playerVelocity pm) (normal result)
               (- dot (normal result) (playerVelocity pm))) pm
        else pm in
      if Rgeb (depth result) 1e-10
      then translate (multiplyScalar (normal result) (depth result)) pm
      else pm
  | None => pm
  end.

Definition updatePhysics (deltaTime gravity : R) (pm : PlayerModel)
  : PlayerModel :=
  let damping := exp (- dampingFactor pm * deltaTime) - 1 in
  let '(pm, damping) :=
    if negb (playerOnFloor pm) then
      (set_playerVelocity
         (setY (y (playerVelocity pm) - gravity * deltaTime)
               (playerVelocity pm)) pm,
       damping * 0.1)
    else (pm, damping) in
  let pm :=
    set_playerVelocity
      (addScaledVector (playerVelocity pm) (playerVelocity pm) damping) pm in
  let deltaPosition := multiplyScalar (playerVelocity pm) deltaTime in
  let pm := translate deltaPosition pm in
  updateModelTransform pm.

Definition resetPosition (pm : PlayerModel) : PlayerModel :=
  let pm :=
    set_playerCollider
      (mkCapsule (set 0 0 0) (end_ (playerCollider pm))
                 (radius (playerCollider pm))) pm in
  let pm :=
    set_playerCollider
      (mkCapsule (start (playerCollider pm)) (set 0 1.8 0)
                 (radius (playerCollider pm))) pm in
  let pm :=
    set_playerCollider
      (mkCapsule (start (playerCollider pm)) (end_ (playerCollider pm))
                 0.35) pm in
  set_playerVelocity (set 0 0 0) pm.

Definition getColliderPosition (pm : PlayerModel) : Vector3 :=
  end_ (playerCollider pm).

Definition isOnFloor (pm : PlayerModel) : bool := playerOnFloor pm.

Definition getVelocity (pm : PlayerModel) : Vector3 := playerVelocity pm.

Definition setJumpForce (force : R) (pm : PlayerModel) : PlayerModel :=
  mkPlayerModel (player pm) (playerCollider pm) (playerVelocity pm)
    (playerOnFloor pm) (debugCapsule pm) (showDebug pm) (groundSpeed pm)
    (airSpeed pm) force (dampingFactor pm) (playerDirection pm) (moveState pm).

Definition setDampingFactor (factor : R) (pm : PlayerModel) : PlayerModel :=
  mkPlayerModel (player pm) (playerCollider pm) (playerVelocity pm)
    (playerOnFloor pm) (debugCapsule pm) (showDebug pm) (groundSpeed pm)
    (airSpeed pm) (jumpForce pm) factor (playerDirection pm) (moveState pm).

(** The follow camera keeps two orbit angles; they are the part of its
    state the out-of-bounds reset writes. *)
Record PlayerCamera : Type := mkPlayerCamera {
  cameraAngleY : R;
  cameraAngleX : R }.

Definition resetCameraAngles (pc : PlayerCamera) : PlayerCamera :=
  mkPlayerCamera 0 0.1.

(** The objects the scene closure holds: the camera controller refers
    to the same player model. *)
Record Scene : Type := mkScene {
  playerModel : PlayerModel;
  playerCamera : PlayerCamera }.

Definition GRAVITY : R := 30.

Definition controls (keyStates : KeyStates) (deltaTime : R) (s : Scene)
  : Scene :=
  let pm := updateMovementState keyStates (playerModel s) in
  let pm := processMovement deltaTime pm in
  mkScene pm (playerCamera s).

(** The camera's [update] that ends the source function only moves the
    rendering camera towards the player; it reads the player model and
    writes none of the state kept here. *)
Definition updatePlayer (worldOctree : Octree) (deltaTime : R) (s : Scene)
  : Scene :=
  let pm := updatePhysics deltaTime GRAVITY (playerModel s) in
  let pm := checkCollisions worldOctree pm in
  mkScene pm (playerCamera s).

Definition teleportPlayerIfOob (s : Scene) : Scene :=
  if Rleb (y (getColliderPosition (playerModel s))) (-25) then
    let pm := resetPosition (playerModel s) in
    let pc := resetCameraAngles (playerCamera s) in
    mkScene pm pc
  else s.

(** *** The rest of the player model's interface *)

Definition handleRotationInput (deltaX : R) (pm : PlayerModel) : PlayerModel :=
  let rotationSpeed := 0.002 in
  let angle := - deltaX * rotationSpeed in
  set_playerDirection
    (normalize (applyAxisAngle (playerDirection pm) (mkVector3 0 1 0) angle))
    pm.

Definition executeForwardMovement (deltaTime : R) (direction : Vector3)
  (pm : PlayerModel) : PlayerModel :=
  let speedDelta :=
    deltaTime * (if playerOnFloor pm then groundSpeed pm else airSpeed pm) in
  let forwardVector := normalize (setY 0 direction) in
  set_playerVelocity
    (add (playerVelocity pm) (multiplyScalar forwardVector speedDelta)) pm.

Definition executeBackwardMovement (deltaTime : R) (direction : Vector3)
  (pm : PlayerModel) : PlayerModel :=
  let speedDelta :=
    deltaTime * (if playerOnFloor pm then groundSpeed pm else airSpeed pm) in
  let forwardVector := normalize (setY 0 direction) in
  set_playerVelocity
    (add (playerVelocity pm) (multiplyScalar forwardVector (- speedDelta))) pm.

Definition executeLeftMovement (deltaTime : R) (direction up : Vector3)
  (pm : PlayerModel) : PlayerModel :=
  let speedDelta :=
    deltaTime * (if playerOnFloor pm then groundSpeed pm else airSpeed pm) in
  let sideVector := cross (normalize (setY 0 direction)) up in
  set_playerVelocity
    (add (playerVelocity pm) (multiplyScalar sideVector (- speedDelta))) pm.

Definition executeRightMovement (deltaTime : R) (direction up : Vector3)
  (pm : PlayerModel) : PlayerModel :=
  let speedDelta :=
    deltaTime * (if playerOnFloor pm then groundSpeed pm else airSpeed pm) in
  let sideVector := cross (normalize (setY 0 direction)) up in
  set_playerVelocity
    (add (playerVelocity pm) (multiplyScalar sideVector speedDelta)) pm.

Definition getDirection (pm : PlayerModel) : Vector3 := playerDirection pm.

Definition getPosition (pm : PlayerModel) : Vector3 := getColliderPosition pm.

Definition getRotation (pm : PlayerModel) : R :=
  atan2 (x (playerDirection pm)) (z (playerDirection pm)).

Definition addVelocity (velocity : Vector3) (pm : PlayerModel) : PlayerModel :=
  set_playerVelocity (add (playerVelocity pm) velocity) pm.

Definition isLoaded (pm : PlayerModel) : bool :=
  match player pm with Some _ => true | None => false end.

(** *** The frame driver *)

Definition STEPS_PER_FRAME : nat := 5.

Definition updateSpheres (deltaTime : R) (s : Scene) : Scene := s.

(** The body of the loop of [render]. *)
Definition substep (keyStates : KeyStates) (worldOctree : Octree)
  (deltaTime : R) (s : Scene) : Scene :=
  let s := controls keyStates deltaTime s in
  let s := updatePlayer worldOctree deltaTime s in
  let s := updateSpheres deltaTime s in
  teleportPlayerIfOob s.

(** [render], given what [clock.getDelta()] returns.  The key state is
    written by event handlers, which do not run during the call. *)
Definition render (clockDelta : R) (keyStates : KeyStates)
  (worldOctree : Octree) (s : Scene) : Scene :=
  let deltaTime := Rmin 0.05 clockDelta / INR STEPS_PER_FRAME in
  forLoop STEPS_PER_FRAME (substep keyStates worldOctree deltaTime) s.

End CharacterDriven.

(** ** The camera-driven controller

    [PlayerModel] and [PlayerCamera] of the camera-driven scene, and the
    scene's frame-driver functions. *)

Module CameraDriven.

Record PlayerModel : Type := mkPlayerModel {
  player : option Object3D;
  playerCollider : Capsule;
  playerVelocity : Vector3;
  playerOnFloor : bool;
  groundSpeed : R;
  airSpeed : R;
  jumpForce : R;
  dampingFactor : R }.

Definition newPlayerModel : PlayerModel :=
  mkPlayerModel None
    (mkCapsule (mkVector3 0 0 0) (mkVector3 0 1.8 0) 0.35)
    zero false
    25 8 15 4.

Definition set_player (o : option Object3D) (pm : PlayerModel) :=
  mkPlayerModel o (playerCollider pm) (playerVelocity pm) (playerOnFloor pm)
    (groundSpeed pm) (airSpeed pm) (jumpForce pm) (dampingFactor pm).

Definition set_playerCollider (c : Capsule) (pm : PlayerModel) :=
  mkPlayerModel (player pm) c (playerVelocity pm) (playerOnFloor pm)
    (groundSpeed pm) (airSpeed pm) (jumpForce pm) (dampingFactor pm).

Definition set_playerVelocity (v : Vector3) (pm : PlayerModel) :=
  mkPlayerModel (player pm) (playerCollider pm) v (playerOnFloor pm)
    (groundSpeed pm) (airSpeed pm) (jumpForce pm) (dampingFactor pm).

Definition set_playerOnFloor (b : bool) (pm : PlayerModel) :=
  mkPlayerModel (player pm) (playerCollider pm) (playerVelocity pm) b
    (groundSpeed pm) (airSpeed pm) (jumpForce pm) (dampingFactor pm).

Definition updatePosition (position : Vector3) (pm : PlayerModel)
  : PlayerModel :=
  match player pm with
  | Some o => set_player (Some (mkObject3D position (rotation_y o))) pm
  | None => pm
  end.

Definition updateRotation (rotation : R) (pm : PlayerModel) : PlayerModel :=
  match player pm with
  | Some o => set_player (Some (mkObject3D (Three.position o) rotation)) pm
  | None => pm
  end.

Definition translate (vec3 : Vector3) (pm : PlayerModel) : PlayerModel :=
  set_playerCollider (Three.translate (playerCollider pm) vec3) pm.

Definition checkCollisions (worldOctree : Octree) (pm : PlayerModel)
  : PlayerModel :=
  let result := capsuleIntersect worldOctree (playerCollider pm) in
  let pm := set_playerOnFloor false pm in
  match result with
  | Some result =>
      let pm := set_playerOnFloor (Rgtb (y (normal result)) 0) pm in
      let pm :=
        if negb (playerOnFloor pm) then
          set_playerVelocity
            (addScaledVector (playerVelocity pm) (normal result)
               (- dot (normal result) (playerVelocity pm))) pm
        else pm in
      if Rgeb (depth result) 1e-10
      then translate (multiplyScalar (normal result) (depth result)) pm
      else pm
  | None => pm
  end.

Definition updatePhysics (deltaTime gravity : R) (pm : PlayerModel)
  : PlayerModel :=
  let damping := exp (- dampingFactor pm * deltaTime) - 1 in
  let '(pm, damping) :=
    if negb (playerOnFloor pm) then
      (set_playerVelocity
         (setY (y (playerVelocity pm) - gravity * deltaTime)
               (playerVelocity pm)) pm,
       damping * 0.1)
    else (pm, damping) in
  let pm :=
    set_playerVelocity
      (addScaledVector (playerVelocity pm) (playerVelocity pm) damping) pm in
  let deltaPosition := multiplyScalar (playerVelocity pm) deltaTime in
  translate deltaPosition pm.

Definition resetPosition (pm : PlayerModel) : PlayerModel :=
  let pm :=
    set_playerCollider
      (mkCapsule (set 0 0 0) (end_ (playerCollider pm))
                 (radius (playerCollider pm))) pm in
  let pm :=
    set_playerCollider
      (mkCapsule (start (playerCollider pm)) (set 0 1.8 0)
                 (radius (playerCollider pm))) pm in
  let pm :=
    set_playerCollider
      (mkCapsule (start (playerCollider pm)) (end_ (playerCollider pm))
                 0.35) pm in
  set_playerVelocity (set 0 0 0) pm.

Definition executeForwardMovement (deltaTime : R) (direction : Vector3)
  (pm : PlayerModel) : PlayerModel :=
  let speedDelta :=
    deltaTime * (if playerOnFloor pm then groundSpeed pm else airSpeed pm) in
  let forwardVector := normalize (setY 0 direction) in
  set_playerVelocity
    (add (playerVelocity pm) (multiplyScalar forwardVector speedDelta)) pm.

Definition executeBackwardMovement (deltaTime : R) (direction : Vector3)
  (pm : PlayerModel) : PlayerModel :=
  let speedDelta :=
    deltaTime * (if playerOnFloor pm then groundSpeed pm else airSpeed pm) in
  let forwardVector := normalize (setY 0 direction) in
  set_playerVelocity
    (add (playerVelocity pm) (multiplyScalar forwardVector (- speedDelta))) pm.

Definition executeLeftMovement (deltaTime : R) (direction up : Vector3)
  (pm : PlayerModel) : PlayerModel :=
  let speedDelta :=
    deltaTime * (if playerOnFloor pm then groundSpeed pm else airSpeed pm) in
  let sideVector := cross (normalize (setY 0 direction)) up in
  set_playerVelocity
    (add (playerVelocity pm) (multiplyScalar sideVector (- speedDelta))) pm.

Definition executeRightMovement (deltaTime : R) (direction up : Vector3)
  (pm : PlayerModel) : PlayerModel :=
  let speedDelta :=
    deltaTime * (if playerOnFloor pm then groundSpeed pm else airSpeed pm) in
  let sideVector := cross (normalize (setY 0 direction)) up in
  set_playerVelocity
    (add (playerVelocity pm) (multiplyScalar sideVector speedDelta)) pm.

Definition executeJump (pm : PlayerModel) : PlayerModel :=
  if playerOnFloor pm
  then set_playerVelocity (setY (jumpForce pm) (playerVelocity pm)) pm
  else pm.

Definition getColliderPosition (pm : PlayerModel) : Vector3 :=
  end_ (playerCollider pm).

Definition isOnFloor (pm : PlayerModel) : bool := playerOnFloor pm.

Definition getVelocity (pm : PlayerModel) : Vector3 := playerVelocity pm.

Definition isLoaded (pm : PlayerModel) : bool :=
  match player pm with Some _ => true | None => false end.

Definition setJumpForce (force : R) (pm : PlayerModel) : PlayerModel :=
  mkPlayerModel (player pm) (playerCollider pm) (playerVelocity pm)
    (playerOnFloor pm) (groundSpeed pm) (airSpeed pm) force (dampingFactor pm).

Definition setDampingFactor (factor : R) (pm : PlayerModel) : PlayerModel :=
  mkPlayerModel (player pm) (playerCollider pm) (playerVelocity pm)
    (playerOnFloor pm) (groundSpeed pm) (airSpeed pm) (jumpForce pm) factor.

(** The camera controller.  Its [playerModel] is the object the scene
    holds too, so the scene's state is this one record. *)
Record PlayerCamera : Type := mkPlayerCamera {
  camera : Camera;
  playerModel : PlayerModel;
  mouseSensitivity : R;
  cameraOffset : Vector3;
  moveState : MoveState }.

Definition newPlayerCamera (camera : Camera) (playerModel : PlayerModel)
  : PlayerCamera :=
  mkPlayerCamera camera playerModel 500 (mkVector3 0 0.8 0) noMove.

Definition set_camera (c : Camera) (pc : PlayerCamera) :=
  mkPlayerCamera c (playerModel pc) (mouseSensitivity pc) (cameraOffset pc)
    (moveState pc).

Definition set_playerModel (pm : PlayerModel) (pc : PlayerCamera) :=
  mkPlayerCamera (camera pc) pm (mouseSensitivity pc) (cameraOffset pc)
    (moveState pc).

Definition set_moveState (m : MoveState) (pc : PlayerCamera) :=
  mkPlayerCamera (camera pc) (playerModel pc) (mouseSensitivity pc)
    (cameraOffset pc) m.

Definition updateCameraPosition (pc : PlayerCamera) : PlayerCamera :=
  set_camera
    (mkCamera (getColliderPosition (playerModel pc))
              (cam_rotation (camera pc)) (up (camera pc))) pc.

Definition resetCameraRotation (pc : PlayerCamera) : PlayerCamera :=
  set_camera
    (mkCamera (cam_position (camera pc)) (mkEuler 0 0 0) (up (camera pc))) pc.

Definition updateMovementState (keyStates : KeyStates) (pc : PlayerCamera)
  : PlayerCamera :=
  set_moveState
    (mkMoveState (keyStates "KeyW"%string) (keyStates "KeyS"%string)
                 (keyStates "KeyA"%string) (keyStates "KeyD"%string)
                 (keyStates "Space"%string)) pc.

Definition getCameraDirection (pc : PlayerCamera) : Vector3 :=
  let direction := getWorldDirection (camera pc) in
  let direction := setY 0 direction in
  normalize direction.

Definition processMovement (keyStates : KeyStates) (deltaTime : R)
  (pc : PlayerCamera) : PlayerCamera :=
  let pc := updateMovementState keyStates pc in
  let cameraDirection := getCameraDirection pc in
  let cameraUp := up (camera pc) in
  let pc :=
    if forward (moveState pc) then
      set_playerModel
        (executeForwardMovement deltaTime cameraDirection (playerModel pc)) pc
    else pc in
  let pc :=
    if backward (moveState pc) then
      set_playerModel
        (executeBackwardMovement deltaTime cameraDirection (playerModel pc)) pc
    else pc in
  let pc :=
    if left (moveState pc) then
      set_playerModel
        (executeLeftMovement deltaTime cameraDirection cameraUp
           (playerModel pc)) pc
    else pc in
  let pc :=
    if right (moveState pc) then
      set_playerModel
        (executeRightMovement deltaTime cameraDirection cameraUp
           (playerModel pc)) pc
    else pc in
  if jump (moveState pc) then
    let pc := set_playerModel (executeJump (playerModel pc)) pc in
    set_moveState
      (mkMoveState (forward (moveState pc)) (backward (moveState pc))
                   (left (moveState pc)) (right (moveState pc)) false) pc
  else pc.

Definition getPlayerTargetPosition (pc : PlayerCamera) : Vector3 :=
  sub (getColliderPosition (playerModel pc)) (cameraOffset pc).

Definition getPlayerTargetRotation (pc : PlayerCamera) : R :=
  let cameraDirection := getCameraDirection pc in
  atan2 (x cameraDirection) (z cameraDirection) + PI.

Definition syncPlayerModel (pc : PlayerCamera) : PlayerCamera :=
  if isLoaded (playerModel pc) then
    let playerPosition := getPlayerTargetPosition pc in
    let playerRotation := getPlayerTargetRotation pc in
    let pc :=
      set_playerModel (updatePosition playerPosition (playerModel pc)) pc in
    set_playerModel (updateRotation playerRotation (playerModel pc)) pc
  else pc.

Definition getPositionInFrontOfCamera (distance : R) (pc : PlayerCamera)
  : Vector3 := getPlayerTargetPosition pc.

Definition getPlayerRotationFromCamera (pc : PlayerCamera) : R :=
  getPlayerTargetRotation pc.

Definition resetToSafePosition (pc : PlayerCamera) : PlayerCamera :=
  let pc := resetCameraRotation pc in
  let pc := updateCameraPosition pc in
  if isLoaded (playerModel pc) then
    let safePosition := getPositionInFrontOfCamera 1 pc in
    let safeRotation := getPlayerRotationFromCamera pc in
    let pc :=
      set_playerModel (updatePosition safePosition (playerModel pc)) pc in
    set_playerModel (updateRotation safeRotation (playerModel pc)) pc
  else pc.

Definition GRAVITY : R := 30.

Definition controls (keyStates : KeyStates) (deltaTime : R)
  (pc : PlayerCamera) : PlayerCamera :=
  processMovement keyStates deltaTime pc.

Definition updatePlayer (worldOctree : Octree) (deltaTime : R)
  (pc : PlayerCamera) : PlayerCamera :=
  let pc :=
    set_playerModel (updatePhysics deltaTime GRAVITY (playerModel pc)) pc in
  let pc :=
    set_playerModel (checkCollisions worldOctree (playerModel pc)) pc in
  let pc := updateCameraPosition pc in
  if isLoaded (playerModel pc) then syncPlayerModel pc else pc.

Definition teleportPlayerIfOob (pc : PlayerCamera) : PlayerCamera :=
  if Rleb (y (getColliderPosition (playerModel pc))) (-25) then
    let pc := set_playerModel (resetPosition (playerModel pc)) pc in
    let pc := resetToSafePosition pc in
    if isLoaded (playerModel pc) then syncPlayerModel pc else pc
  else pc.

(** *** Mouse look and the frame driver *)

(** [handleMouseMove], given whether the pointer is locked to the page
    and the two movement fields of the event. *)
Definition handleMouseMove (pointerLocked : bool) (movementX movementY : R)
  (pc : PlayerCamera) : PlayerCamera :=
  if pointerLocked then
    let r := cam_rotation (camera pc) in
    let r := mkEuler (ex r) (ey r - movementX / mouseSensitivity pc) (ez r) in
    let r := mkEuler (ex r - movementY / mouseSensitivity pc) (ey r) (ez r) in
    let r :=
      mkEuler (Rmax (- PI / 2) (Rmin (PI / 2) (ex r))) (ey r) (ez r) in
    set_camera (mkCamera (cam_position (camera pc)) r (up (camera pc))) pc
  else pc.

Definition updatePlayerVisuals (pc : PlayerCamera) : PlayerCamera :=
  if isLoaded (playerModel pc) then
    let targetPosition := getPlayerTargetPosition pc in
    let targetRotation := getPlayerTargetRotation pc in
    let pc :=
      set_playerModel (updatePosition targetPosition (playerModel pc)) pc in
    set_playerModel (updateRotation targetRotation (playerModel pc)) pc
  else pc.

Definition STEPS_PER_FRAME : nat := 5.

Definition updateSpheres (deltaTime : R) (pc : PlayerCamera) : PlayerCamera :=
  pc.

(** The body of the loop of [render]. *)
Definition substep (keyStates : KeyStates) (worldOctree : Octree)
  (deltaTime : R) (pc : PlayerCamera) : PlayerCamera :=
  let pc := controls keyStates deltaTime pc in
  let pc := updatePlayer worldOctree deltaTime pc in
  let pc := updateSpheres deltaTime pc in
  teleportPlayerIfOob pc.

Definition render (clockDelta : R) (keyStates : KeyStates)
  (worldOctree : Octree) (pc : PlayerCamera) : PlayerCamera :=
  let deltaTime := Rmin 0.05 clockDelta / INR STEPS_PER_FRAME in
  forLoop STEPS_PER_FRAME (substep keyStates worldOctree deltaTime) pc.

End CameraDriven.

(** ** The basic game scene

    The closure state of [createGameScene] that its inline controller
    reads and writes, and the two functions of its physics step. *)

Module Basic.

Record GameScene : Type := mkGameScene {
  camera : Camera;
  playerOnFloor : bool;
  playerCollider : Capsule;
  playerVelocity : Vector3 }.

Definition GRAVITY : R := 30.

Definition set_camera (c : Camera) (s : GameScene) :=
  mkGameScene c (playerOnFloor s) (playerCollider s) (playerVelocity s).

Definition set_playerOnFloor (b : bool) (s : GameScene) :=
  mkGameScene (camera s) b (playerCollider s) (playerVelocity s).

Definition set_playerCollider (c : Capsule) (s : GameScene) :=
  mkGameScene (camera s) (playerOnFloor s) c (playerVelocity s).

Definition set_playerVelocity (v : Vector3) (s : GameScene) :=
  mkGameScene (camera s) (playerOnFloor s) (playerCollider s) v.

Definition playerCollisions (worldOctree : Octree) (s : GameScene)
  : GameScene :=
  let result := capsuleIntersect worldOctree (playerCollider s) in
  let s := set_playerOnFloor false s in
  match result with
  | Some result =>
      let s := set_playerOnFloor (Rgtb (y (normal result)) 0) s in
      let s :=
        if negb (playerOnFloor s) then
          set_playerVelocity
            (addScaledVector (playerVelocity s) (normal result)
               (- dot (normal result) (playerVelocity s))) s
        else s in
      if Rgeb (depth result) 1e-10
      then set_playerCollider
             (translate (playerCollider s)
                (multiplyScalar (normal result) (depth result))) s
      else s
  | None => s
  end.

Definition updatePlayer (worldOctree : Octree) (deltaTime : R)
  (s : GameScene) : GameScene :=
  let damping := exp (- 4 * deltaTime) - 1 in
  let '(s, damping) :=
    if negb (playerOnFloor s) then
      (set_playerVelocity
         (setY (y (playerVelocity s) - GRAVITY * deltaTime)
               (playerVelocity s)) s,
       damping * 0.1)
    else (s, damping) in
  let s :=
    set_playerVelocity
      (addScaledVector (playerVelocity s) (playerVelocity s) damping) s in
  let deltaPosition := multiplyScalar (playerVelocity s) deltaTime in
  let s := set_playerCollider (translate (playerCollider s) deltaPosition) s in
  let s := playerCollisions worldOctree s in
  set_camera
    (mkCamera (end_ (playerCollider s)) (cam_rotation (camera s))
              (up (camera s))) s.

(** *** Controls and the frame driver

    The closure also holds [playerDirection], the one vector that
    [getForwardVector] and [getSideVector] fill and return: the caller
    scales that same object in place before adding it to the
    velocity. *)

Record Closure : Type := mkClosure {
  scene : GameScene;
  playerDirection : Vector3 }.

(** The vector returned is [playerDirection] of the result. *)
Definition getForwardVector (c : Closure) : Closure :=
  let d := getWorldDirection (camera (scene c)) in
  let d := setY 0 d in
  mkClosure (scene c) (normalize d).

Definition getSideVector (c : Closure) : Closure :=
  let d := getWorldDirection (camera (scene c)) in
  let d := setY 0 d in
  let d := normalize d in
  mkClosure (scene c) (cross d (up (camera (scene c)))).

(** [playerVelocity.add(vector.multiplyScalar(s))], where [vector] is
    the shared [playerDirection]. *)
Definition addScaledDirection (s : R) (c : Closure) : Closure :=
  let d := multiplyScalar (playerDirection c) s in
  mkClosure (set_playerVelocity (add (playerVelocity (scene c)) d) (scene c))
            d.

Definition controls (keyStates : KeyStates) (deltaTime : R) (c : Closure)
  : Closure :=
  let speedDelta :=
    deltaTime * (if playerOnFloor (scene c) then 25 else 8) in
  let c :=
    if keyStates "KeyW"%string
    then addScaledDirection speedDelta (getForwardVector c) else c in
  let c :=
    if keyStates "KeyS"%string
    then addScaledDirection (- speedDelta) (getForwardVector c) else c in
  let c :=
    if keyStates "KeyA"%string
    then addScaledDirection (- speedDelta) (getSideVector c) else c in
  let c :=
    if keyStates "KeyD"%string
    then addScaledDirection speedDelta (getSideVector c) else c in
  if playerOnFloor (scene c) then
    if keyStates "Space"%string then
      mkClosure
        (set_playerVelocity (setY 15 (playerVelocity (scene c))) (scene c))
        (playerDirection c)
    else c
  else c.

Definition teleportPlayerIfOob (s : GameScene) : GameScene :=
  if Rleb (y (cam_position (camera s))) (-25) then
    let s :=
      set_playerCollider
        (mkCapsule (set 0 0.35 0) (end_ (playerCollider s))
                   (radius (playerCollider s))) s in
    let s :=
      set_playerCollider
        (mkCapsule (start (playerCollider s)) (set 0 1 0)
                   (radius (playerCollider s))) s in
    let s :=
      set_playerCollider
        (mkCapsule (start (playerCollider s)) (end_ (playerCollider s))
                   0.35) s in
    let s :=
      set_camera
        (mkCamera (end_ (playerCollider s)) (cam_rotation (camera s))
                  (up (camera s))) s in
    set_camera
      (mkCamera (cam_position (camera s)) (mkEuler 0 0 0) (up (camera s))) s
  else s.

Definition STEPS_PER_FRAME : nat := 5.

Definition updateSpheres (deltaTime : R) (c : Closure) : Closure := c.

(** The body of the loop of [animate]. *)
Definition substep (keyStates : KeyStates) (worldOctree : Octree)
  (deltaTime : R) (c : Closure) : Closure :=
  let c := controls keyStates deltaTime c in
  let c :=
    mkClosure (updatePlayer worldOctree deltaTime (scene c))
              (playerDirection c) in
  let c := updateSpheres deltaTime c in
  mkClosure (teleportPlayerIfOob (scene c)) (playerDirection c).

Definition animate (clockDelta : R) (keyStates : KeyStates)
  (worldOctree : Octree) (c : Closure) : Closure :=
  let deltaTime := Rmin 0.05 clockDelta / INR STEPS_PER_FRAME in
  forLoop STEPS_PER_FRAME (substep keyStates worldOctree deltaTime) c.

End Basic.

(** ** The follow camera of the character-driven scene

    [PlayerCamera] of the character-driven scene, with the position of
    the rendering camera.  The orientation that [lookAt] gives the
    rendering camera is not kept: nothing of the controller reads it.
    The player model is the scene's; the camera only reads it. *)

Module FollowCamera.

Record PlayerCamera : Type := mkPlayerCamera {
  camera_position : Vector3;
  followDistance : R;
  followHeight : R;
  followSpeed : R;
  rotationSpeed : R;
  cameraAngleY : R;
  cameraAngleX : R;
  mouseSensitivity : R;
  targetPosition : Vector3;
  targetLookAt : Vector3 }.

Definition newPlayerCamera (camera_position : Vector3) : PlayerCamera :=
  mkPlayerCamera camera_position 5 2 5 3 0 0.3 0.001 zero zero.

Definition set_camera_position (p : Vector3) (pc : PlayerCamera) :=
  mkPlayerCamera p (followDistance pc) (followHeight pc) (followSpeed pc)
    (rotationSpeed pc) (cameraAngleY pc) (cameraAngleX pc)
    (mouseSensitivity pc) (targetPosition pc) (targetLookAt pc).

Definition set_angles (angleY angleX : R) (pc : PlayerCamera) :=
  mkPlayerCamera (camera_position pc) (followDistance pc) (followHeight pc)
    (followSpeed pc) (rotationSpeed pc) angleY angleX
    (mouseSensitivity pc) (targetPosition pc) (targetLookAt pc).

Definition set_targetPosition (t : Vector3) (pc : PlayerCamera) :=
  mkPlayerCamera (camera_position pc) (followDistance pc) (followHeight pc)
    (followSpeed pc) (rotationSpeed pc) (cameraAngleY pc) (cameraAngleX pc)
    (mouseSensitivity pc) t (targetLookAt pc).

Definition set_targetLookAt (t : Vector3) (pc : PlayerCamera) :=
  mkPlayerCamera (camera_position pc) (followDistance pc) (followHeight pc)
    (followSpeed pc) (rotationSpeed pc) (cameraAngleY pc) (cameraAngleX pc)
    (mouseSensitivity pc) (targetPosition pc) t.

Definition calculateTargetPosition (playerPosition playerDirection : Vector3)
  (pc : PlayerCamera) : PlayerCamera :=
  let horizontalDistance := followDistance pc * cos (cameraAngleX pc) in
  let verticalOffset := followDistance pc * sin (cameraAngleX pc) in
  let cameraOffset :=
    mkVector3 (- x playerDirection * horizontalDistance)
              (followHeight pc + verticalOffset)
              (- z playerDirection * horizontalDistance) in
  let rotationMatrix := makeRotationY (cameraAngleY pc) in
  let cameraOffset := applyMatrix4 cameraOffset rotationMatrix in
  set_targetPosition (add playerPosition cameraOffset) pc.

Definition update (deltaTime : R) (playerModel : CharacterDriven.PlayerModel)
  (pc : PlayerCamera) : PlayerCamera :=
  if negb (CharacterDriven.isLoaded playerModel) then pc
  else
    let playerPosition := CharacterDriven.getPosition playerModel in
    let playerDirection := CharacterDriven.getDirection playerModel in
    let pc := calculateTargetPosition playerPosition playerDirection pc in
    let pc :=
      set_camera_position
        (lerp (camera_position pc) (targetPosition pc)
              (followSpeed pc * deltaTime)) pc in
    let pc := set_targetLookAt playerPosition pc in
    set_targetLookAt
      (setY (y (targetLookAt pc) + followHeight pc * 0.5) (targetLookAt pc))
      pc.

Definition handleMouseMove (pointerLocked : bool) (movementX movementY : R)
  (pc : PlayerCamera) : PlayerCamera :=
  if pointerLocked then
    let pc :=
      set_angles (cameraAngleY pc - movementX * mouseSensitivity pc)
                 (cameraAngleX pc) pc in
    let pc :=
      set_angles (cameraAngleY pc)
                 (cameraAngleX pc - movementY * mouseSensitivity pc) pc in
    set_angles (cameraAngleY pc)
               (Rmax (- PI / 3) (Rmin (PI / 12) (cameraAngleX pc))) pc
  else pc.

Definition resetCameraAngles (pc : PlayerCamera) : PlayerCamera :=
  let pc := set_angles 0 (cameraAngleX pc) pc in
  set_angles (cameraAngleY pc) 0.1 pc.

(** The scene's mouse handler: the camera turns, and, when the pointer
    is locked, so does the character. *)
Definition onMouseMove (pointerLocked : bool) (movementX movementY : R)
  (st : PlayerCamera * CharacterDriven.PlayerModel)
  : PlayerCamera * CharacterDriven.PlayerModel :=
  let pc := handleMouseMove pointerLocked movementX movementY (fst st) in
  let pm :=
    if pointerLocked
    then CharacterDriven.handleRotationInput movementX (snd st)
    else snd st in
  (pc, pm).

End FollowCamera.

(** ** The scene manager

    The scene list, the index of the current scene and the creator that
    built it.  What the manager does to the page (canvas, panel,
    listeners) is not kept.  A call that throws returns [None]. *)

Module SceneManager.

Inductive SceneCreator : Type :=
| createGameScenePlayerDriven
| createGameSceneCameraDriven
| createGameScene.

Record SceneManager : Type := mkSceneManager {
  scenes : list SceneCreator;
  currentSceneIndex : Z;
  currentScene : option SceneCreator }.

(** [this.scenes[i]]: [undefined] outside the list. *)
Definition sceneAt (m : SceneManager) (i : Z) : option SceneCreator :=
  if (i <? 0)%Z then None else List.nth_error (scenes m) (Z.to_nat i).

(** [initScene], given whether the page has the [#app] element.
    Calling [undefined] as a creator throws, and so does
    [startAnimation] when no scene has ever been created. *)
Definition initScene (appElement : bool) (m : SceneManager)
  : option SceneManager :=
  let created :=
    if appElement then
      match sceneAt m (currentSceneIndex m) with
      | Some c =>
          Some (mkSceneManager (scenes m) (currentSceneIndex m) (Some c))
      | None => None
      end
    else Some m in
  match created with
  | Some m' =>
      match currentScene m' with
      | Some _ => Some m'
      | None => None
      end
  | None => None
  end.

Definition lengthZ (m : SceneManager) : Z := Z.of_nat (List.length (scenes m)).

Definition nextScene (appElement : bool) (m : SceneManager)
  : option SceneManager :=
  let i := Z.rem (currentSceneIndex m + 1) (lengthZ m) in
  initScene appElement (mkSceneManager (scenes m) i (currentScene m)).

Definition prevScene (appElement : bool) (m : SceneManager)
  : option SceneManager :=
  let i := Z.rem (currentSceneIndex m - 1 + lengthZ m) (lengthZ m) in
  initScene appElement (mkSceneManager (scenes m) i (currentScene m)).

(** The constructor, up to its first [initScene]. *)
Definition newSceneManager (appElement : bool) : option SceneManager :=
  initScene appElement
    (mkSceneManager
       (createGameScenePlayerDriven :: createGameSceneCameraDriven
        :: createGameScene :: nil)
       0%Z None).

(** The [keydown] listener that [createUI] installs. *)
Definition onKeyDown (appElement : bool) (key : string) (m : SceneManager)
  : option SceneManager :=
  if string_dec key "ArrowLeft" then prevScene appElement m
  else if string_dec key "ArrowRight" then nextScene appElement m
  else Some m.

End SceneManager.

(** ** Sample worlds and states

    Concrete inputs on which the properties below are exercised. *)

Module Samples.

(** A horizontal floor at height 0: the capsule touches it when its
    lower cap reaches below the plane, and is pushed straight up. *)
Definition flatFloor : Octree :=
  fun c =>
    if Rlt_dec (y (start c) - radius c) 0
    then Some (mkIntersection (mkVector3 0 1 0) (- (y (start c) - radius c)))
    else None.

(** A vertical wall the capsule is pressed against. *)
Definition wall : Octree :=
  fun _ => Some (mkIntersection (mkVector3 1 0 0) 1).

(** Ground that still touches the capsule on the next substep, as a
    steep ramp the player runs into does. *)
Definition ramp : Octree :=
  fun _ => Some (mkIntersection (mkVector3 0 1 0) 0).

Definition lifted (c : Capsule) : Capsule := translate c (mkVector3 0 1 0).

Definition fallen (c : Capsule) : Capsule := translate c (mkVector3 0 (-30) 0).

Definition noKeys : KeyStates := fun _ => false.

Definition spaceHeld : KeyStates :=
  fun k => if string_dec k "Space" then true else false.

Definition restingCamera : Camera :=
  mkCamera (mkVector3 0 1.8 0) (mkEuler 0 0 0) (mkVector3 0 1 0).

(** The camera-driven player standing on the ground at the spawn
    point, before the mesh has loaded. *)
Definition standing : CameraDriven.PlayerCamera :=
  CameraDriven.newPlayerCamera restingCamera
    (CameraDriven.set_playerOnFloor true CameraDriven.newPlayerModel).

(** The three scenes as their creators leave them. *)
Definition characterStart : CharacterDriven.Scene :=
  CharacterDriven.mkScene CharacterDriven.newPlayerModel
    (CharacterDriven.mkPlayerCamera 0 0.3).

Definition cameraStart : CameraDriven.PlayerCamera :=
  CameraDriven.newPlayerCamera
    (mkCamera zero (mkEuler 0 0 0) (mkVector3 0 1 0))
    CameraDriven.newPlayerModel.

Definition basicStart : Basic.Closure :=
  Basic.mkClosure
    (Basic.mkGameScene (mkCamera zero (mkEuler 0 0 0) (mkVector3 0 1 0))
       false (mkCapsule (mkVector3 0 0.35 0) (mkVector3 0 1 0) 0.35) zero)
    zero.

Definition forwardHeld : KeyStates :=
  fun k => if string_dec k "KeyW" then true else false.

Definition forwardRightHeld : KeyStates :=
  fun k =>
    if string_dec k "KeyW" then true
    else if string_dec k "KeyD" then true else false.

End Samples.

(** ** Vocabulary of the properties

    [updatePhysics] first takes gravity from the vertical velocity of an
    airborne player, then scales the whole velocity: the lemmas on it
    name the velocity between the two steps and the scale.  The others
    name what it is for a component to keep its sign, the rotation about
    the vertical axis, and the physical part of each controller's
    state. *)

(** The velocity before the damping step: gravity has been taken from
    the vertical component when the player is airborne. *)
Definition preDamping (onFloor : bool) (v : Vector3) (gravity deltaTime : R)
  : Vector3 :=
  if onFloor then v else setY (y v - gravity * deltaTime) v.

(** The factor the damping step multiplies the velocity by. *)
Definition dampingMultiplier (onFloor : bool) (k deltaTime : R) : R :=
  if onFloor then exp (- k * deltaTime)
  else 1 + 0.1 * (exp (- k * deltaTime) - 1).

(** One component [c] of a velocity becomes [c']: the sign is kept and
    the magnitude does not grow. *)
Definition keepsSign (c c' : R) : Prop :=
  (0 < c -> 0 < c') /\ (c < 0 -> c' < 0) /\ (c = 0 -> c' = 0)
  /\ Rabs c' <= Rabs c.

(** The rotation of a vector about the vertical axis by [a] radians,
    counter-clockwise seen from above: a vector of yaw [phi], that is
    [(rho * sin phi, h, rho * cos phi)], goes to the vector of yaw
    [phi + a] ([rotateY_yaw] below). *)
Definition rotateY (a : R) (v : Vector3) : Vector3 :=
  mkVector3 (x v * cos a + z v * sin a) (y v) (- x v * sin a + z v * cos a).

(** The physical state of each controller: velocity, collider and floor
    flag. *)
Definition physCharacter (pm : CharacterDriven.PlayerModel)
  : Vector3 * Capsule * bool :=
  (CharacterDriven.playerVelocity pm, CharacterDriven.playerCollider pm,
   CharacterDriven.playerOnFloor pm).

Definition physCamera (pm : CameraDriven.PlayerModel)
  : Vector3 * Capsule * bool :=
  (CameraDriven.playerVelocity pm, CameraDriven.playerCollider pm,
   CameraDriven.playerOnFloor pm).

Definition physBasic (s : Basic.GameScene) : Vector3 * Capsule * bool :=
  (Basic.playerVelocity s, Basic.playerCollider s, Basic.playerOnFloor s).

(** A facing direction as the character keeps it: a unit vector in
    the horizontal plane. *)
Definition facing (d : Vector3) : Prop := length d = 1 /\ y d = 0.

(** The segment vector and the radius of a capsule: its shape, apart
    from where it is. *)
Definition capsuleShape (c : Capsule) : Vector3 * R :=
  (sub (end_ c) (start c), radius c).

(** A key as a number: 1 when pressed, 0 when not. *)
Definition keyWeight (b : bool) : R := if b then 1 else 0.

(** One guarded command of the camera-driven [processMovement]:
    [if (flag) this.playerModel.command(...)]. *)
Definition camStep (flag : bool)
  (command : CameraDriven.PlayerModel -> CameraDriven.PlayerModel)
  (pc : CameraDriven.PlayerCamera) : CameraDriven.PlayerCamera :=
  if flag
  then CameraDriven.set_playerModel (command (CameraDriven.playerModel pc)) pc
  else pc.

(** The speed along the facing direction after [n] substeps on the
    floor with the forward key held, starting from rest: each substep
    adds [s] and then damps by [f]. *)
Fixpoint groundSpeedAfter (n : nat) (s f : R) : R :=
  match n with
  | O => 0
  | Datatypes.S n' => (groundSpeedAfter n' s f + s) * f
  end.

(** The forward key alone, held. *)
Definition onlyForward (keyStates : KeyStates) : Prop :=
  keyStates "KeyW"%string = true /\ keyStates "KeyS"%string = false
  /\ keyStates "KeyA"%string = false /\ keyStates "KeyD"%string = false
  /\ keyStates "Space"%string = false.

(** A world in which every query answers a floor contact. *)
Definition groundEverywhere (worldOctree : Octree) : Prop :=
  forall c, exists n d,
    worldOctree c = Some (mkIntersection n d) /\ 0 < y n.

(** What a substep on the ground with the forward key held keeps, and
    the speed [c] along the facing direction [d]. *)
Definition running (d : Vector3) (gs k c : R) (s : CharacterDriven.Scene)
  : Prop :=
  let pm := CharacterDriven.playerModel s in
  CharacterDriven.playerOnFloor pm = true
  /\ CharacterDriven.playerDirection pm = d
  /\ CharacterDriven.playerVelocity pm = multiplyScalar d c
  /\ CharacterDriven.groundSpeed pm = gs
  /\ CharacterDriven.dampingFactor pm = k
  /\ - 25 < y (end_ (CharacterDriven.playerCollider pm)).

(** A sequence of key presses handled by the scene manager, stopping at
    the first call that throws. *)
Fixpoint pressKeys (appElement : bool) (keys : list string)
  (m : SceneManager.SceneManager) : option SceneManager.SceneManager :=
  match keys with
  | nil => Some m
  | (key :: rest)%list =>
      match SceneManager.onKeyDown appElement key m with
      | Some m' => pressKeys appElement rest m'
      | None => None
      end
  end.

(** The state the scene manager keeps between events: the three scenes
    of the constructor, an index into them, and the scene at that
    index as the current one. *)
Definition managerOk (m : SceneManager.SceneManager) : Prop :=
  SceneManager.scenes m
  = (SceneManager.createGameScenePlayerDriven
     :: SceneManager.createGameSceneCameraDriven
     :: SceneManager.createGameScene :: nil)%list
  /\ (0 <= SceneManager.currentSceneIndex m < 3)%Z
  /\ SceneManager.currentScene m
     = SceneManager.sceneAt m (SceneManager.currentSceneIndex m).

(** * Properties *)

(** ** Comparisons *)

Lemma Rgtb_true (a b : R) : b < a -> Rgtb a b = true.
Proof. intros H. unfold Rgtb. destruct (Rlt_dec b a); [reflexivity | contradiction]. Qed.

Lemma Rgtb_false (a b : R) : a <= b -> Rgtb a b = false.
Proof. intros H. unfold Rgtb. destruct (Rlt_dec b a); [lra | reflexivity]. Qed.

Lemma Rgeb_true (a b : R) : a >= b -> Rgeb a b = true.
Proof. intros H. unfold Rgeb. destruct (Rle_dec b a); [reflexivity | lra]. Qed.

Lemma Rgeb_false (a b : R) : a < b -> Rgeb a b = false.
Proof. intros H. unfold Rgeb. destruct (Rle_dec b a); [lra | reflexivity]. Qed.

Lemma Rleb_true (a b : R) : a <= b -> Rleb a b = true.
Proof. intros H. unfold Rleb. destruct (Rle_dec a b); [reflexivity | contradiction]. Qed.

(** ** Vectors *)

Lemma Vector3_eq (a b c a' b' c' : R) :
  a = a' -> b = b' -> c = c' -> mkVector3 a b c = mkVector3 a' b' c'.
Proof. intros -> -> ->. reflexivity. Qed.

Ltac vec := apply Vector3_eq; cbn; try lra; try ring.

Lemma dot_self_nonneg (v : Vector3) : 0 <= dot v v.
Proof. unfold dot. nra. Qed.

Lemma length_sqr (v : Vector3) : length v * length v = dot v v.
Proof. unfold length. apply sqrt_sqrt. apply (dot_self_nonneg v). Qed.

Lemma unit_dot (n : Vector3) : length n = 1 -> dot n n = 1.
Proof. intros H. rewrite <- length_sqr, H. ring. Qed.

Lemma length_zero : length zero = 0.
Proof.
  unfold length, zero. cbn.
  replace (0 * 0 + 0 * 0 + 0 * 0) with 0 by ring. apply sqrt_0.
Qed.

(** The slide response written as the spec writes it. *)
Lemma slide_as_sub (v n : Vector3) :
  addScaledVector v n (- dot n v) = sub v (multiplyScalar n (dot n v)).
Proof. unfold addScaledVector, sub, multiplyScalar. vec. Qed.

Lemma slide_normal_component (v n : Vector3) :
  dot n n = 1 -> dot n (addScaledVector v n (- dot n v)) = 0.
Proof.
  destruct n as [a b c], v as [p q r]. unfold dot. cbn. intros Hn.
  transitivity ((1 - (a * a + b * b + c * c)) * (a * p + b * q + c * r)).
  - ring.
  - rewrite Hn. ring.
Qed.

Lemma slide_tangent_component (v n t : Vector3) :
  dot t n = 0 -> dot t (addScaledVector v n (- dot n v)) = dot t v.
Proof.
  destruct n as [a b c], v as [p q r], t as [t1 t2 t3].
  unfold dot. cbn. intros Ht.
  transitivity (t1 * p + t2 * q + t3 * r
                - (t1 * a + t2 * b + t3 * c) * (a * p + b * q + c * r)).
  - ring.
  - rewrite Ht. ring.
Qed.

(** ** Collision resolution

    The three outcomes of [checkCollisions], for each copy of the
    resolver: no contact, a contact that is not a floor, a floor
    contact. *)

Ltac contact_cases H :=
  unfold CharacterDriven.checkCollisions, CameraDriven.checkCollisions,
    Basic.playerCollisions, capsuleIntersect;
  rewrite H; cbn.

Section Resolver.

Variable worldOctree : Octree.

Lemma cd_checkCollisions_none pm :
  worldOctree (CharacterDriven.playerCollider pm) = None ->
  CharacterDriven.checkCollisions worldOctree pm
  = CharacterDriven.set_playerOnFloor false pm.
Proof. intros H. contact_cases H. reflexivity. Qed.

Lemma cam_checkCollisions_none pm :
  worldOctree (CameraDriven.playerCollider pm) = None ->
  CameraDriven.checkCollisions worldOctree pm
  = CameraDriven.set_playerOnFloor false pm.
Proof. intros H. contact_cases H. reflexivity. Qed.

Lemma basic_playerCollisions_none s :
  worldOctree (Basic.playerCollider s) = None ->
  Basic.playerCollisions worldOctree s = Basic.set_playerOnFloor false s.
Proof. intros H. contact_cases H. reflexivity. Qed.

(** A contact that is not a floor: the velocity loses its component
    along the normal; the collider moves when the depth reaches the
    noise floor. *)
Lemma cd_checkCollisions_wall pm n d :
  worldOctree (CharacterDriven.playerCollider pm)
  = Some (mkIntersection n d) ->
  y n <= 0 ->
  CharacterDriven.checkCollisions worldOctree pm
  = let pm' :=
      CharacterDriven.set_playerVelocity
        (addScaledVector (CharacterDriven.playerVelocity pm) n
           (- dot n (CharacterDriven.playerVelocity pm)))
        (CharacterDriven.set_playerOnFloor false pm) in
    if Rgeb d 1e-10
    then CharacterDriven.translate (multiplyScalar n d) pm'
    else pm'.
Proof.
  intros H Hy. contact_cases H. rewrite (Rgtb_false _ _ Hy). reflexivity.
Qed.

Lemma cam_checkCollisions_wall pm n d :
  worldOctree (CameraDriven.playerCollider pm)
  = Some (mkIntersection n d) ->
  y n <= 0 ->
  CameraDriven.checkCollisions worldOctree pm
  = let pm' :=
      CameraDriven.set_playerVelocity
        (addScaledVector (CameraDriven.playerVelocity pm) n
           (- dot n (CameraDriven.playerVelocity pm)))
        (CameraDriven.set_playerOnFloor false pm) in
    if Rgeb d 1e-10
    then CameraDriven.translate (multiplyScalar n d) pm'
    else pm'.
Proof.
  intros H Hy. contact_cases H. rewrite (Rgtb_false _ _ Hy). reflexivity.
Qed.

Lemma basic_playerCollisions_wall s n d :
  worldOctree (Basic.playerCollider s) = Some (mkIntersection n d) ->
  y n <= 0 ->
  Basic.playerCollisions worldOctree s
  = let s' :=
      Basic.set_playerVelocity
        (addScaledVector (Basic.playerVelocity s) n
           (- dot n (Basic.playerVelocity s)))
        (Basic.set_playerOnFloor false s) in
    if Rgeb d 1e-10
    then Basic.set_playerCollider
           (translate (Basic.playerCollider s) (multiplyScalar n d)) s'
    else s'.
Proof.
  intros H Hy. contact_cases H. rewrite (Rgtb_false _ _ Hy). reflexivity.
Qed.

(** A floor contact: the flag is raised and the velocity is not
    touched. *)
Lemma cd_checkCollisions_floor pm n d :
  worldOctree (CharacterDriven.playerCollider pm)
  = Some (mkIntersection n d) ->
  0 < y n ->
  CharacterDriven.checkCollisions worldOctree pm
  = let pm' := CharacterDriven.set_playerOnFloor true pm in
    if Rgeb d 1e-10
    then CharacterDriven.translate (multiplyScalar n d) pm'
    else pm'.
Proof.
  intros H Hy. contact_cases H. rewrite (Rgtb_true _ _ Hy). reflexivity.
Qed.

Lemma cam_checkCollisions_floor pm n d :
  worldOctree (CameraDriven.playerCollider pm)
  = Some (mkIntersection n d) ->
  0 < y n ->
  CameraDriven.checkCollisions worldOctree pm
  = let pm' := CameraDriven.set_playerOnFloor true pm in
    if Rgeb d 1e-10
    then CameraDriven.translate (multiplyScalar n d) pm'
    else pm'.
Proof.
  intros H Hy. contact_cases H. rewrite (Rgtb_true _ _ Hy). reflexivity.
Qed.

Lemma basic_playerCollisions_floor s n d :
  worldOctree (Basic.playerCollider s) = Some (mkIntersection n d) ->
  0 < y n ->
  Basic.playerCollisions worldOctree s
  = let s' := Basic.set_playerOnFloor true s in
    if Rgeb d 1e-10
    then Basic.set_playerCollider
           (translate (Basic.playerCollider s) (multiplyScalar n d)) s'
    else s'.
Proof.
  intros H Hy. contact_cases H. rewrite (Rgtb_true _ _ Hy). reflexivity.
Qed.

End Resolver.

(** C1.  When the intersection query returns a contact with a unit
    normal [n] whose vertical component is not positive and a depth [d]
    of at least 1e-10, [checkCollisions] (of the character-driven and
    of the camera-driven player model) translates the collider by
    exactly [n * d]; the new velocity is [v - n * dot(n, v)], it has no
    component along [n], and its component along every direction
    orthogonal to [n] is that of [v]. *)
Theorem C1_wall_contact_slides_and_pushes_out :
  forall (worldOctree : Octree) (n : Vector3) (d : R)
         (pm : CharacterDriven.PlayerModel) (pm' : CameraDriven.PlayerModel),
    length n = 1 ->
    y n <= 0 ->
    d >= 1e-10 ->
    worldOctree (CharacterDriven.playerCollider pm)
    = Some (mkIntersection n d) ->
    worldOctree (CameraDriven.playerCollider pm')
    = Some (mkIntersection n d) ->
    (let v := CharacterDriven.playerVelocity pm in
     let r := CharacterDriven.checkCollisions worldOctree pm in
     CharacterDriven.playerCollider r
     = translate (CharacterDriven.playerCollider pm) (multiplyScalar n d)
     /\ CharacterDriven.playerVelocity r = sub v (multiplyScalar n (dot n v))
     /\ dot n (CharacterDriven.playerVelocity r) = 0
     /\ (forall t, dot t n = 0 ->
                   dot t (CharacterDriven.playerVelocity r) = dot t v))
    /\
    (let v := CameraDriven.playerVelocity pm' in
     let r := CameraDriven.checkCollisions worldOctree pm' in
     CameraDriven.playerCollider r
     = translate (CameraDriven.playerCollider pm') (multiplyScalar n d)
     /\ CameraDriven.playerVelocity r = sub v (multiplyScalar n (dot n v))
     /\ dot n (CameraDriven.playerVelocity r) = 0
     /\ (forall t, dot t n = 0 ->
                   dot t (CameraDriven.playerVelocity r) = dot t v)).
Proof.
  intros worldOctree n d pm pm' Hunit Hy Hd Hcd Hcam.
  apply unit_dot in Hunit.
  split; cbv zeta.
  - rewrite (cd_checkCollisions_wall _ _ _ _ Hcd Hy), (Rgeb_true _ _ Hd).
    cbn. repeat split.
    + apply slide_as_sub.
    + apply slide_normal_component, Hunit.
    + intros t Ht. apply slide_tangent_component, Ht.
  - rewrite (cam_checkCollisions_wall _ _ _ _ Hcam Hy), (Rgeb_true _ _ Hd).
    cbn. repeat split.
    + apply slide_as_sub.
    + apply slide_normal_component, Hunit.
    + intros t Ht. apply slide_tangent_component, Ht.
Qed.

Lemma length_axis_x : length (mkVector3 1 0 0) = 1.
Proof.
  unfold length. cbn.
  replace (1 * 1 + 0 * 0 + 0 * 0) with 1 by ring. apply sqrt_1.
Qed.

Lemma C1_witness :
  dot (mkVector3 1 0 0)
      (CharacterDriven.playerVelocity
         (CharacterDriven.checkCollisions
            Samples.wall
            (CharacterDriven.set_playerVelocity (mkVector3 3 (-2) 5)
               CharacterDriven.newPlayerModel))) = 0.
Proof.
  apply (C1_wall_contact_slides_and_pushes_out
           Samples.wall (mkVector3 1 0 0) 1
           (CharacterDriven.set_playerVelocity (mkVector3 3 (-2) 5)
              CharacterDriven.newPlayerModel)
           CameraDriven.newPlayerModel).
  - exact length_axis_x.
  - cbn. lra.
  - lra.
  - reflexivity.
  - reflexivity.
Defined.

(** C3.  For each copy of the resolver (character-driven, camera-driven
    and the basic scene): when the intersection query returns no
    contact, the floor flag becomes false and the velocity and the
    collider are left as they were; when it returns a contact whose
    normal has a positive vertical component, the floor flag becomes
    true and the velocity is left as it was, while the collider is
    translated by [normal * depth] when the depth reaches 1e-10 and is
    left as it was otherwise. *)
Theorem C3_no_contact_and_floor_contact_keep_velocity :
  forall (worldOctree : Octree),
    (forall pm,
        worldOctree (CharacterDriven.playerCollider pm) = None ->
        let r := CharacterDriven.checkCollisions worldOctree pm in
        CharacterDriven.playerOnFloor r = false
        /\ CharacterDriven.playerVelocity r = CharacterDriven.playerVelocity pm
        /\ CharacterDriven.playerCollider r = CharacterDriven.playerCollider pm)
    /\
    (forall pm n d,
        worldOctree (CharacterDriven.playerCollider pm)
        = Some (mkIntersection n d) ->
        0 < y n ->
        let r := CharacterDriven.checkCollisions worldOctree pm in
        CharacterDriven.playerOnFloor r = true
        /\ CharacterDriven.playerVelocity r = CharacterDriven.playerVelocity pm
        /\ CharacterDriven.playerCollider r
           = if Rgeb d 1e-10
             then translate (CharacterDriven.playerCollider pm)
                            (multiplyScalar n d)
             else CharacterDriven.playerCollider pm)
    /\
    (forall pm,
        worldOctree (CameraDriven.playerCollider pm) = None ->
        let r := CameraDriven.checkCollisions worldOctree pm in
        CameraDriven.playerOnFloor r = false
        /\ CameraDriven.playerVelocity r = CameraDriven.playerVelocity pm
        /\ CameraDriven.playerCollider r = CameraDriven.playerCollider pm)
    /\
    (forall pm n d,
        worldOctree (CameraDriven.playerCollider pm)
        = Some (mkIntersection n d) ->
        0 < y n ->
        let r := CameraDriven.checkCollisions worldOctree pm in
        CameraDriven.playerOnFloor r = true
        /\ CameraDriven.playerVelocity r = CameraDriven.playerVelocity pm
        /\ CameraDriven.playerCollider r
           = if Rgeb d 1e-10
             then translate (CameraDriven.playerCollider pm)
                            (multiplyScalar n d)
             else CameraDriven.playerCollider pm)
    /\
    (forall s,
        worldOctree (Basic.playerCollider s) = None ->
        let r := Basic.playerCollisions worldOctree s in
        Basic.playerOnFloor r = false
        /\ Basic.playerVelocity r = Basic.playerVelocity s
        /\ Basic.playerCollider r = Basic.playerCollider s)
    /\
    (forall s n d,
        worldOctree (Basic.playerCollider s) = Some (mkIntersection n d) ->
        0 < y n ->
        let r := Basic.playerCollisions worldOctree s in
        Basic.playerOnFloor r = true
        /\ Basic.playerVelocity r = Basic.playerVelocity s
        /\ Basic.playerCollider r
           = if Rgeb d 1e-10
             then translate (Basic.playerCollider s) (multiplyScalar n d)
             else Basic.playerCollider s).
Proof.
  intros worldOctree. repeat apply conj; cbv zeta.
  - intros pm H. rewrite (cd_checkCollisions_none _ _ H). auto.
  - intros pm n d H Hy. rewrite (cd_checkCollisions_floor _ _ _ _ H Hy).
    cbv zeta. destruct (Rgeb d 1e-10); auto.
  - intros pm H. rewrite (cam_checkCollisions_none _ _ H). auto.
  - intros pm n d H Hy. rewrite (cam_checkCollisions_floor _ _ _ _ H Hy).
    cbv zeta. destruct (Rgeb d 1e-10); auto.
  - intros s H. rewrite (basic_playerCollisions_none _ _ H). auto.
  - intros s n d H Hy. rewrite (basic_playerCollisions_floor _ _ _ _ H Hy).
    cbv zeta. destruct (Rgeb d 1e-10); auto.
Qed.

Lemma flatFloor_touching (c : Capsule) :
  y (start c) - radius c < 0 ->
  Samples.flatFloor c
  = Some (mkIntersection (mkVector3 0 1 0) (- (y (start c) - radius c))).
Proof.
  intros H. unfold Samples.flatFloor.
  destruct (Rlt_dec (y (start c) - radius c) 0); [reflexivity | contradiction].
Qed.

Lemma flatFloor_clear (c : Capsule) :
  0 <= y (start c) - radius c -> Samples.flatFloor c = None.
Proof.
  intros H. unfold Samples.flatFloor.
  destruct (Rlt_dec (y (start c) - radius c) 0); [lra | reflexivity].
Qed.

Lemma C3_witness :
  CharacterDriven.playerOnFloor
    (CharacterDriven.checkCollisions Samples.flatFloor
       CharacterDriven.newPlayerModel) = true
  /\ CharacterDriven.playerOnFloor
       (CharacterDriven.checkCollisions Samples.flatFloor
          (CharacterDriven.set_playerOnFloor true
             (CharacterDriven.translate (mkVector3 0 1 0)
                CharacterDriven.newPlayerModel))) = false.
Proof.
  destruct (C3_no_contact_and_floor_contact_keep_velocity Samples.flatFloor)
    as (Hnone & Hfloor & _).
  split.
  - apply (Hfloor CharacterDriven.newPlayerModel (mkVector3 0 1 0)
             (- (0 - 0.35))).
    + apply flatFloor_touching. cbn. lra.
    + cbn. lra.
  - apply Hnone. apply flatFloor_clear. cbn. lra.
Defined.

(** ** Velocity integration *)

(** The visual sync that ends the character-driven [updatePhysics]
    writes the mesh and the debug capsule only. *)
Lemma cd_updateModelTransform_physics pm :
  CharacterDriven.playerVelocity (CharacterDriven.updateModelTransform pm)
  = CharacterDriven.playerVelocity pm
  /\ CharacterDriven.playerCollider (CharacterDriven.updateModelTransform pm)
     = CharacterDriven.playerCollider pm
  /\ CharacterDriven.playerOnFloor (CharacterDriven.updateModelTransform pm)
     = CharacterDriven.playerOnFloor pm
  /\ CharacterDriven.dampingFactor (CharacterDriven.updateModelTransform pm)
     = CharacterDriven.dampingFactor pm.
Proof.
  unfold CharacterDriven.updateModelTransform,
    CharacterDriven.updateDebugCapsule.
  destruct pm as [pl col v fl dbg sh gs asp jf df dir ms].
  destruct pl, dbg, sh; cbn; auto.
Qed.

Lemma addScaledVector_self (v : Vector3) (s : R) :
  addScaledVector v v s = multiplyScalar v (1 + s).
Proof. unfold addScaledVector, multiplyScalar. vec. Qed.

Lemma cd_updatePhysics_velocity deltaTime gravity pm :
  CharacterDriven.playerVelocity
    (CharacterDriven.updatePhysics deltaTime gravity pm)
  = multiplyScalar
      (preDamping (CharacterDriven.playerOnFloor pm)
         (CharacterDriven.playerVelocity pm) gravity deltaTime)
      (dampingMultiplier (CharacterDriven.playerOnFloor pm)
         (CharacterDriven.dampingFactor pm) deltaTime).
Proof.
  unfold CharacterDriven.updatePhysics, preDamping, dampingMultiplier.
  destruct (CharacterDriven.playerOnFloor pm); cbn -[exp];
    match goal with
    | |- context [CharacterDriven.updateModelTransform ?p] =>
        rewrite (proj1 (cd_updateModelTransform_physics p))
    end; cbn -[exp]; rewrite addScaledVector_self; f_equal; lra.
Qed.

Lemma cam_updatePhysics_velocity deltaTime gravity pm :
  CameraDriven.playerVelocity
    (CameraDriven.updatePhysics deltaTime gravity pm)
  = multiplyScalar
      (preDamping (CameraDriven.playerOnFloor pm)
         (CameraDriven.playerVelocity pm) gravity deltaTime)
      (dampingMultiplier (CameraDriven.playerOnFloor pm)
         (CameraDriven.dampingFactor pm) deltaTime).
Proof.
  unfold CameraDriven.updatePhysics, preDamping, dampingMultiplier.
  destruct (CameraDriven.playerOnFloor pm); cbn -[exp];
    rewrite addScaledVector_self; f_equal; lra.
Qed.

(** C2.  In [updatePhysics] of both player models, for every velocity,
    gravity [g] and [dt >= 0]: on the floor the new vertical velocity is
    the old one times the damping multiplier [1 + damping], with
    [damping = exp(-dampingFactor * dt) - 1], whatever [g] is; airborne,
    [g * dt] is first taken from the vertical velocity and the
    difference is then multiplied by [1 + damping * 0.1]. *)
Theorem C2_gravity_only_when_airborne :
  forall (deltaTime gravity : R)
         (pm : CharacterDriven.PlayerModel) (pm' : CameraDriven.PlayerModel),
    0 <= deltaTime ->
    y (CharacterDriven.playerVelocity
         (CharacterDriven.updatePhysics deltaTime gravity pm))
    = (let damping :=
         exp (- CharacterDriven.dampingFactor pm * deltaTime) - 1 in
       let vy := y (CharacterDriven.playerVelocity pm) in
       if CharacterDriven.playerOnFloor pm
       then vy * (1 + damping)
       else (vy - gravity * deltaTime) * (1 + damping * 0.1))
    /\
    y (CameraDriven.playerVelocity
         (CameraDriven.updatePhysics deltaTime gravity pm'))
    = (let damping :=
         exp (- CameraDriven.dampingFactor pm' * deltaTime) - 1 in
       let vy := y (CameraDriven.playerVelocity pm') in
       if CameraDriven.playerOnFloor pm'
       then vy * (1 + damping)
       else (vy - gravity * deltaTime) * (1 + damping * 0.1)).
Proof.
  intros deltaTime gravity pm pm' _.
  rewrite cd_updatePhysics_velocity, cam_updatePhysics_velocity.
  unfold preDamping, dampingMultiplier. cbv zeta.
  destruct (CharacterDriven.playerOnFloor pm),
    (CameraDriven.playerOnFloor pm'); cbn -[exp]; split; lra.
Qed.

Lemma C2_witness :
  y (CharacterDriven.playerVelocity
       (CharacterDriven.updatePhysics 0.01 30
          CharacterDriven.newPlayerModel))
  = (0 - 30 * 0.01) * (1 + (exp (- 4 * 0.01) - 1) * 0.1).
Proof.
  apply (C2_gravity_only_when_airborne 0.01 30
           CharacterDriven.newPlayerModel CameraDriven.newPlayerModel).
  lra.
Defined.

Lemma exp_decay_bounds (k deltaTime : R) :
  0 < k -> 0 < deltaTime ->
  0 < exp (- k * deltaTime) < 1.
Proof.
  intros Hk Hdt. split.
  - apply exp_pos.
  - rewrite <- exp_0. apply exp_increasing. nra.
Qed.

Lemma dampingMultiplier_bounds (onFloor : bool) (k deltaTime : R) :
  0 < k -> 0 < deltaTime ->
  0 < dampingMultiplier onFloor k deltaTime < 1.
Proof.
  intros Hk Hdt. pose proof (exp_decay_bounds k deltaTime Hk Hdt) as He.
  unfold dampingMultiplier. destruct onFloor; lra.
Qed.

Lemma scaling_keepsSign (c f : R) : 0 < f <= 1 -> keepsSign c (c * f).
Proof.
  intros [Hpos Hle]. unfold keepsSign. repeat split.
  - intros Hc. nra.
  - intros Hc. nra.
  - intros ->. ring.
  - rewrite Rabs_mult, (Rabs_pos_eq f) by lra.
    pose proof (Rabs_pos c). nra.
Qed.

(** C9.  With the default damping factor 4 and [0 < dt <= 0.01], the
    damping step of [updatePhysics] (both player models) multiplies
    every component of the velocity that enters it by one factor:
    [exp(-4*dt)] on the floor, [1 + 0.1*(exp(-4*dt) - 1)] airborne.  The
    factor is strictly positive and at most 1, so each component keeps
    its sign and none grows in magnitude.  The velocity that enters the
    step is the current velocity, after gravity has been taken from its
    vertical component when the player is airborne. *)
Theorem C9_damping_keeps_sign_and_never_amplifies :
  forall (deltaTime gravity : R)
         (pm : CharacterDriven.PlayerModel) (pm' : CameraDriven.PlayerModel),
    0 < deltaTime ->
    deltaTime <= 0.01 ->
    CharacterDriven.dampingFactor pm = 4 ->
    CameraDriven.dampingFactor pm' = 4 ->
    (let f := if CharacterDriven.playerOnFloor pm
              then exp (- 4 * deltaTime)
              else 1 + 0.1 * (exp (- 4 * deltaTime) - 1) in
     let u := if CharacterDriven.playerOnFloor pm
              then CharacterDriven.playerVelocity pm
              else setY (y (CharacterDriven.playerVelocity pm)
                         - gravity * deltaTime)
                        (CharacterDriven.playerVelocity pm) in
     let v' := CharacterDriven.playerVelocity
                 (CharacterDriven.updatePhysics deltaTime gravity pm) in
     0 < f <= 1
     /\ v' = multiplyScalar u f
     /\ keepsSign (x u) (x v') /\ keepsSign (y u) (y v')
     /\ keepsSign (z u) (z v'))
    /\
    (let f := if CameraDriven.playerOnFloor pm'
              then exp (- 4 * deltaTime)
              else 1 + 0.1 * (exp (- 4 * deltaTime) - 1) in
     let u := if CameraDriven.playerOnFloor pm'
              then CameraDriven.playerVelocity pm'
              else setY (y (CameraDriven.playerVelocity pm')
                         - gravity * deltaTime)
                        (CameraDriven.playerVelocity pm') in
     let v' := CameraDriven.playerVelocity
                 (CameraDriven.updatePhysics deltaTime gravity pm') in
     0 < f <= 1
     /\ v' = multiplyScalar u f
     /\ keepsSign (x u) (x v') /\ keepsSign (y u) (y v')
     /\ keepsSign (z u) (z v')).
Proof.
  intros deltaTime gravity pm pm' Hpos _ Hk Hk'.
  assert (Hf : forall b, 0 < dampingMultiplier b 4 deltaTime <= 1).
  { intros b.
    pose proof (dampingMultiplier_bounds b 4 deltaTime ltac:(lra) Hpos).
    lra. }
  split; cbv zeta.
  - rewrite cd_updatePhysics_velocity, Hk.
    fold (preDamping (CharacterDriven.playerOnFloor pm)
            (CharacterDriven.playerVelocity pm) gravity deltaTime).
    fold (dampingMultiplier (CharacterDriven.playerOnFloor pm) 4 deltaTime).
    repeat split; try apply Hf; cbn [x y z multiplyScalar];
      apply scaling_keepsSign, Hf.
  - rewrite cam_updatePhysics_velocity, Hk'.
    fold (preDamping (CameraDriven.playerOnFloor pm')
            (CameraDriven.playerVelocity pm') gravity deltaTime).
    fold (dampingMultiplier (CameraDriven.playerOnFloor pm') 4 deltaTime).
    repeat split; try apply Hf; cbn [x y z multiplyScalar];
      apply scaling_keepsSign, Hf.
Qed.

Lemma C9_witness :
  keepsSign
    (0 - 30 * 0.01)
    (y (CharacterDriven.playerVelocity
          (CharacterDriven.updatePhysics 0.01 30
             CharacterDriven.newPlayerModel))).
Proof.
  apply (C9_damping_keeps_sign_and_never_amplifies 0.01 30
           CharacterDriven.newPlayerModel CameraDriven.newPlayerModel).
  - lra.
  - lra.
  - reflexivity.
  - reflexivity.
Defined.

(** ** Jump *)

(** C7.  [executeJump] of both player models, with the default jump
    force 15: on the floor the vertical velocity becomes exactly 15,
    whatever it was, while the horizontal components, the collider and
    the floor flag stay; off the floor the call changes nothing. *)
Theorem C7_jump_is_an_impulse_on_floor_only :
  forall (pm : CharacterDriven.PlayerModel) (pm' : CameraDriven.PlayerModel),
    CharacterDriven.jumpForce pm = 15 ->
    CameraDriven.jumpForce pm' = 15 ->
    (if CharacterDriven.playerOnFloor pm
     then
       CharacterDriven.playerVelocity (CharacterDriven.executeJump pm)
       = mkVector3 (x (CharacterDriven.playerVelocity pm)) 15
                   (z (CharacterDriven.playerVelocity pm))
       /\ CharacterDriven.playerCollider (CharacterDriven.executeJump pm)
          = CharacterDriven.playerCollider pm
       /\ CharacterDriven.playerOnFloor (CharacterDriven.executeJump pm)
          = true
     else CharacterDriven.executeJump pm = pm)
    /\
    (if CameraDriven.playerOnFloor pm'
     then
       CameraDriven.playerVelocity (CameraDriven.executeJump pm')
       = mkVector3 (x (CameraDriven.playerVelocity pm')) 15
                   (z (CameraDriven.playerVelocity pm'))
       /\ CameraDriven.playerCollider (CameraDriven.executeJump pm')
          = CameraDriven.playerCollider pm'
       /\ CameraDriven.playerOnFloor (CameraDriven.executeJump pm') = true
     else CameraDriven.executeJump pm' = pm').
Proof.
  intros pm pm' Hj Hj'.
  unfold CharacterDriven.executeJump, CameraDriven.executeJump.
  split.
  - destruct (CharacterDriven.playerOnFloor pm) eqn:Hfloor; [| reflexivity].
    cbn. rewrite Hj, Hfloor. unfold setY. auto.
  - destruct (CameraDriven.playerOnFloor pm') eqn:Hfloor; [| reflexivity].
    cbn. rewrite Hj', Hfloor. unfold setY. auto.
Qed.

Lemma C7_witness :
  CharacterDriven.playerVelocity
    (CharacterDriven.executeJump
       (CharacterDriven.set_playerOnFloor true
          (CharacterDriven.set_playerVelocity (mkVector3 3 (-7) 2)
             CharacterDriven.newPlayerModel)))
  = mkVector3 3 15 2
  /\ CameraDriven.executeJump CameraDriven.newPlayerModel
     = CameraDriven.newPlayerModel.
Proof.
  destruct (C7_jump_is_an_impulse_on_floor_only
              (CharacterDriven.set_playerOnFloor true
                 (CharacterDriven.set_playerVelocity (mkVector3 3 (-7) 2)
                    CharacterDriven.newPlayerModel))
              CameraDriven.newPlayerModel
              eq_refl eq_refl) as [[Hcd _] Hcam].
  split; [exact Hcd | exact Hcam].
Defined.

(** ** Out-of-bounds reset *)

(** C4.  In both controller scenes, when the out-of-bounds test fires,
    that is when the collider position (the capsule's end point) has a
    vertical coordinate of at most -25, [teleportPlayerIfOob] leaves the
    collider equal to the spawn capsule, start (0,0,0), end (0,1.8,0),
    radius 0.35, and the velocity equal to the zero vector, whatever
    both were before. *)
Theorem C4_reset_restores_spawn_and_zero_velocity :
  forall (s : CharacterDriven.Scene) (pc : CameraDriven.PlayerCamera),
    y (CharacterDriven.getColliderPosition (CharacterDriven.playerModel s))
    <= -25 ->
    y (CameraDriven.getColliderPosition (CameraDriven.playerModel pc))
    <= -25 ->
    (let r := CharacterDriven.playerModel
                (CharacterDriven.teleportPlayerIfOob s) in
     CharacterDriven.playerCollider r
     = mkCapsule (mkVector3 0 0 0) (mkVector3 0 1.8 0) 0.35
     /\ CharacterDriven.playerVelocity r = mkVector3 0 0 0)
    /\
    (let r := CameraDriven.playerModel
                (CameraDriven.teleportPlayerIfOob pc) in
     CameraDriven.playerCollider r
     = mkCapsule (mkVector3 0 0 0) (mkVector3 0 1.8 0) 0.35
     /\ CameraDriven.playerVelocity r = mkVector3 0 0 0).
Proof.
  intros s pc Hs Hpc. split; cbv zeta.
  - unfold CharacterDriven.teleportPlayerIfOob.
    rewrite (Rleb_true _ _ Hs). cbn. auto.
  - unfold CameraDriven.teleportPlayerIfOob.
    rewrite (Rleb_true _ _ Hpc).
    destruct pc as [cam pm sens off ms].
    destruct pm as [pl col v fl gs asp jf df].
    destruct pl; cbn; auto.
Qed.

Lemma C4_witness :
  CharacterDriven.playerVelocity
    (CharacterDriven.playerModel
       (CharacterDriven.teleportPlayerIfOob
          (CharacterDriven.mkScene
             (CharacterDriven.set_playerVelocity (mkVector3 1 (-40) 2)
                (CharacterDriven.set_playerCollider
                   (Samples.fallen
                      (CharacterDriven.playerCollider
                         CharacterDriven.newPlayerModel))
                   CharacterDriven.newPlayerModel))
             (CharacterDriven.mkPlayerCamera 0.7 0.3))))
  = mkVector3 0 0 0
  /\ CameraDriven.playerCollider
       (CameraDriven.playerModel
          (CameraDriven.teleportPlayerIfOob
             (CameraDriven.newPlayerCamera Samples.restingCamera
                (CameraDriven.set_player
                   (Some (mkObject3D (mkVector3 0 (-29) 0) PI))
                   (CameraDriven.set_playerCollider
                      (Samples.fallen
                         (CameraDriven.playerCollider
                            CameraDriven.newPlayerModel))
                      CameraDriven.newPlayerModel)))))
     = mkCapsule (mkVector3 0 0 0) (mkVector3 0 1.8 0) 0.35.
Proof.
  destruct (C4_reset_restores_spawn_and_zero_velocity
              (CharacterDriven.mkScene
                 (CharacterDriven.set_playerVelocity (mkVector3 1 (-40) 2)
                    (CharacterDriven.set_playerCollider
                       (Samples.fallen
                          (CharacterDriven.playerCollider
                             CharacterDriven.newPlayerModel))
                       CharacterDriven.newPlayerModel))
                 (CharacterDriven.mkPlayerCamera 0.7 0.3))
              (CameraDriven.newPlayerCamera Samples.restingCamera
                 (CameraDriven.set_player
                    (Some (mkObject3D (mkVector3 0 (-29) 0) PI))
                    (CameraDriven.set_playerCollider
                       (Samples.fallen
                          (CameraDriven.playerCollider
                             CameraDriven.newPlayerModel))
                       CameraDriven.newPlayerModel))))
    as [[_ Hv] [Hc _]].
  - cbn. lra.
  - cbn. lra.
  - split; [exact Hv | exact Hc].
Defined.

(** ** Character-driven movement *)

Lemma processMovement_blocks (deltaTime : R) pm :
  CharacterDriven.processMovement deltaTime pm
  = CharacterDriven.jumpBlock
      (CharacterDriven.moveBlock deltaTime
         (CharacterDriven.turnBlock deltaTime pm)).
Proof.
  unfold CharacterDriven.processMovement, CharacterDriven.jumpBlock,
    CharacterDriven.moveBlock, CharacterDriven.turnBlock,
    CharacterDriven.accumulatedMove, CharacterDriven.turn.
  destruct pm as [pl col v fl dbg sh gs asp jf df dir ms].
  destruct ms as [fw bw lf rt jp].
  destruct fw, bw, lf, rt, jp; reflexivity.
Qed.

Lemma normalizeDivisor_zero : normalizeDivisor zero = 1.
Proof.
  unfold normalizeDivisor. rewrite length_zero.
  destruct (Req_dec_T 0 0); [reflexivity | contradiction].
Qed.

Lemma normalizeDivisor_nonzero (v : Vector3) : normalizeDivisor v <> 0.
Proof.
  unfold normalizeDivisor. destruct (Req_dec_T (length v) 0); [lra | assumption].
Qed.

Lemma normalize_zero : normalize zero = zero.
Proof.
  unfold normalize, divideScalar. rewrite normalizeDivisor_zero.
  unfold multiplyScalar, zero. vec.
Qed.

Lemma add_flattened_zero (v : Vector3) (s : R) :
  add v (multiplyScalar (setY 0 zero) s) = v.
Proof. destruct v as [a b c]. unfold add, multiplyScalar, setY, zero. vec. Qed.

Lemma turnBlock_frame (deltaTime : R) pm :
  let r := CharacterDriven.turnBlock deltaTime pm in
  CharacterDriven.moveState r = CharacterDriven.moveState pm
  /\ CharacterDriven.playerVelocity r = CharacterDriven.playerVelocity pm
  /\ CharacterDriven.playerOnFloor r = CharacterDriven.playerOnFloor pm
  /\ CharacterDriven.playerCollider r = CharacterDriven.playerCollider pm
  /\ CharacterDriven.jumpForce r = CharacterDriven.jumpForce pm.
Proof.
  unfold CharacterDriven.turnBlock, CharacterDriven.turn.
  destruct (left (CharacterDriven.moveState pm)) eqn:Hl; cbn;
    try rewrite Hl;
    destruct (right (CharacterDriven.moveState pm)); cbn; auto.
Qed.

Lemma accumulatedMove_opposed pm :
  forward (CharacterDriven.moveState pm) = true ->
  backward (CharacterDriven.moveState pm) = true ->
  CharacterDriven.accumulatedMove pm = (zero, true).
Proof.
  intros Hf Hb. unfold CharacterDriven.accumulatedMove.
  rewrite Hf, Hb. f_equal. unfold sub, add, zero. vec.
Qed.

(** C6.  In the character-driven [processMovement], for every facing
    direction and every [dt], when the forward and the backward flag
    are both set: the move vector accumulated after the turn is the
    zero vector; normalizing it divides by 1, not by its zero length,
    and gives the zero vector again; and the translate-intent block
    leaves the velocity unchanged, so that the velocity after the whole
    call is that of the jump block applied to the incoming velocity. *)
Theorem C6_opposed_keys_cancel_without_dividing_by_zero :
  forall (deltaTime : R) (pm : CharacterDriven.PlayerModel),
    forward (CharacterDriven.moveState pm) = true ->
    backward (CharacterDriven.moveState pm) = true ->
    let turned := CharacterDriven.turnBlock deltaTime pm in
    CharacterDriven.accumulatedMove turned = (zero, true)
    /\ normalizeDivisor (fst (CharacterDriven.accumulatedMove turned)) = 1
    /\ normalize (fst (CharacterDriven.accumulatedMove turned)) = zero
    /\ CharacterDriven.playerVelocity
         (CharacterDriven.moveBlock deltaTime turned)
       = CharacterDriven.playerVelocity pm
    /\ CharacterDriven.playerVelocity
         (CharacterDriven.processMovement deltaTime pm)
       = CharacterDriven.playerVelocity
           (if jump (CharacterDriven.moveState pm)
            then CharacterDriven.executeJump pm else pm).
Proof.
  intros deltaTime pm Hf Hb turned.
  destruct (turnBlock_frame deltaTime pm) as (Hms & Hv & Hfl & Hcol & Hjf).
  fold turned in Hms, Hv, Hfl, Hcol, Hjf.
  assert (Hacc : CharacterDriven.accumulatedMove turned = (zero, true)).
  { apply accumulatedMove_opposed; rewrite Hms; assumption. }
  assert (Hmove : CharacterDriven.moveBlock deltaTime turned
                  = CharacterDriven.set_playerVelocity
                      (CharacterDriven.playerVelocity turned) turned).
  { unfold CharacterDriven.moveBlock. rewrite Hacc, normalize_zero.
    f_equal. apply add_flattened_zero. }
  rewrite Hacc. cbn [fst].
  split; [reflexivity |].
  split; [apply normalizeDivisor_zero |].
  split; [apply normalize_zero |].
  split.
  - rewrite Hmove. cbn. exact Hv.
  - rewrite processMovement_blocks. fold turned. rewrite Hmove.
    unfold CharacterDriven.jumpBlock, CharacterDriven.executeJump.
    cbn. rewrite Hms, Hfl.
    destruct (jump (CharacterDriven.moveState pm));
      [destruct (CharacterDriven.playerOnFloor pm) |]; cbn;
      rewrite ?Hv, ?Hjf; reflexivity.
Qed.

Lemma C6_witness :
  CharacterDriven.playerVelocity
    (CharacterDriven.processMovement 0.01
       (CharacterDriven.set_moveState (mkMoveState true true true false false)
          (CharacterDriven.set_playerVelocity (mkVector3 2 0 3)
             CharacterDriven.newPlayerModel)))
  = mkVector3 2 0 3.
Proof.
  apply (C6_opposed_keys_cancel_without_dividing_by_zero 0.01
           (CharacterDriven.set_moveState
              (mkMoveState true true true false false)
              (CharacterDriven.set_playerVelocity (mkVector3 2 0 3)
                 CharacterDriven.newPlayerModel))).
  - reflexivity.
  - reflexivity.
Defined.

(** ** Turning *)

Lemma applyMatrix4_makeRotationY (a : R) (v : Vector3) :
  applyMatrix4 v (makeRotationY a) = rotateY a v.
Proof.
  unfold applyMatrix4, makeRotationY, rotateY. cbn -[cos sin].
  apply Vector3_eq; field.
Qed.

Lemma rotateY_yaw (a rho phi h : R) :
  rotateY a (mkVector3 (rho * sin phi) h (rho * cos phi))
  = mkVector3 (rho * sin (phi + a)) h (rho * cos (phi + a)).
Proof.
  unfold rotateY. cbn -[cos sin]. rewrite sin_plus, cos_plus.
  apply Vector3_eq; ring.
Qed.

Lemma rotateY_compose (a b : R) (v : Vector3) :
  rotateY b (rotateY a v) = rotateY (a + b) v.
Proof.
  unfold rotateY. cbn -[cos sin]. rewrite sin_plus, cos_plus.
  apply Vector3_eq; ring.
Qed.

Lemma rotateY_0 (v : Vector3) : rotateY 0 v = v.
Proof.
  destruct v as [a b c]. unfold rotateY. cbn -[cos sin].
  rewrite cos_0, sin_0. apply Vector3_eq; ring.
Qed.

Lemma rotateY_length (a : R) (v : Vector3) : length (rotateY a v) = length v.
Proof.
  unfold length, rotateY. cbn -[cos sin]. f_equal.
  pose proof (sin2_cos2 a) as H. unfold Rsqr in H.
  transitivity (x v * x v * (sin a * sin a + cos a * cos a) + y v * y v
                + z v * z v * (sin a * sin a + cos a * cos a)).
  - ring.
  - rewrite H. ring.
Qed.

Lemma normalize_unit (v : Vector3) : length v = 1 -> normalize v = v.
Proof.
  intros H. unfold normalize, normalizeDivisor, divideScalar. rewrite H.
  destruct (Req_dec_T 1 0) as [E | _]; [lra |].
  destruct v as [a b c]. unfold multiplyScalar. cbn. apply Vector3_eq; field.
Qed.

Lemma turn_direction (a : R) pm :
  length (CharacterDriven.playerDirection pm) = 1 ->
  CharacterDriven.playerDirection (CharacterDriven.turn a pm)
  = rotateY a (CharacterDriven.playerDirection pm).
Proof.
  intros H. unfold CharacterDriven.turn. cbn.
  rewrite applyMatrix4_makeRotationY. apply normalize_unit.
  rewrite rotateY_length. exact H.
Qed.

(** The angle one call of [processMovement] turns the character by. *)
Lemma turnBlock_direction (deltaTime : R) pm :
  length (CharacterDriven.playerDirection pm) = 1 ->
  CharacterDriven.playerDirection (CharacterDriven.turnBlock deltaTime pm)
  = rotateY ((if left (CharacterDriven.moveState pm)
              then 1.5 * deltaTime else 0)
             + (if right (CharacterDriven.moveState pm)
                then - (1.5 * deltaTime) else 0))
            (CharacterDriven.playerDirection pm).
Proof.
  intros H. unfold CharacterDriven.turnBlock. cbv zeta.
  destruct (left (CharacterDriven.moveState pm)) eqn:Hl.
  - assert (Hms : CharacterDriven.moveState
                    (CharacterDriven.turn (1.5 * deltaTime) pm)
                  = CharacterDriven.moveState pm) by reflexivity.
    rewrite Hms.
    destruct (right (CharacterDriven.moveState pm)).
    + rewrite turn_direction.
      * rewrite turn_direction by exact H. apply rotateY_compose.
      * rewrite turn_direction by exact H. rewrite rotateY_length. exact H.
    + rewrite turn_direction by exact H. rewrite Rplus_0_r. reflexivity.
  - destruct (right (CharacterDriven.moveState pm)).
    + rewrite turn_direction by exact H. rewrite Rplus_0_l. reflexivity.
    + rewrite Rplus_0_l, rotateY_0. reflexivity.
Qed.

Lemma processMovement_direction (deltaTime : R) pm :
  CharacterDriven.playerDirection
    (CharacterDriven.processMovement deltaTime pm)
  = CharacterDriven.playerDirection (CharacterDriven.turnBlock deltaTime pm).
Proof.
  rewrite processMovement_blocks.
  unfold CharacterDriven.jumpBlock, CharacterDriven.moveBlock,
    CharacterDriven.executeJump.
  destruct (CharacterDriven.accumulatedMove _) as [m h].
  destruct h; cbn;
    repeat match goal with
           | |- context [if ?b then _ else _] => destruct b; cbn
           end; reflexivity.
Qed.

(** C8.  In the character-driven [processMovement], a unit facing
    direction is rotated about the vertical axis by [+1.5 * dt] radians
    when the left flag is set and by [-1.5 * dt] when the right flag is
    set (the two add up when both are set): the new direction is the
    old one rotated by that angle, its yaw is the old yaw plus that
    angle, and it is a unit vector again.  The rotation matrix
    preserves the length of every vector, and on a unit direction the
    left block and the right block are exactly these rotations. *)
Theorem C8_turn_rotates_facing_by_turn_rate :
  forall (deltaTime : R) (pm : CharacterDriven.PlayerModel),
    length (CharacterDriven.playerDirection pm) = 1 ->
    let d := CharacterDriven.playerDirection pm in
    let d' := CharacterDriven.playerDirection
                (CharacterDriven.processMovement deltaTime pm) in
    let a := (if left (CharacterDriven.moveState pm)
              then 1.5 * deltaTime else 0)
             + (if right (CharacterDriven.moveState pm)
                then - (1.5 * deltaTime) else 0) in
    d' = mkVector3 (x d * cos a + z d * sin a) (y d)
                   (- x d * sin a + z d * cos a)
    /\ (forall rho phi h,
           d = mkVector3 (rho * sin phi) h (rho * cos phi) ->
           d' = mkVector3 (rho * sin (phi + a)) h (rho * cos (phi + a)))
    /\ length d' = 1
    /\ (forall b v, length (applyMatrix4 v (makeRotationY b)) = length v)
    /\ CharacterDriven.playerDirection
         (CharacterDriven.turn (1.5 * deltaTime) pm)
       = applyMatrix4 d (makeRotationY (1.5 * deltaTime))
    /\ CharacterDriven.playerDirection
         (CharacterDriven.turn (- (1.5 * deltaTime)) pm)
       = applyMatrix4 d (makeRotationY (- (1.5 * deltaTime))).
Proof.
  intros deltaTime pm Hunit d d' a.
  assert (Hd' : d' = rotateY a d).
  { unfold d'. rewrite processMovement_direction.
    apply turnBlock_direction, Hunit. }
  split; [exact Hd' |].
  split.
  { intros rho phi h Hd. rewrite Hd', Hd. apply rotateY_yaw. }
  split.
  { rewrite Hd', rotateY_length. exact Hunit. }
  split.
  { intros b v. rewrite applyMatrix4_makeRotationY. apply rotateY_length. }
  split; rewrite turn_direction by exact Hunit;
    symmetry; apply applyMatrix4_makeRotationY.
Qed.

Lemma length_axis_z : length (mkVector3 0 0 1) = 1.
Proof.
  unfold length. cbn.
  replace (0 * 0 + 0 * 0 + 1 * 1) with 1 by ring. apply sqrt_1.
Qed.

Lemma C8_witness :
  length
    (CharacterDriven.playerDirection
       (CharacterDriven.processMovement 0.01
          (CharacterDriven.set_moveState
             (mkMoveState false false true false false)
             CharacterDriven.newPlayerModel))) = 1.
Proof.
  apply (C8_turn_rotates_facing_by_turn_rate 0.01
           (CharacterDriven.set_moveState
              (mkMoveState false false true false false)
              CharacterDriven.newPlayerModel)).
  exact length_axis_z.
Defined.

(** ** Camera-driven jump *)

(** [processMovement] starts by copying the raw key state into the
    movement state, so what the previous call left there is never
    read. *)
Lemma cam_processMovement_overwrites_moveState
  (keyStates : KeyStates) (deltaTime : R) (ms : MoveState) pc :
  CameraDriven.processMovement keyStates deltaTime
    (CameraDriven.set_moveState ms pc)
  = CameraDriven.processMovement keyStates deltaTime pc.
Proof. reflexivity. Qed.

(** The call resets its own copy of the jump flag. *)
Lemma cam_processMovement_clears_jump
  (keyStates : KeyStates) (deltaTime : R) pc :
  jump (CameraDriven.moveState
          (CameraDriven.processMovement keyStates deltaTime pc)) = false.
Proof.
  unfold CameraDriven.processMovement, CameraDriven.updateMovementState.
  cbn.
  destruct (keyStates "KeyW"%string), (keyStates "KeyS"%string),
    (keyStates "KeyA"%string), (keyStates "KeyD"%string),
    (keyStates "Space"%string); reflexivity.
Qed.

(** Whenever the key is held and the player is on the floor, the call
    sets the vertical velocity to the jump force. *)
Lemma cam_processMovement_fires_jump
  (keyStates : KeyStates) (deltaTime : R) pc :
  keyStates "Space"%string = true ->
  CameraDriven.playerOnFloor (CameraDriven.playerModel pc) = true ->
  y (CameraDriven.playerVelocity
       (CameraDriven.playerModel
          (CameraDriven.processMovement keyStates deltaTime pc)))
  = CameraDriven.jumpForce (CameraDriven.playerModel pc).
Proof.
  intros Hkey Hfloor.
  unfold CameraDriven.processMovement, CameraDriven.updateMovementState.
  cbn. rewrite Hkey.
  unfold CameraDriven.executeJump.
  destruct (keyStates "KeyW"%string), (keyStates "KeyS"%string),
    (keyStates "KeyA"%string), (keyStates "KeyD"%string);
    cbn; rewrite Hfloor; reflexivity.
Qed.

Lemma cam_processMovement_frame
  (keyStates : KeyStates) (deltaTime : R) pc :
  let r := CameraDriven.playerModel
             (CameraDriven.processMovement keyStates deltaTime pc) in
  CameraDriven.playerOnFloor r
  = CameraDriven.playerOnFloor (CameraDriven.playerModel pc)
  /\ CameraDriven.jumpForce r
     = CameraDriven.jumpForce (CameraDriven.playerModel pc)
  /\ CameraDriven.dampingFactor r
     = CameraDriven.dampingFactor (CameraDriven.playerModel pc)
  /\ CameraDriven.playerCollider r
     = CameraDriven.playerCollider (CameraDriven.playerModel pc).
Proof.
  unfold CameraDriven.processMovement, CameraDriven.updateMovementState,
    CameraDriven.executeJump.
  cbn.
  destruct (keyStates "KeyW"%string), (keyStates "KeyS"%string),
    (keyStates "KeyA"%string), (keyStates "KeyD"%string),
    (keyStates "Space"%string); cbn;
    destruct (CameraDriven.playerOnFloor (CameraDriven.playerModel pc))
      eqn:Hfloor;
    cbn; rewrite ?Hfloor; auto.
Qed.

(** The physics of one substep of the camera-driven scene is
    [updatePhysics] followed by [checkCollisions]; what follows them in
    [updatePlayer] writes the camera and the mesh only. *)
Lemma cam_updatePlayer_model (worldOctree : Octree) (deltaTime : R) pc :
  let r := CameraDriven.playerModel
             (CameraDriven.updatePlayer worldOctree deltaTime pc) in
  let q := CameraDriven.checkCollisions worldOctree
             (CameraDriven.updatePhysics deltaTime CameraDriven.GRAVITY
                (CameraDriven.playerModel pc)) in
  CameraDriven.playerVelocity r = CameraDriven.playerVelocity q
  /\ CameraDriven.playerOnFloor r = CameraDriven.playerOnFloor q
  /\ CameraDriven.playerCollider r = CameraDriven.playerCollider q
  /\ CameraDriven.jumpForce r = CameraDriven.jumpForce q.
Proof.
  cbv zeta. unfold CameraDriven.updatePlayer. cbn.
  set (q := CameraDriven.checkCollisions worldOctree _).
  unfold CameraDriven.syncPlayerModel, CameraDriven.isLoaded,
    CameraDriven.updateRotation, CameraDriven.updatePosition.
  cbn. destruct (CameraDriven.player q) eqn:Hp; cbn; rewrite ?Hp; cbn; auto.
Qed.

Lemma cam_updatePlayer_moveState (worldOctree : Octree) (deltaTime : R) pc :
  CameraDriven.moveState (CameraDriven.updatePlayer worldOctree deltaTime pc)
  = CameraDriven.moveState pc.
Proof.
  unfold CameraDriven.updatePlayer, CameraDriven.syncPlayerModel. cbv zeta.
  repeat match goal with
         | |- context [if ?b then _ else _] => destruct b
         end; reflexivity.
Qed.

Lemma cam_updatePhysics_frame (deltaTime gravity : R) pm :
  let r := CameraDriven.updatePhysics deltaTime gravity pm in
  CameraDriven.playerOnFloor r = CameraDriven.playerOnFloor pm
  /\ CameraDriven.jumpForce r = CameraDriven.jumpForce pm
  /\ CameraDriven.dampingFactor r = CameraDriven.dampingFactor pm.
Proof.
  unfold CameraDriven.updatePhysics.
  destruct (CameraDriven.playerOnFloor pm) eqn:Hf; cbn -[exp]; auto.
Qed.

Lemma cam_ramp_keeps_floor (deltaTime : R) pm :
  let q := CameraDriven.checkCollisions Samples.ramp
             (CameraDriven.updatePhysics deltaTime CameraDriven.GRAVITY pm) in
  CameraDriven.playerOnFloor q = true
  /\ CameraDriven.playerVelocity q
     = CameraDriven.playerVelocity
         (CameraDriven.updatePhysics deltaTime CameraDriven.GRAVITY pm)
  /\ CameraDriven.jumpForce q = CameraDriven.jumpForce pm.
Proof.
  cbv zeta.
  rewrite (cam_checkCollisions_floor Samples.ramp _ (mkVector3 0 1 0) 0)
    by (reflexivity || (cbn; lra)).
  rewrite Rgeb_false by lra. cbn -[CameraDriven.updatePhysics].
  repeat split. apply cam_updatePhysics_frame.
Qed.

(** C5, on the code.  The camera-driven player stands on the ground and
    the jump key stays held.  The first [controls] call fires the jump
    and clears the controller's own jump flag.  The substep's
    [updatePlayer] runs on ground that still touches the capsule: the
    player is on the floor again and its vertical velocity has decayed
    below the jump speed.  The next [controls] call reads the key state
    anew and fires the jump a second time: the vertical velocity is back
    at 15. *)
Theorem C5_held_jump_key_fires_on_every_grounded_call :
  let pc1 := CameraDriven.controls Samples.spaceHeld 0.01 Samples.standing in
  let pc2 := CameraDriven.updatePlayer Samples.ramp 0.01 pc1 in
  let pc3 := CameraDriven.controls Samples.spaceHeld 0.01 pc2 in
  y (CameraDriven.playerVelocity (CameraDriven.playerModel pc1)) = 15
  /\ jump (CameraDriven.moveState pc1) = false
  /\ jump (CameraDriven.moveState pc2) = false
  /\ CameraDriven.playerOnFloor (CameraDriven.playerModel pc2) = true
  /\ y (CameraDriven.playerVelocity (CameraDriven.playerModel pc2)) < 15
  /\ y (CameraDriven.playerVelocity (CameraDriven.playerModel pc3)) = 15.
Proof.
  intros pc1 pc2 pc3.
  assert (Hkey : Samples.spaceHeld "Space"%string = true) by reflexivity.
  assert (H1 : y (CameraDriven.playerVelocity (CameraDriven.playerModel pc1))
               = 15).
  { unfold pc1, CameraDriven.controls.
    rewrite cam_processMovement_fires_jump by (exact Hkey || reflexivity).
    reflexivity. }
  destruct (cam_processMovement_frame Samples.spaceHeld 0.01 Samples.standing)
    as (Hfl1 & Hjf1 & Hdf1 & _).
  fold (CameraDriven.controls Samples.spaceHeld 0.01 Samples.standing)
    in Hfl1, Hjf1, Hdf1.
  fold pc1 in Hfl1, Hjf1, Hdf1.
  change (CameraDriven.playerOnFloor
            (CameraDriven.playerModel Samples.standing)) with true in Hfl1.
  change (CameraDriven.jumpForce
            (CameraDriven.playerModel Samples.standing)) with 15 in Hjf1.
  change (CameraDriven.dampingFactor
            (CameraDriven.playerModel Samples.standing)) with 4 in Hdf1.
  destruct (cam_updatePlayer_model Samples.ramp 0.01 pc1)
    as (Hv2 & Hfl2 & _ & Hjf2).
  fold pc2 in Hv2, Hfl2, Hjf2.
  destruct (cam_ramp_keeps_floor 0.01 (CameraDriven.playerModel pc1))
    as (Hq1 & Hq2 & Hq3).
  rewrite Hq1 in Hfl2. rewrite Hq2 in Hv2. rewrite Hq3, Hjf1 in Hjf2.
  rewrite cam_updatePhysics_velocity, Hfl1, Hdf1 in Hv2.
  split; [exact H1 |].
  split; [apply cam_processMovement_clears_jump |].
  split.
  { unfold pc2. rewrite cam_updatePlayer_moveState.
    apply cam_processMovement_clears_jump. }
  split; [exact Hfl2 |].
  split.
  { rewrite Hv2. unfold preDamping, dampingMultiplier.
    cbn [y multiplyScalar]. rewrite H1.
    pose proof (exp_decay_bounds 4 0.01 ltac:(lra) ltac:(lra)) as He.
    lra. }
  unfold pc3, CameraDriven.controls.
  rewrite cam_processMovement_fires_jump by (exact Hkey || exact Hfl2).
  exact Hjf2.
Qed.

(** ** The three copies of the physics core *)

(** The two controller scenes pass the gravity the basic scene has
    built in. *)
Lemma scenes_share_gravity :
  CharacterDriven.GRAVITY = Basic.GRAVITY
  /\ CameraDriven.GRAVITY = Basic.GRAVITY.
Proof. split; reflexivity. Qed.

Lemma cd_updatePhysics_phys (deltaTime gravity : R) pm pm' :
  CharacterDriven.dampingFactor pm = CameraDriven.dampingFactor pm' ->
  physCharacter pm = physCamera pm' ->
  physCharacter (CharacterDriven.updatePhysics deltaTime gravity pm)
  = physCamera (CameraDriven.updatePhysics deltaTime gravity pm').
Proof.
  unfold physCharacter, physCamera. intros Hk H. injection H as Hv Hc Hf.
  unfold CharacterDriven.updatePhysics, CameraDriven.updatePhysics.
  rewrite <- Hk, <- Hf.
  destruct (CharacterDriven.playerOnFloor pm) eqn:Hfloor; cbn -[exp];
    match goal with
    | |- context [CharacterDriven.updateModelTransform ?p] =>
        destruct (cd_updateModelTransform_physics p) as (-> & -> & -> & _)
    end; cbn -[exp]; rewrite Hv, Hc, <- ?Hf, ?Hfloor; reflexivity.
Qed.

Lemma cd_checkCollisions_phys (worldOctree : Octree) pm pm' :
  physCharacter pm = physCamera pm' ->
  physCharacter (CharacterDriven.checkCollisions worldOctree pm)
  = physCamera (CameraDriven.checkCollisions worldOctree pm').
Proof.
  unfold physCharacter, physCamera. intros H. injection H as Hv Hc Hf.
  unfold CharacterDriven.checkCollisions, CameraDriven.checkCollisions,
    capsuleIntersect.
  rewrite Hc.
  destruct (worldOctree (CameraDriven.playerCollider pm')) as [[n d] |];
    cbn; [| rewrite Hv, Hc; reflexivity].
  destruct (Rgtb (y n) 0), (Rgeb d (1 / 10000000000)); cbn;
    rewrite ?Hv, ?Hc; reflexivity.
Qed.

Lemma cam_checkCollisions_phys (worldOctree : Octree) pm s :
  physCamera pm = physBasic s ->
  physCamera (CameraDriven.checkCollisions worldOctree pm)
  = physBasic (Basic.playerCollisions worldOctree s).
Proof.
  unfold physCamera, physBasic. intros H. injection H as Hv Hc Hf.
  unfold CameraDriven.checkCollisions, Basic.playerCollisions,
    capsuleIntersect.
  rewrite Hc.
  destruct (worldOctree (Basic.playerCollider s)) as [[n d] |];
    cbn; [| rewrite Hv, Hc; reflexivity].
  destruct (Rgtb (y n) 0), (Rgeb d (1 / 10000000000)); cbn;
    rewrite ?Hv, ?Hc; reflexivity.
Qed.

Lemma basic_set_camera_phys (c : Camera) s :
  physBasic (Basic.set_camera c s) = physBasic s.
Proof. reflexivity. Qed.

(** The basic scene integrates inline, with its own constants, and
    then resolves collisions in the same function: it is the
    camera-driven [updatePhysics] at the scene's gravity followed by
    [checkCollisions]. *)
Lemma cam_updatePlayer_phys (worldOctree : Octree) (deltaTime : R) pm s :
  CameraDriven.dampingFactor pm = 4 ->
  physCamera pm = physBasic s ->
  physCamera
    (CameraDriven.checkCollisions worldOctree
       (CameraDriven.updatePhysics deltaTime Basic.GRAVITY pm))
  = physBasic (Basic.updatePlayer worldOctree deltaTime s).
Proof.
  intros Hk H. pose proof H as H'.
  unfold physCamera, physBasic in H'. injection H' as Hv Hc Hf.
  unfold Basic.updatePlayer.
  destruct (Basic.playerOnFloor s) eqn:Hfloor; cbn [negb]; cbv zeta;
    rewrite basic_set_camera_phys;
    apply cam_checkCollisions_phys;
    unfold CameraDriven.updatePhysics, physCamera, physBasic;
    rewrite Hf, Hk; cbn -[exp]; rewrite Hv, Hc, ?Hf, ?Hfloor; reflexivity.
Qed.

(** C10.  With the default damping factor 4, started from the same
    velocity, collider and floor flag, given the same [dt], the same
    intersection query and the same gravity, the three copies of the
    physics core compute the same velocity, collider and floor flag:
    [updatePhysics] and [checkCollisions] of the character-driven and
    of the camera-driven player model agree for every gravity;
    [playerCollisions] of the basic scene agrees with [checkCollisions];
    and [updatePlayer] of the basic scene, which has no gravity
    argument, integrates inline at the scene's constant 30 (the value
    the two other scenes pass) and then resolves collisions, agrees
    with [updatePhysics] at that gravity followed by
    [checkCollisions]. *)
Theorem C10_three_copies_of_the_physics_core_agree :
  forall (worldOctree : Octree) (deltaTime gravity : R)
         (pm : CharacterDriven.PlayerModel) (pm' : CameraDriven.PlayerModel)
         (s : Basic.GameScene),
    CharacterDriven.dampingFactor pm = 4 ->
    CameraDriven.dampingFactor pm' = 4 ->
    physCharacter pm = physBasic s ->
    physCamera pm' = physBasic s ->
    physCharacter (CharacterDriven.updatePhysics deltaTime gravity pm)
    = physCamera (CameraDriven.updatePhysics deltaTime gravity pm')
    /\ physCharacter (CharacterDriven.checkCollisions worldOctree pm)
       = physCamera (CameraDriven.checkCollisions worldOctree pm')
    /\ physCamera (CameraDriven.checkCollisions worldOctree pm')
       = physBasic (Basic.playerCollisions worldOctree s)
    /\ physCharacter
         (CharacterDriven.checkCollisions worldOctree
            (CharacterDriven.updatePhysics deltaTime Basic.GRAVITY pm))
       = physBasic (Basic.updatePlayer worldOctree deltaTime s)
    /\ physCamera
         (CameraDriven.checkCollisions worldOctree
            (CameraDriven.updatePhysics deltaTime Basic.GRAVITY pm'))
       = physBasic (Basic.updatePlayer worldOctree deltaTime s).
Proof.
  intros worldOctree deltaTime gravity pm pm' s Hk Hk' Hcd Hcam.
  assert (Hpair : physCharacter pm = physCamera pm') by congruence.
  assert (Hks : CharacterDriven.dampingFactor pm
                = CameraDriven.dampingFactor pm') by congruence.
  split; [apply cd_updatePhysics_phys; assumption |].
  split; [apply cd_checkCollisions_phys; assumption |].
  split; [apply cam_checkCollisions_phys; assumption |].
  assert (Hcam' := cam_updatePlayer_phys worldOctree deltaTime pm' s Hk' Hcam).
  split; [| exact Hcam'].
  rewrite <- Hcam'. apply cd_checkCollisions_phys.
  apply cd_updatePhysics_phys; assumption.
Qed.

Lemma C10_witness :
  physCharacter
    (CharacterDriven.checkCollisions Samples.flatFloor
       (CharacterDriven.updatePhysics 0.01 30 CharacterDriven.newPlayerModel))
  = physBasic
      (Basic.updatePlayer Samples.flatFloor 0.01
         (Basic.mkGameScene Samples.restingCamera false
            (mkCapsule (mkVector3 0 0 0) (mkVector3 0 1.8 0) 0.35) zero)).
Proof.
  apply (C10_three_copies_of_the_physics_core_agree Samples.flatFloor 0.01 30
           CharacterDriven.newPlayerModel CameraDriven.newPlayerModel
           (Basic.mkGameScene Samples.restingCamera false
              (mkCapsule (mkVector3 0 0 0) (mkVector3 0 1.8 0) 0.35) zero)).
  - reflexivity.
  - reflexivity.
  - reflexivity.
  - reflexivity.
Defined.

(** * Further properties of the controllers *)

(** ** More on vectors *)

Lemma sum_squares_zero (a b c : R) :
  a * a + b * b + c * c = 0 -> a = 0 /\ b = 0 /\ c = 0.
Proof. intros H. repeat split; nra. Qed.

Lemma length_zero_inv (v : Vector3) : length v = 0 -> v = zero.
Proof.
  intros H. pose proof (length_sqr v) as Hs. rewrite H in Hs.
  unfold dot in Hs. destruct v as [a b c]. cbn in Hs.
  destruct (sum_squares_zero a b c) as (-> & -> & ->); [lra | reflexivity].
Qed.

Lemma length_nonneg (v : Vector3) : 0 <= length v.
Proof. unfold length. apply sqrt_pos. Qed.

Lemma length_multiplyScalar (v : Vector3) (s : R) :
  0 <= s -> length (multiplyScalar v s) = s * length v.
Proof.
  intros Hs. unfold length, multiplyScalar. cbn.
  replace (x v * s * (x v * s) + y v * s * (y v * s) + z v * s * (z v * s))
    with ((s * s) * (x v * x v + y v * y v + z v * z v)) by ring.
  rewrite sqrt_mult_alt by nra. rewrite sqrt_square by exact Hs. reflexivity.
Qed.

(** A vector that is not the zero vector is normalized to length 1. *)
Lemma length_normalize (v : Vector3) :
  length v <> 0 -> length (normalize v) = 1.
Proof.
  intros H. unfold normalize, normalizeDivisor, divideScalar.
  destruct (Req_dec_T (length v) 0) as [E | _]; [contradiction |].
  pose proof (length_nonneg v) as Hpos.
  rewrite length_multiplyScalar.
  - field. exact H.
  - apply Rlt_le. apply Rdiv_lt_0_compat; lra.
Qed.

Lemma normalize_idempotent (v : Vector3) : normalize (normalize v) = normalize v.
Proof.
  destruct (Req_dec_T (length v) 0) as [E | N].
  - rewrite (length_zero_inv v E), normalize_zero. apply normalize_zero.
  - apply normalize_unit, length_normalize, N.
Qed.

Lemma normalize_keeps_flat (v : Vector3) : y v = 0 -> y (normalize v) = 0.
Proof.
  intros H. unfold normalize, divideScalar, multiplyScalar. cbn.
  rewrite H. ring.
Qed.

Lemma setY_flat (v : Vector3) : y v = 0 -> setY 0 v = v.
Proof. destruct v as [a b c]. cbn. intros ->. reflexivity. Qed.

(** Flattening and normalizing a second time changes nothing. *)
Lemma flatten_normalize_idempotent (d : Vector3) :
  normalize (setY 0 (normalize (setY 0 d))) = normalize (setY 0 d).
Proof.
  rewrite (setY_flat (normalize (setY 0 d))).
  - apply normalize_idempotent.
  - apply normalize_keeps_flat. reflexivity.
Qed.

Lemma rotateY_keeps_height (a : R) (v : Vector3) : y (rotateY a v) = y v.
Proof. reflexivity. Qed.

Lemma rotateY_facing (a : R) (d : Vector3) : facing d -> facing (rotateY a d).
Proof.
  intros [Hu Hy]. split.
  - rewrite rotateY_length. exact Hu.
  - exact Hy.
Qed.

(** The quaternion of an axis-angle rotation about the vertical axis
    turns a vector as [makeRotationY] does. *)
Lemma applyAxisAngle_vertical (a : R) (v : Vector3) :
  applyAxisAngle v (mkVector3 0 1 0) a = rotateY a v.
Proof.
  unfold applyAxisAngle, applyQuaternion, setFromAxisAngle, rotateY.
  cbn -[cos sin].
  set (h := a / 2).
  assert (Hc : cos a = 1 - 2 * sin h * sin h).
  { replace a with (2 * h) by (unfold h; field). apply cos_2a_sin. }
  assert (Hs : sin a = 2 * sin h * cos h).
  { replace a with (2 * h) by (unfold h; field). apply sin_2a. }
  rewrite Hc, Hs. apply Vector3_eq; ring.
Qed.

(** ** The loop of the frame drivers *)

Lemma forLoop_invariant {S : Type} (P : S -> Prop) (body : S -> S) :
  (forall s, P s -> P (body s)) ->
  forall n s, P s -> P (forLoop n body s).
Proof.
  intros Hbody n. induction n as [| n IH]; intros s Hs; cbn.
  - exact Hs.
  - apply IH, Hbody, Hs.
Qed.

(** What the last run of the body establishes holds after the loop. *)
Lemma forLoop_last {S : Type} (Q : S -> Prop) (body : S -> S) :
  (forall s, Q (body s)) ->
  forall n s, Q (forLoop (Datatypes.S n) body s).
Proof.
  intros Hbody n. induction n as [| n IH]; intros s.
  - cbn. apply Hbody.
  - change (Q (forLoop (Datatypes.S n) body (body s))). apply IH.
Qed.

(** ** Facing direction of the character *)

Lemma cd_updatePhysics_rest (deltaTime gravity : R) pm :
  let r := CharacterDriven.updatePhysics deltaTime gravity pm in
  CharacterDriven.playerDirection r = CharacterDriven.playerDirection pm
  /\ CharacterDriven.playerOnFloor r = CharacterDriven.playerOnFloor pm
  /\ CharacterDriven.groundSpeed r = CharacterDriven.groundSpeed pm
  /\ CharacterDriven.airSpeed r = CharacterDriven.airSpeed pm
  /\ CharacterDriven.jumpForce r = CharacterDriven.jumpForce pm
  /\ CharacterDriven.dampingFactor r = CharacterDriven.dampingFactor pm
  /\ CharacterDriven.moveState r = CharacterDriven.moveState pm.
Proof.
  unfold CharacterDriven.updatePhysics, CharacterDriven.updateModelTransform,
    CharacterDriven.updateDebugCapsule.
  destruct pm as [pl col v fl dbg sh gs asp jf df dir ms].
  destruct pl, dbg, sh, fl; cbn -[exp]; repeat split.
Qed.

Lemma cd_checkCollisions_rest (worldOctree : Octree) pm :
  let r := CharacterDriven.checkCollisions worldOctree pm in
  CharacterDriven.playerDirection r = CharacterDriven.playerDirection pm
  /\ CharacterDriven.groundSpeed r = CharacterDriven.groundSpeed pm
  /\ CharacterDriven.airSpeed r = CharacterDriven.airSpeed pm
  /\ CharacterDriven.jumpForce r = CharacterDriven.jumpForce pm
  /\ CharacterDriven.dampingFactor r = CharacterDriven.dampingFactor pm
  /\ CharacterDriven.moveState r = CharacterDriven.moveState pm
  /\ CharacterDriven.player r = CharacterDriven.player pm.
Proof.
  unfold CharacterDriven.checkCollisions, capsuleIntersect.
  destruct (worldOctree (CharacterDriven.playerCollider pm)) as [[n d] |];
    cbn; [| repeat split].
  destruct (Rgtb (y n) 0), (Rgeb d (1 / 10000000000)); cbn; repeat split.
Qed.

Lemma turn_facing (a : R) pm :
  facing (CharacterDriven.playerDirection pm) ->
  facing (CharacterDriven.playerDirection (CharacterDriven.turn a pm)).
Proof.
  intros H. rewrite turn_direction by apply H. apply rotateY_facing, H.
Qed.

Lemma processMovement_facing (deltaTime : R) pm :
  facing (CharacterDriven.playerDirection pm) ->
  facing (CharacterDriven.playerDirection
            (CharacterDriven.processMovement deltaTime pm)).
Proof.
  intros H. rewrite processMovement_direction.
  rewrite turnBlock_direction by apply H. apply rotateY_facing, H.
Qed.

Lemma handleRotationInput_direction (deltaX : R) pm :
  length (CharacterDriven.playerDirection pm) = 1 ->
  CharacterDriven.playerDirection
    (CharacterDriven.handleRotationInput deltaX pm)
  = rotateY (- deltaX * 0.002) (CharacterDriven.playerDirection pm).
Proof.
  intros Hunit. unfold CharacterDriven.handleRotationInput. cbn -[cos sin].
  rewrite applyAxisAngle_vertical. apply normalize_unit.
  rewrite rotateY_length. exact Hunit.
Qed.

(** X1.  [handleRotationInput] turns a unit facing direction about the
    vertical axis by [-0.002 * deltaX] radians (a mouse move to the
    right turns the character clockwise seen from above): the yaw goes
    from [phi] to [phi - 0.002 * deltaX], the direction is a unit vector
    again, and velocity, collider and floor flag are not touched. *)
Theorem X1_mouse_turns_character_about_vertical_axis :
  forall (deltaX : R) (pm : CharacterDriven.PlayerModel),
    length (CharacterDriven.playerDirection pm) = 1 ->
    let d := CharacterDriven.playerDirection pm in
    let r := CharacterDriven.handleRotationInput deltaX pm in
    let a := - deltaX * 0.002 in
    CharacterDriven.playerDirection r
    = mkVector3 (x d * cos a + z d * sin a) (y d)
                (- x d * sin a + z d * cos a)
    /\ (forall rho phi h,
           d = mkVector3 (rho * sin phi) h (rho * cos phi) ->
           CharacterDriven.playerDirection r
           = mkVector3 (rho * sin (phi - 0.002 * deltaX)) h
                       (rho * cos (phi - 0.002 * deltaX)))
    /\ length (CharacterDriven.playerDirection r) = 1
    /\ physCharacter r = physCharacter pm.
Proof.
  intros deltaX pm Hunit d r a.
  assert (Hr : CharacterDriven.playerDirection r = rotateY a d)
    by (apply handleRotationInput_direction, Hunit).
  split; [exact Hr |].
  split.
  { intros rho phi h Hd. rewrite Hr, Hd, rotateY_yaw.
    unfold a. apply Vector3_eq; try reflexivity; f_equal; f_equal; lra. }
  split.
  { rewrite Hr, rotateY_length. exact Hunit. }
  reflexivity.
Qed.

Lemma X1_witness :
  length
    (CharacterDriven.playerDirection
       (CharacterDriven.handleRotationInput 40
          CharacterDriven.newPlayerModel)) = 1.
Proof.
  apply (X1_mouse_turns_character_about_vertical_axis 40
           CharacterDriven.newPlayerModel).
  exact length_axis_z.
Defined.

Lemma cd_substep_facing (keyStates : KeyStates) (worldOctree : Octree)
  (deltaTime : R) s :
  facing (CharacterDriven.playerDirection (CharacterDriven.playerModel s)) ->
  facing (CharacterDriven.playerDirection
            (CharacterDriven.playerModel
               (CharacterDriven.substep keyStates worldOctree deltaTime s))).
Proof.
  intros H.
  unfold CharacterDriven.substep, CharacterDriven.updateSpheres,
    CharacterDriven.teleportPlayerIfOob, CharacterDriven.updatePlayer,
    CharacterDriven.controls.
  cbv zeta.
  match goal with
  | |- context [if ?b then _ else _] => destruct b
  end; cbn [CharacterDriven.playerModel];
    [change (CharacterDriven.playerDirection (CharacterDriven.resetPosition ?p))
       with (CharacterDriven.playerDirection p) |];
    rewrite (proj1 (cd_checkCollisions_rest _ _)),
      (proj1 (cd_updatePhysics_rest _ _ _));
    apply processMovement_facing; exact H.
Qed.

(** X2.  The facing direction of the character stays a unit vector in
    the horizontal plane: [processMovement] and [handleRotationInput]
    keep it one, [updatePhysics], [checkCollisions] and [resetPosition]
    do not write it (an out-of-bounds reset keeps the facing), and so
    it is one after every substep and every rendered frame. *)
Theorem X2_facing_direction_stays_unit_and_horizontal :
  forall (keyStates : KeyStates) (worldOctree : Octree)
         (deltaTime gravity deltaX clockDelta : R)
         (s : CharacterDriven.Scene),
    let pm := CharacterDriven.playerModel s in
    facing (CharacterDriven.playerDirection pm) ->
    facing (CharacterDriven.playerDirection
              (CharacterDriven.processMovement deltaTime pm))
    /\ facing (CharacterDriven.playerDirection
                 (CharacterDriven.handleRotationInput deltaX pm))
    /\ CharacterDriven.playerDirection
         (CharacterDriven.updatePhysics deltaTime gravity pm)
       = CharacterDriven.playerDirection pm
    /\ CharacterDriven.playerDirection
         (CharacterDriven.checkCollisions worldOctree pm)
       = CharacterDriven.playerDirection pm
    /\ CharacterDriven.playerDirection (CharacterDriven.resetPosition pm)
       = CharacterDriven.playerDirection pm
    /\ facing (CharacterDriven.playerDirection
                 (CharacterDriven.playerModel
                    (CharacterDriven.substep keyStates worldOctree
                       deltaTime s)))
    /\ facing (CharacterDriven.playerDirection
                 (CharacterDriven.playerModel
                    (CharacterDriven.render clockDelta keyStates
                       worldOctree s))).
Proof.
  intros keyStates worldOctree deltaTime gravity deltaX clockDelta s pm H.
  split; [apply processMovement_facing, H |].
  split.
  { rewrite handleRotationInput_direction by apply H.
    apply rotateY_facing, H. }
  split; [apply cd_updatePhysics_rest |].
  split; [apply cd_checkCollisions_rest |].
  split; [reflexivity |].
  split; [apply cd_substep_facing, H |].
  unfold CharacterDriven.render. cbv zeta.
  apply (forLoop_invariant
           (fun s => facing (CharacterDriven.playerDirection
                               (CharacterDriven.playerModel s)))).
  - intros s0 H0. apply cd_substep_facing, H0.
  - exact H.
Qed.

Lemma facing_axis_z : facing (mkVector3 0 0 1).
Proof. split; [exact length_axis_z | reflexivity]. Qed.

Lemma X2_witness :
  facing
    (CharacterDriven.playerDirection
       (CharacterDriven.playerModel
          (CharacterDriven.render 0.016 Samples.noKeys Samples.flatFloor
             (CharacterDriven.mkScene CharacterDriven.newPlayerModel
                (CharacterDriven.mkPlayerCamera 0 0.3))))).
Proof.
  apply (X2_facing_direction_stays_unit_and_horizontal
           Samples.noKeys Samples.flatFloor 0.01 30 0 0.016
           (CharacterDriven.mkScene CharacterDriven.newPlayerModel
              (CharacterDriven.mkPlayerCamera 0 0.3))).
  exact facing_axis_z.
Defined.

(** ** Character-driven movement, in full *)

Lemma add_zero_l (d : Vector3) : add zero d = d.
Proof. destruct d as [a b c]. unfold add, zero. vec. Qed.

Lemma length_opposite (d : Vector3) : length (sub zero d) = length d.
Proof. unfold length, sub, zero. cbn. f_equal. ring. Qed.

Lemma moveBlock_velocity (deltaTime : R) pm :
  facing (CharacterDriven.playerDirection pm) ->
  CharacterDriven.playerVelocity (CharacterDriven.moveBlock deltaTime pm)
  = add (CharacterDriven.playerVelocity pm)
        (multiplyScalar (CharacterDriven.playerDirection pm)
           (((if forward (CharacterDriven.moveState pm) then 1 else 0)
             - (if backward (CharacterDriven.moveState pm) then 1 else 0))
            * (deltaTime
               * (if CharacterDriven.playerOnFloor pm
                  then CharacterDriven.groundSpeed pm
                  else CharacterDriven.airSpeed pm)))).
Proof.
  intros [Hu Hy].
  unfold CharacterDriven.moveBlock, CharacterDriven.accumulatedMove.
  set (sd := deltaTime * _).
  destruct (forward (CharacterDriven.moveState pm)),
    (backward (CharacterDriven.moveState pm)); cbn -[zero].
  - replace (sub (add zero (CharacterDriven.playerDirection pm))
               (CharacterDriven.playerDirection pm)) with zero
      by (unfold sub, add, zero; vec).
    rewrite normalize_zero. unfold add, multiplyScalar, setY, zero.
    destruct (CharacterDriven.playerVelocity pm). vec.
  - rewrite add_zero_l, (normalize_unit _ Hu), (setY_flat _ Hy).
    unfold add, multiplyScalar. vec.
  - rewrite normalize_unit by (rewrite length_opposite; exact Hu).
    unfold add, multiplyScalar, setY, sub, zero. cbn. rewrite Hy.
    apply Vector3_eq; cbn; ring.
  - destruct (CharacterDriven.playerVelocity pm).
    unfold add, multiplyScalar. vec.
Qed.

Lemma moveBlock_rest (deltaTime : R) pm :
  let r := CharacterDriven.moveBlock deltaTime pm in
  CharacterDriven.playerDirection r = CharacterDriven.playerDirection pm
  /\ CharacterDriven.playerOnFloor r = CharacterDriven.playerOnFloor pm
  /\ CharacterDriven.playerCollider r = CharacterDriven.playerCollider pm
  /\ CharacterDriven.jumpForce r = CharacterDriven.jumpForce pm
  /\ CharacterDriven.moveState r = CharacterDriven.moveState pm
  /\ y (CharacterDriven.playerVelocity r)
     = y (CharacterDriven.playerVelocity pm).
Proof.
  unfold CharacterDriven.moveBlock.
  destruct (CharacterDriven.accumulatedMove pm) as [m h].
  destruct h; cbn; repeat split. ring.
Qed.

Lemma turnBlock_speeds (deltaTime : R) pm :
  let r := CharacterDriven.turnBlock deltaTime pm in
  CharacterDriven.groundSpeed r = CharacterDriven.groundSpeed pm
  /\ CharacterDriven.airSpeed r = CharacterDriven.airSpeed pm.
Proof.
  unfold CharacterDriven.turnBlock, CharacterDriven.turn.
  destruct (left (CharacterDriven.moveState pm)) eqn:Hl; cbn;
    try rewrite Hl;
    destruct (right (CharacterDriven.moveState pm)); cbn; auto.
Qed.

Lemma cd_processMovement_velocity :
  forall (deltaTime : R) (pm : CharacterDriven.PlayerModel),
    facing (CharacterDriven.playerDirection pm) ->
    let ms := CharacterDriven.moveState pm in
    let r := CharacterDriven.processMovement deltaTime pm in
    let speedDelta :=
      deltaTime * (if CharacterDriven.playerOnFloor pm
                   then CharacterDriven.groundSpeed pm
                   else CharacterDriven.airSpeed pm) in
    let m := (if forward ms then 1 else 0) - (if backward ms then 1 else 0) in
    let moved :=
      add (CharacterDriven.playerVelocity pm)
          (multiplyScalar (CharacterDriven.playerDirection r)
             (m * speedDelta)) in
    CharacterDriven.playerVelocity r
    = if jump ms && CharacterDriven.playerOnFloor pm
      then mkVector3 (x moved) (CharacterDriven.jumpForce pm) (z moved)
      else moved.
Proof.
  intros deltaTime pm Hf ms r speedDelta m moved.
  unfold moved, r. rewrite processMovement_direction.
  rewrite processMovement_blocks.
  set (t := CharacterDriven.turnBlock deltaTime pm).
  destruct (turnBlock_frame deltaTime pm) as (Hms & Hv & Hfl & _ & Hjf).
  destruct (turnBlock_speeds deltaTime pm) as (Hgs & Has).
  fold t in Hms, Hv, Hfl, Hjf, Hgs, Has.
  assert (Hft : facing (CharacterDriven.playerDirection t)).
  { unfold t. rewrite turnBlock_direction by apply Hf.
    apply rotateY_facing, Hf. }
  pose proof (moveBlock_velocity deltaTime t Hft) as Hmv.
  rewrite Hms, Hv, Hfl, Hgs, Has in Hmv.
  destruct (moveBlock_rest deltaTime t) as (_ & Hfl' & _ & Hjf' & Hms' & _).
  unfold CharacterDriven.jumpBlock, CharacterDriven.executeJump.
  rewrite Hms', Hfl', Hms, Hfl. fold ms.
  destruct (jump ms); cbn [andb].
  - destruct (CharacterDriven.playerOnFloor pm); cbn.
    + rewrite Hmv, Hjf', Hjf. reflexivity.
    + exact Hmv.
  - exact Hmv.
Qed.


(** X3.  The character-driven [processMovement] on a unit horizontal
    facing direction: the velocity gains [(forward - backward) *
    speedDelta] times the facing direction as it is after the turn of
    this same call, with [speedDelta = dt * groundSpeed] on the floor
    and [dt * airSpeed] off it; then, when the jump flag is set and the
    player is on the floor, the vertical component is replaced by the
    jump force. *)
Theorem X3_character_move_is_along_turned_facing :
  forall (deltaTime : R) (pm : CharacterDriven.PlayerModel),
    facing (CharacterDriven.playerDirection pm) ->
    let ms := CharacterDriven.moveState pm in
    let r := CharacterDriven.processMovement deltaTime pm in
    let speedDelta :=
      deltaTime * (if CharacterDriven.playerOnFloor pm
                   then CharacterDriven.groundSpeed pm
                   else CharacterDriven.airSpeed pm) in
    let m := (if forward ms then 1 else 0) - (if backward ms then 1 else 0) in
    let moved :=
      add (CharacterDriven.playerVelocity pm)
          (multiplyScalar (CharacterDriven.playerDirection r)
             (m * speedDelta)) in
    CharacterDriven.playerVelocity r
    = if jump ms && CharacterDriven.playerOnFloor pm
      then mkVector3 (x moved) (CharacterDriven.jumpForce pm) (z moved)
      else moved.
Proof.
  intros deltaTime pm Hfacing ms r speedDelta m moved.
  unfold moved, m, speedDelta, r, ms.
  apply cd_processMovement_velocity. exact Hfacing.
Qed.

Lemma X3_witness :
  CharacterDriven.playerVelocity
    (CharacterDriven.processMovement 0.01
       (CharacterDriven.set_moveState
          (mkMoveState true false false false false)
          CharacterDriven.newPlayerModel))
  = add zero (multiplyScalar (mkVector3 0 0 1) ((1 - 0) * (0.01 * 8))).
Proof.
  apply (X3_character_move_is_along_turned_facing 0.01
           (CharacterDriven.set_moveState
              (mkMoveState true false false false false)
              CharacterDriven.newPlayerModel)).
  exact facing_axis_z.
Defined.

Lemma cd_processMovement_rest :
  forall (deltaTime : R) (pm : CharacterDriven.PlayerModel),
    let r := CharacterDriven.processMovement deltaTime pm in
    CharacterDriven.playerCollider r = CharacterDriven.playerCollider pm
    /\ CharacterDriven.playerOnFloor r = CharacterDriven.playerOnFloor pm
    /\ CharacterDriven.jumpForce r = CharacterDriven.jumpForce pm
    /\ CharacterDriven.moveState r = CharacterDriven.moveState pm
    /\ y (CharacterDriven.playerVelocity r)
       = if jump (CharacterDriven.moveState pm)
            && CharacterDriven.playerOnFloor pm
         then CharacterDriven.jumpForce pm
         else y (CharacterDriven.playerVelocity pm).
Proof.
  intros deltaTime pm r. unfold r. rewrite processMovement_blocks.
  set (t := CharacterDriven.turnBlock deltaTime pm).
  destruct (turnBlock_frame deltaTime pm) as (Hms & Hv & Hfl & Hcol & Hjf).
  fold t in Hms, Hv, Hfl, Hcol, Hjf.
  destruct (moveBlock_rest deltaTime t)
    as (_ & Hfl' & Hcol' & Hjf' & Hms' & Hy').
  unfold CharacterDriven.jumpBlock, CharacterDriven.executeJump.
  rewrite Hms', Hfl', Hms, Hfl.
  destruct (jump (CharacterDriven.moveState pm)); cbn [andb];
    [destruct (CharacterDriven.playerOnFloor pm) eqn:Hfloor |]; cbn;
    rewrite ?Hcol', ?Hcol, ?Hfl', ?Hfl, ?Hjf', ?Hjf, ?Hms', ?Hms,
      ?Hy', ?Hv, ?Hfloor; repeat split; reflexivity.
Qed.

(** X4.  The character-driven [processMovement] never moves the
    collider and never changes the floor flag or the movement
    parameters, whatever the facing direction; the vertical velocity
    changes only by a jump: it becomes the jump force when the jump
    flag is set and the player is on the floor, and is left as it was
    otherwise.  With the key held, the jump fires on every call made
    on the floor. *)
Theorem X4_character_move_keeps_collider_and_vertical_speed :
  forall (deltaTime : R) (pm : CharacterDriven.PlayerModel),
    let r := CharacterDriven.processMovement deltaTime pm in
    CharacterDriven.playerCollider r = CharacterDriven.playerCollider pm
    /\ CharacterDriven.playerOnFloor r = CharacterDriven.playerOnFloor pm
    /\ CharacterDriven.jumpForce r = CharacterDriven.jumpForce pm
    /\ CharacterDriven.moveState r = CharacterDriven.moveState pm
    /\ y (CharacterDriven.playerVelocity r)
       = if jump (CharacterDriven.moveState pm)
            && CharacterDriven.playerOnFloor pm
         then CharacterDriven.jumpForce pm
         else y (CharacterDriven.playerVelocity pm).
Proof.
  intros deltaTime pm r. unfold r.
  destruct (cd_processMovement_rest deltaTime pm)
    as (Hcol & Hfloor & Hjump & Hms & Hvy).
  repeat split; assumption.
Qed.

(** ** Integration of the position and shape of the capsule *)

Lemma translate_shape (c : Capsule) (t : Vector3) :
  capsuleShape (translate c t) = capsuleShape c.
Proof.
  unfold capsuleShape, translate. cbn. f_equal.
  unfold sub, add. vec.
Qed.

Lemma cd_updatePhysics_collider (deltaTime gravity : R) pm :
  CharacterDriven.playerCollider
    (CharacterDriven.updatePhysics deltaTime gravity pm)
  = translate (CharacterDriven.playerCollider pm)
      (multiplyScalar
         (CharacterDriven.playerVelocity
            (CharacterDriven.updatePhysics deltaTime gravity pm))
         deltaTime).
Proof.
  unfold CharacterDriven.updatePhysics.
  destruct (CharacterDriven.playerOnFloor pm); cbn -[exp];
    repeat match goal with
           | |- context [CharacterDriven.updateModelTransform ?p] =>
               destruct (cd_updateModelTransform_physics p)
                 as (-> & -> & _)
           end; reflexivity.
Qed.

Lemma cam_updatePhysics_collider (deltaTime gravity : R) pm :
  CameraDriven.playerCollider
    (CameraDriven.updatePhysics deltaTime gravity pm)
  = translate (CameraDriven.playerCollider pm)
      (multiplyScalar
         (CameraDriven.playerVelocity
            (CameraDriven.updatePhysics deltaTime gravity pm))
         deltaTime).
Proof.
  unfold CameraDriven.updatePhysics.
  destruct (CameraDriven.playerOnFloor pm); reflexivity.
Qed.

(** X5.  [updatePhysics] of both player models moves the two end points
    of the capsule by the velocity it has just computed times [dt], not
    by the velocity it was called with: on the floor by
    [v * exp(-dampingFactor*dt) * dt], airborne by the velocity with
    [g*dt] taken from its vertical component, times
    [(1 + 0.1*(exp(-dampingFactor*dt) - 1)) * dt].  The radius is
    kept. *)
Theorem X5_position_integrates_the_updated_velocity :
  forall (deltaTime gravity : R)
         (pm : CharacterDriven.PlayerModel) (pm' : CameraDriven.PlayerModel),
    (let v := CharacterDriven.playerVelocity pm in
     let c := CharacterDriven.playerCollider pm in
     let r := CharacterDriven.updatePhysics deltaTime gravity pm in
     let e := exp (- CharacterDriven.dampingFactor pm * deltaTime) in
     let step :=
       if CharacterDriven.playerOnFloor pm
       then multiplyScalar v (e * deltaTime)
       else multiplyScalar
              (mkVector3 (x v) (y v - gravity * deltaTime) (z v))
              ((1 + 0.1 * (e - 1)) * deltaTime) in
     CharacterDriven.playerCollider r
     = mkCapsule (add (start c) step) (add (end_ c) step) (radius c)
     /\ step = multiplyScalar (CharacterDriven.playerVelocity r) deltaTime)
    /\
    (let v := CameraDriven.playerVelocity pm' in
     let c := CameraDriven.playerCollider pm' in
     let r := CameraDriven.updatePhysics deltaTime gravity pm' in
     let e := exp (- CameraDriven.dampingFactor pm' * deltaTime) in
     let step :=
       if CameraDriven.playerOnFloor pm'
       then multiplyScalar v (e * deltaTime)
       else multiplyScalar
              (mkVector3 (x v) (y v - gravity * deltaTime) (z v))
              ((1 + 0.1 * (e - 1)) * deltaTime) in
     CameraDriven.playerCollider r
     = mkCapsule (add (start c) step) (add (end_ c) step) (radius c)
     /\ step = multiplyScalar (CameraDriven.playerVelocity r) deltaTime).
Proof.
  intros deltaTime gravity pm pm'. split; cbv zeta.
  - assert (Hstep :
      (if CharacterDriven.playerOnFloor pm
       then multiplyScalar (CharacterDriven.playerVelocity pm)
              (exp (- CharacterDriven.dampingFactor pm * deltaTime)
               * deltaTime)
       else multiplyScalar
              (mkVector3 (x (CharacterDriven.playerVelocity pm))
                 (y (CharacterDriven.playerVelocity pm)
                  - gravity * deltaTime)
                 (z (CharacterDriven.playerVelocity pm)))
              ((1 + 0.1
                    * (exp (- CharacterDriven.dampingFactor pm * deltaTime)
                       - 1)) * deltaTime))
      = multiplyScalar
          (CharacterDriven.playerVelocity
             (CharacterDriven.updatePhysics deltaTime gravity pm))
          deltaTime).
    { rewrite cd_updatePhysics_velocity.
      unfold preDamping, dampingMultiplier, setY.
      destruct (CharacterDriven.playerOnFloor pm);
        unfold multiplyScalar; cbn -[exp]; apply Vector3_eq; ring. }
    split; [| exact Hstep].
    rewrite Hstep. apply cd_updatePhysics_collider.
  - assert (Hstep :
      (if CameraDriven.playerOnFloor pm'
       then multiplyScalar (CameraDriven.playerVelocity pm')
              (exp (- CameraDriven.dampingFactor pm' * deltaTime)
               * deltaTime)
       else multiplyScalar
              (mkVector3 (x (CameraDriven.playerVelocity pm'))
                 (y (CameraDriven.playerVelocity pm')
                  - gravity * deltaTime)
                 (z (CameraDriven.playerVelocity pm')))
              ((1 + 0.1
                    * (exp (- CameraDriven.dampingFactor pm' * deltaTime)
                       - 1)) * deltaTime))
      = multiplyScalar
          (CameraDriven.playerVelocity
             (CameraDriven.updatePhysics deltaTime gravity pm'))
          deltaTime).
    { rewrite cam_updatePhysics_velocity.
      unfold preDamping, dampingMultiplier, setY.
      destruct (CameraDriven.playerOnFloor pm');
        unfold multiplyScalar; cbn -[exp]; apply Vector3_eq; ring. }
    split; [| exact Hstep].
    rewrite Hstep. apply cam_updatePhysics_collider.
Qed.

Section ShapeOfTheCapsule.

Variable worldOctree : Octree.

Lemma cd_checkCollisions_shape pm :
  capsuleShape
    (CharacterDriven.playerCollider
       (CharacterDriven.checkCollisions worldOctree pm))
  = capsuleShape (CharacterDriven.playerCollider pm).
Proof.
  unfold CharacterDriven.checkCollisions, capsuleIntersect.
  destruct (worldOctree (CharacterDriven.playerCollider pm)) as [[n d] |];
    cbn; [| reflexivity].
  destruct (Rgtb (y n) 0), (Rgeb d (1 / 10000000000)); cbn;
    try apply translate_shape; reflexivity.
Qed.

Lemma cam_checkCollisions_shape pm :
  capsuleShape
    (CameraDriven.playerCollider
       (CameraDriven.checkCollisions worldOctree pm))
  = capsuleShape (CameraDriven.playerCollider pm).
Proof.
  unfold CameraDriven.checkCollisions, capsuleIntersect.
  destruct (worldOctree (CameraDriven.playerCollider pm)) as [[n d] |];
    cbn; [| reflexivity].
  destruct (Rgtb (y n) 0), (Rgeb d (1 / 10000000000)); cbn;
    try apply translate_shape; reflexivity.
Qed.

Lemma basic_playerCollisions_shape s :
  capsuleShape
    (Basic.playerCollider (Basic.playerCollisions worldOctree s))
  = capsuleShape (Basic.playerCollider s).
Proof.
  unfold Basic.playerCollisions, capsuleIntersect.
  destruct (worldOctree (Basic.playerCollider s)) as [[n d] |];
    cbn; [| reflexivity].
  destruct (Rgtb (y n) 0), (Rgeb d (1 / 10000000000)); cbn;
    try apply translate_shape; reflexivity.
Qed.

Lemma cd_updatePhysics_shape (deltaTime gravity : R) pm :
  capsuleShape
    (CharacterDriven.playerCollider
       (CharacterDriven.updatePhysics deltaTime gravity pm))
  = capsuleShape (CharacterDriven.playerCollider pm).
Proof. rewrite cd_updatePhysics_collider. apply translate_shape. Qed.

Lemma cam_updatePhysics_shape (deltaTime gravity : R) pm :
  capsuleShape
    (CameraDriven.playerCollider
       (CameraDriven.updatePhysics deltaTime gravity pm))
  = capsuleShape (CameraDriven.playerCollider pm).
Proof. rewrite cam_updatePhysics_collider. apply translate_shape. Qed.

Lemma basic_updatePlayer_shape (deltaTime : R) s :
  capsuleShape
    (Basic.playerCollider (Basic.updatePlayer worldOctree deltaTime s))
  = capsuleShape (Basic.playerCollider s).
Proof.
  unfold Basic.updatePlayer.
  destruct (Basic.playerOnFloor s); cbn [negb]; cbv zeta;
    change (Basic.playerCollider (Basic.set_camera ?c ?t))
      with (Basic.playerCollider t);
    rewrite basic_playerCollisions_shape; cbn -[exp];
    apply translate_shape.
Qed.

Lemma cd_processMovement_collider (deltaTime : R) pm :
  CharacterDriven.playerCollider
    (CharacterDriven.processMovement deltaTime pm)
  = CharacterDriven.playerCollider pm.
Proof.
  rewrite processMovement_blocks.
  unfold CharacterDriven.jumpBlock, CharacterDriven.executeJump.
  destruct (moveBlock_rest deltaTime
              (CharacterDriven.turnBlock deltaTime pm))
    as (_ & _ & Hcol & _).
  destruct (turnBlock_frame deltaTime pm) as (_ & _ & _ & Hcol' & _).
  repeat match goal with
         | |- context [if ?b then _ else _] => destruct b; cbn
         end; rewrite Hcol; exact Hcol'.
Qed.

Lemma cd_substep_collider (keyStates : KeyStates) (deltaTime : R) s :
  let r := CharacterDriven.playerCollider
             (CharacterDriven.playerModel
                (CharacterDriven.substep keyStates worldOctree deltaTime s)) in
  r = mkCapsule (mkVector3 0 0 0) (mkVector3 0 1.8 0) 0.35
  \/ (- 25 < y (end_ r)
      /\ capsuleShape r
         = capsuleShape
             (CharacterDriven.playerCollider (CharacterDriven.playerModel s))).
Proof.
  cbv zeta.
  unfold CharacterDriven.substep, CharacterDriven.updateSpheres,
    CharacterDriven.teleportPlayerIfOob, CharacterDriven.getColliderPosition,
    Rleb.
  cbv zeta.
  match goal with
  | |- context [Rle_dec ?a ?b] => destruct (Rle_dec a b) as [Hle | Hgt]
  end.
  - left. reflexivity.
  - right. split; [lra |].
    unfold CharacterDriven.updatePlayer, CharacterDriven.controls. cbn.
    rewrite cd_checkCollisions_shape, cd_updatePhysics_shape,
      cd_processMovement_collider.
    reflexivity.
Qed.

Lemma cam_processMovement_collider (keyStates : KeyStates) (deltaTime : R) pc :
  CameraDriven.playerCollider
    (CameraDriven.playerModel
       (CameraDriven.processMovement keyStates deltaTime pc))
  = CameraDriven.playerCollider (CameraDriven.playerModel pc).
Proof. apply cam_processMovement_frame. Qed.

Lemma cam_teleport_collider pc :
  let r := CameraDriven.playerCollider
             (CameraDriven.playerModel (CameraDriven.teleportPlayerIfOob pc)) in
  r = mkCapsule (mkVector3 0 0 0) (mkVector3 0 1.8 0) 0.35
  \/ (- 25 < y (end_ r)
      /\ r = CameraDriven.playerCollider (CameraDriven.playerModel pc)).
Proof.
  cbv zeta.
  unfold CameraDriven.teleportPlayerIfOob, CameraDriven.getColliderPosition,
    Rleb.
  destruct (Rle_dec _ _) as [Hle | Hgt].
  - left. destruct pc as [cam pm sens off ms].
    destruct pm as [pl col v fl gs asp jf df].
    destruct pl; reflexivity.
  - right. split; [lra | reflexivity].
Qed.

Lemma cam_substep_collider (keyStates : KeyStates) (deltaTime : R) pc :
  let r := CameraDriven.playerCollider
             (CameraDriven.playerModel
                (CameraDriven.substep keyStates worldOctree deltaTime pc)) in
  r = mkCapsule (mkVector3 0 0 0) (mkVector3 0 1.8 0) 0.35
  \/ (- 25 < y (end_ r)
      /\ capsuleShape r
         = capsuleShape
             (CameraDriven.playerCollider (CameraDriven.playerModel pc))).
Proof.
  cbv zeta. unfold CameraDriven.substep, CameraDriven.updateSpheres.
  cbv zeta.
  destruct (cam_teleport_collider
              (CameraDriven.updatePlayer worldOctree deltaTime
                 (CameraDriven.controls keyStates deltaTime pc)))
    as [H | [Hy H]].
  - left. exact H.
  - right. split; [exact Hy |]. rewrite H.
    destruct (cam_updatePlayer_model worldOctree deltaTime
                (CameraDriven.controls keyStates deltaTime pc))
      as (_ & _ & -> & _).
    rewrite cam_checkCollisions_shape, cam_updatePhysics_shape.
    unfold CameraDriven.controls. rewrite cam_processMovement_collider.
    reflexivity.
Qed.

End ShapeOfTheCapsule.

Lemma basic_addScaledDirection_rest (k : R) c :
  let r := Basic.scene (Basic.addScaledDirection k c) in
  Basic.playerCollider r = Basic.playerCollider (Basic.scene c)
  /\ Basic.playerOnFloor r = Basic.playerOnFloor (Basic.scene c)
  /\ Basic.camera r = Basic.camera (Basic.scene c).
Proof. cbn. auto. Qed.

Lemma basic_controls_rest (keyStates : KeyStates) (deltaTime : R) c :
  let r := Basic.scene (Basic.controls keyStates deltaTime c) in
  Basic.playerCollider r = Basic.playerCollider (Basic.scene c)
  /\ Basic.playerOnFloor r = Basic.playerOnFloor (Basic.scene c)
  /\ Basic.camera r = Basic.camera (Basic.scene c).
Proof.
  unfold Basic.controls, Basic.getForwardVector, Basic.getSideVector,
    Basic.addScaledDirection.
  cbv zeta.
  destruct (keyStates "KeyW"%string), (keyStates "KeyS"%string),
    (keyStates "KeyA"%string), (keyStates "KeyD"%string),
    (keyStates "Space"%string);
    cbn; destruct (Basic.playerOnFloor (Basic.scene c)) eqn:Hfloor; cbn;
    rewrite ?Hfloor; auto.
Qed.

Lemma basic_updatePlayer_camera (worldOctree : Octree) (deltaTime : R) s :
  cam_position (Basic.camera (Basic.updatePlayer worldOctree deltaTime s))
  = end_ (Basic.playerCollider (Basic.updatePlayer worldOctree deltaTime s)).
Proof.
  unfold Basic.updatePlayer.
  destruct (Basic.playerOnFloor s); reflexivity.
Qed.

Lemma basic_substep_collider (keyStates : KeyStates) (worldOctree : Octree)
  (deltaTime : R) c :
  let r := Basic.scene (Basic.substep keyStates worldOctree deltaTime c) in
  cam_position (Basic.camera r) = end_ (Basic.playerCollider r)
  /\ (Basic.playerCollider r
      = mkCapsule (mkVector3 0 0.35 0) (mkVector3 0 1 0) 0.35
      \/ (- 25 < y (end_ (Basic.playerCollider r))
          /\ capsuleShape (Basic.playerCollider r)
             = capsuleShape (Basic.playerCollider (Basic.scene c)))).
Proof.
  cbv zeta. unfold Basic.substep, Basic.updateSpheres. cbn [Basic.scene].
  set (u := Basic.updatePlayer worldOctree deltaTime
              (Basic.scene (Basic.controls keyStates deltaTime c))).
  pose proof (basic_updatePlayer_camera worldOctree deltaTime
                (Basic.scene (Basic.controls keyStates deltaTime c))) as Hcam.
  fold u in Hcam.
  unfold Basic.teleportPlayerIfOob, Rleb.
  destruct (Rle_dec (y (cam_position (Basic.camera u))) (-25)) as [Hle | Hgt].
  - split; [reflexivity | left; reflexivity].
  - split; [exact Hcam |]. right. rewrite <- Hcam. split; [lra |].
    unfold u. rewrite basic_updatePlayer_shape.
    destruct (basic_controls_rest keyStates deltaTime c) as (-> & _).
    reflexivity.
Qed.

(** X6.  The capsule never changes shape: [updatePhysics],
    [checkCollisions], [playerCollisions] and the basic scene's
    [updatePlayer] keep the vector from its start to its end and its
    radius, for every world and every [dt].  Hence a collider that has
    the scene's spawn shape (segment (0,1.8,0), radius 0.35 in the two
    controller scenes; segment (0,0.65,0), radius 0.35 in the basic
    scene) still has it after every rendered frame, resets included. *)
Theorem X6_capsule_keeps_its_shape :
  forall (worldOctree : Octree) (keyStates : KeyStates)
         (deltaTime gravity clockDelta : R)
         (s : CharacterDriven.Scene) (pc : CameraDriven.PlayerCamera)
         (c : Basic.Closure),
    capsuleShape
      (CharacterDriven.playerCollider (CharacterDriven.playerModel s))
    = (mkVector3 0 1.8 0, 0.35) ->
    capsuleShape (CameraDriven.playerCollider (CameraDriven.playerModel pc))
    = (mkVector3 0 1.8 0, 0.35) ->
    capsuleShape (Basic.playerCollider (Basic.scene c))
    = (mkVector3 0 0.65 0, 0.35) ->
    (capsuleShape
       (CharacterDriven.playerCollider
          (CharacterDriven.checkCollisions worldOctree
             (CharacterDriven.updatePhysics deltaTime gravity
                (CharacterDriven.playerModel s))))
     = (mkVector3 0 1.8 0, 0.35)
     /\ capsuleShape
          (CameraDriven.playerCollider
             (CameraDriven.checkCollisions worldOctree
                (CameraDriven.updatePhysics deltaTime gravity
                   (CameraDriven.playerModel pc))))
        = (mkVector3 0 1.8 0, 0.35)
     /\ capsuleShape
          (Basic.playerCollider
             (Basic.updatePlayer worldOctree deltaTime (Basic.scene c)))
        = (mkVector3 0 0.65 0, 0.35))
    /\ capsuleShape
         (CharacterDriven.playerCollider
            (CharacterDriven.playerModel
               (CharacterDriven.render clockDelta keyStates worldOctree s)))
       = (mkVector3 0 1.8 0, 0.35)
    /\ capsuleShape
         (CameraDriven.playerCollider
            (CameraDriven.playerModel
               (CameraDriven.render clockDelta keyStates worldOctree pc)))
       = (mkVector3 0 1.8 0, 0.35)
    /\ capsuleShape
         (Basic.playerCollider
            (Basic.scene
               (Basic.animate clockDelta keyStates worldOctree c)))
       = (mkVector3 0 0.65 0, 0.35).
Proof.
  intros worldOctree keyStates deltaTime gravity clockDelta s pc c Hs Hpc Hc.
  assert (Hspawn : capsuleShape
                     (mkCapsule (mkVector3 0 0 0) (mkVector3 0 1.8 0) 0.35)
                   = (mkVector3 0 1.8 0, 0.35)).
  { unfold capsuleShape, sub. cbn. f_equal. vec. }
  assert (Hspawn' : capsuleShape
                      (mkCapsule (mkVector3 0 0.35 0) (mkVector3 0 1 0) 0.35)
                    = (mkVector3 0 0.65 0, 0.35)).
  { unfold capsuleShape, sub. cbn. f_equal. vec. }
  split.
  { rewrite cd_checkCollisions_shape, cd_updatePhysics_shape,
      cam_checkCollisions_shape, cam_updatePhysics_shape,
      basic_updatePlayer_shape. auto. }
  split.
  { unfold CharacterDriven.render. cbv zeta.
    apply (forLoop_invariant
             (fun s => capsuleShape
                         (CharacterDriven.playerCollider
                            (CharacterDriven.playerModel s))
                       = (mkVector3 0 1.8 0, 0.35))); [| exact Hs].
    intros s0 H0.
    destruct (cd_substep_collider worldOctree keyStates
                (Rmin 0.05 clockDelta / INR CharacterDriven.STEPS_PER_FRAME)
                s0) as [H | [_ H]]; rewrite H; assumption. }
  split.
  { unfold CameraDriven.render. cbv zeta.
    apply (forLoop_invariant
             (fun pc => capsuleShape
                          (CameraDriven.playerCollider
                             (CameraDriven.playerModel pc))
                        = (mkVector3 0 1.8 0, 0.35))); [| exact Hpc].
    intros pc0 H0.
    destruct (cam_substep_collider worldOctree keyStates
                (Rmin 0.05 clockDelta / INR CameraDriven.STEPS_PER_FRAME)
                pc0) as [H | [_ H]]; rewrite H; assumption. }
  unfold Basic.animate. cbv zeta.
  apply (forLoop_invariant
           (fun c => capsuleShape (Basic.playerCollider (Basic.scene c))
                     = (mkVector3 0 0.65 0, 0.35))); [| exact Hc].
  intros c0 H0.
  destruct (basic_substep_collider keyStates worldOctree
              (Rmin 0.05 clockDelta / INR Basic.STEPS_PER_FRAME) c0)
    as (_ & [H | [_ H]]); rewrite H; assumption.
Qed.

Lemma X6_witness :
  capsuleShape
    (CharacterDriven.playerCollider
       (CharacterDriven.playerModel
          (CharacterDriven.render 0.016 Samples.forwardHeld Samples.flatFloor
             Samples.characterStart)))
  = (mkVector3 0 1.8 0, 0.35).
Proof.
  apply (X6_capsule_keeps_its_shape Samples.flatFloor Samples.forwardHeld
           0.01 30 0.016
           Samples.characterStart Samples.cameraStart Samples.basicStart).
  - unfold capsuleShape, sub. cbn. f_equal. vec.
  - unfold capsuleShape, sub. cbn. f_equal. vec.
  - unfold capsuleShape, sub. cbn. f_equal. vec.
Defined.

(** ** Out of bounds *)

(** X7.  After every rendered frame the player is in bounds: in the
    two controller scenes the collider position (the capsule's end
    point) is strictly above -25; in the basic scene the camera sits on
    the capsule's end point and is strictly above -25.  This holds for
    every world, key state, frame time and earlier state. *)
Theorem X7_player_is_in_bounds_after_every_frame :
  forall (worldOctree : Octree) (keyStates : KeyStates) (clockDelta : R)
         (s : CharacterDriven.Scene) (pc : CameraDriven.PlayerCamera)
         (c : Basic.Closure),
    - 25 < y (CharacterDriven.getColliderPosition
                (CharacterDriven.playerModel
                   (CharacterDriven.render clockDelta keyStates
                      worldOctree s)))
    /\ - 25 < y (CameraDriven.getColliderPosition
                   (CameraDriven.playerModel
                      (CameraDriven.render clockDelta keyStates
                         worldOctree pc)))
    /\ (let r := Basic.scene
                   (Basic.animate clockDelta keyStates worldOctree c) in
        cam_position (Basic.camera r) = end_ (Basic.playerCollider r)
        /\ - 25 < y (cam_position (Basic.camera r))).
Proof.
  intros worldOctree keyStates clockDelta s pc c.
  split; [| split].
  - unfold CharacterDriven.render, CharacterDriven.getColliderPosition.
    cbv zeta.
    apply (forLoop_last
             (fun s => - 25 < y (end_ (CharacterDriven.playerCollider
                                        (CharacterDriven.playerModel s))))).
    intros s0.
    destruct (cd_substep_collider worldOctree keyStates
                (Rmin 0.05 clockDelta / INR CharacterDriven.STEPS_PER_FRAME)
                s0) as [H | [H _]].
    + rewrite H. cbn. lra.
    + exact H.
  - unfold CameraDriven.render, CameraDriven.getColliderPosition.
    cbv zeta.
    apply (forLoop_last
             (fun pc => - 25 < y (end_ (CameraDriven.playerCollider
                                         (CameraDriven.playerModel pc))))).
    intros pc0.
    destruct (cam_substep_collider worldOctree keyStates
                (Rmin 0.05 clockDelta / INR CameraDriven.STEPS_PER_FRAME)
                pc0) as [H | [H _]].
    + rewrite H. cbn. lra.
    + exact H.
  - unfold Basic.animate. cbv zeta.
    apply (forLoop_last
             (fun c =>
                cam_position (Basic.camera (Basic.scene c))
                = end_ (Basic.playerCollider (Basic.scene c))
                /\ - 25 < y (cam_position (Basic.camera (Basic.scene c))))).
    intros c0.
    destruct (basic_substep_collider keyStates worldOctree
                (Rmin 0.05 clockDelta / INR Basic.STEPS_PER_FRAME) c0)
      as (Hcam & [H | [H _]]).
    + split; [exact Hcam |]. rewrite Hcam, H. cbn. lra.
    + split; [exact Hcam |]. rewrite Hcam. exact H.
Qed.

(** ** Frame timing *)

Lemma substep_time_bounds (clockDelta : R) :
  0 <= clockDelta ->
  let dt := Rmin 0.05 clockDelta / INR 5 in
  0 <= dt <= 0.01 /\ 5 * dt = Rmin 0.05 clockDelta
  /\ (0 < clockDelta -> 0 < dt).
Proof.
  intros H. cbv zeta.
  replace (INR 5) with 5 by (simpl; lra).
  unfold Rmin. destruct (Rle_dec 0.05 clockDelta); repeat split; lra.
Qed.

(** X8.  One call of [render] (of [animate] in the basic scene) that
    reads a frame time [delta >= 0] from the clock runs the substep
    five times with the same [dt]; [dt] is between 0 and 0.01 seconds,
    five times [dt] is [min(0.05, delta)], and [dt] is positive when
    [delta] is. *)
Theorem X8_frame_is_five_substeps_of_at_most_10ms :
  forall (clockDelta : R) (keyStates : KeyStates) (worldOctree : Octree)
         (s : CharacterDriven.Scene) (pc : CameraDriven.PlayerCamera)
         (c : Basic.Closure),
    0 <= clockDelta ->
    exists dt : R,
      0 <= dt <= 0.01
      /\ 5 * dt = Rmin 0.05 clockDelta
      /\ (0 < clockDelta -> 0 < dt)
      /\ (let step := CharacterDriven.substep keyStates worldOctree dt in
          CharacterDriven.render clockDelta keyStates worldOctree s
          = step (step (step (step (step s)))))
      /\ (let step := CameraDriven.substep keyStates worldOctree dt in
          CameraDriven.render clockDelta keyStates worldOctree pc
          = step (step (step (step (step pc)))))
      /\ (let step := Basic.substep keyStates worldOctree dt in
          Basic.animate clockDelta keyStates worldOctree c
          = step (step (step (step (step c))))).
Proof.
  intros clockDelta keyStates worldOctree s pc c H.
  exists (Rmin 0.05 clockDelta / INR 5).
  destruct (substep_time_bounds clockDelta H) as (Hb & Hsum & Hpos).
  repeat split; try apply Hb; try exact Hsum; try exact Hpos.
Qed.

Lemma X8_witness :
  exists dt : R,
    0 <= dt <= 0.01
    /\ 5 * dt = Rmin 0.05 0.2
    /\ CharacterDriven.render 0.2 Samples.noKeys Samples.flatFloor
         Samples.characterStart
       = CharacterDriven.substep Samples.noKeys Samples.flatFloor dt
           (CharacterDriven.substep Samples.noKeys Samples.flatFloor dt
              (CharacterDriven.substep Samples.noKeys Samples.flatFloor dt
                 (CharacterDriven.substep Samples.noKeys Samples.flatFloor dt
                    (CharacterDriven.substep Samples.noKeys
                       Samples.flatFloor dt Samples.characterStart)))).
Proof.
  destruct (X8_frame_is_five_substeps_of_at_most_10ms 0.2 Samples.noKeys
              Samples.flatFloor Samples.characterStart Samples.cameraStart
              Samples.basicStart ltac:(lra))
    as (dt & Hb & Hsum & _ & Hcd & _).
  exists dt. repeat split; try apply Hb; assumption.
Defined.

(** ** Damping over several steps *)

Lemma multiplyScalar_assoc (v : Vector3) (a b : R) :
  multiplyScalar (multiplyScalar v a) b = multiplyScalar v (a * b).
Proof. unfold multiplyScalar. vec. Qed.

Lemma multiplyScalar_1 (v : Vector3) : multiplyScalar v 1 = v.
Proof. destruct v as [a b c]. unfold multiplyScalar. vec. Qed.

Lemma add_scaled_0 (v w : Vector3) : add v (multiplyScalar w 0) = v.
Proof. destruct v as [a b c]. unfold add, multiplyScalar. vec. Qed.

Lemma translate_0 (c : Capsule) (w : Vector3) :
  translate c (multiplyScalar w 0) = c.
Proof.
  destruct c as [s e r]. unfold translate. cbn.
  rewrite !add_scaled_0. reflexivity.
Qed.

Lemma exp_decay_0 (k : R) : exp (- k * 0) = 1.
Proof. rewrite Rmult_0_r. apply exp_0. Qed.

(** X9.  A substep of length zero changes nothing: for every gravity,
    [updatePhysics 0] returns the camera-driven player model unchanged
    and leaves velocity, collider and floor flag of the
    character-driven one as they were. *)
Theorem X9_zero_length_step_changes_nothing :
  forall (gravity : R)
         (pm : CharacterDriven.PlayerModel) (pm' : CameraDriven.PlayerModel),
    physCharacter (CharacterDriven.updatePhysics 0 gravity pm)
    = physCharacter pm
    /\ CameraDriven.updatePhysics 0 gravity pm' = pm'.
Proof.
  intros gravity pm pm'. split.
  - unfold physCharacter.
    rewrite cd_updatePhysics_collider, cd_updatePhysics_velocity,
      (proj1 (proj2 (cd_updatePhysics_rest 0 gravity pm))).
    rewrite translate_0.
    unfold preDamping, dampingMultiplier. rewrite exp_decay_0.
    destruct (CharacterDriven.playerOnFloor pm).
    + rewrite multiplyScalar_1. reflexivity.
    + f_equal. f_equal.
      destruct (CharacterDriven.playerVelocity pm) as [a b c].
      unfold multiplyScalar, setY. vec.
  - unfold CameraDriven.updatePhysics.
    destruct pm' as [pl col v fl gs asp jf df]. cbn -[exp].
    rewrite exp_decay_0.
    destruct fl; cbn; unfold CameraDriven.translate,
      CameraDriven.set_playerCollider, CameraDriven.set_playerVelocity;
      cbn; f_equal;
      try (destruct col as [s e r]; unfold translate; cbn; f_equal;
           destruct s, e, v; unfold add, multiplyScalar, addScaledVector;
           vec);
      destruct v; unfold addScaledVector, setY; vec.
Qed.

Lemma cam_floor_steps (n : nat) (deltaTime gravity : R) :
  forall pm,
    CameraDriven.playerOnFloor pm = true ->
    CameraDriven.playerVelocity
      (forLoop n (CameraDriven.updatePhysics deltaTime gravity) pm)
    = multiplyScalar (CameraDriven.playerVelocity pm)
        (exp (- CameraDriven.dampingFactor pm * (INR n * deltaTime))).
Proof.
  induction n as [| n IH]; intros pm Hfloor.
  - cbn [forLoop INR]. rewrite Rmult_0_l, exp_decay_0.
    symmetry. apply multiplyScalar_1.
  - cbn [forLoop].
    destruct (cam_updatePhysics_frame deltaTime gravity pm)
      as (Hfl & _ & Hk).
    rewrite IH by (rewrite Hfl; exact Hfloor).
    rewrite Hk, cam_updatePhysics_velocity, Hfloor.
    unfold preDamping, dampingMultiplier.
    rewrite multiplyScalar_assoc, <- exp_plus, S_INR.
    f_equal. f_equal. ring.
Qed.

Lemma cd_floor_steps (n : nat) (deltaTime gravity : R) :
  forall pm,
    CharacterDriven.playerOnFloor pm = true ->
    CharacterDriven.playerVelocity
      (forLoop n (CharacterDriven.updatePhysics deltaTime gravity) pm)
    = multiplyScalar (CharacterDriven.playerVelocity pm)
        (exp (- CharacterDriven.dampingFactor pm * (INR n * deltaTime))).
Proof.
  induction n as [| n IH]; intros pm Hfloor.
  - cbn [forLoop INR]. rewrite Rmult_0_l, exp_decay_0.
    symmetry. apply multiplyScalar_1.
  - cbn [forLoop].
    destruct (cd_updatePhysics_rest deltaTime gravity pm)
      as (_ & Hfl & _ & _ & _ & Hk & _).
    rewrite IH by (rewrite Hfl; exact Hfloor).
    rewrite Hk, cd_updatePhysics_velocity, Hfloor.
    unfold preDamping, dampingMultiplier.
    rewrite multiplyScalar_assoc, <- exp_plus, S_INR.
    f_equal. f_equal. ring.
Qed.

(** X10.  On the floor the damping does not depend on how time is cut
    into steps: [n] calls of [updatePhysics] with [dt] leave the
    velocity at [v * exp(-dampingFactor * n * dt)], which is the
    velocity that one call with [n * dt] leaves.  Both player models,
    every gravity, every [n] and [dt]. *)
Theorem X10_floor_damping_is_independent_of_step_size :
  forall (n : nat) (deltaTime gravity : R)
         (pm : CharacterDriven.PlayerModel) (pm' : CameraDriven.PlayerModel),
    CharacterDriven.playerOnFloor pm = true ->
    CameraDriven.playerOnFloor pm' = true ->
    (CharacterDriven.playerVelocity
       (forLoop n (CharacterDriven.updatePhysics deltaTime gravity) pm)
     = multiplyScalar (CharacterDriven.playerVelocity pm)
         (exp (- CharacterDriven.dampingFactor pm * (INR n * deltaTime)))
     /\ CharacterDriven.playerVelocity
          (forLoop n (CharacterDriven.updatePhysics deltaTime gravity) pm)
        = CharacterDriven.playerVelocity
            (CharacterDriven.updatePhysics (INR n * deltaTime) gravity pm))
    /\
    (CameraDriven.playerVelocity
       (forLoop n (CameraDriven.updatePhysics deltaTime gravity) pm')
     = multiplyScalar (CameraDriven.playerVelocity pm')
         (exp (- CameraDriven.dampingFactor pm' * (INR n * deltaTime)))
     /\ CameraDriven.playerVelocity
          (forLoop n (CameraDriven.updatePhysics deltaTime gravity) pm')
        = CameraDriven.playerVelocity
            (CameraDriven.updatePhysics (INR n * deltaTime) gravity pm')).
Proof.
  intros n deltaTime gravity pm pm' Hfloor Hfloor'.
  rewrite cd_floor_steps, cam_floor_steps by assumption.
  rewrite cd_updatePhysics_velocity, cam_updatePhysics_velocity,
    Hfloor, Hfloor'.
  unfold preDamping, dampingMultiplier. auto.
Qed.

Lemma X10_witness :
  CameraDriven.playerVelocity
    (forLoop 5 (CameraDriven.updatePhysics 0.01 30)
       (CameraDriven.set_playerVelocity (mkVector3 3 0 4)
          (CameraDriven.set_playerOnFloor true CameraDriven.newPlayerModel)))
  = CameraDriven.playerVelocity
      (CameraDriven.updatePhysics (INR 5 * 0.01) 30
         (CameraDriven.set_playerVelocity (mkVector3 3 0 4)
            (CameraDriven.set_playerOnFloor true
               CameraDriven.newPlayerModel))).
Proof.
  apply (X10_floor_damping_is_independent_of_step_size 5 0.01 30
           (CharacterDriven.set_playerOnFloor true
              CharacterDriven.newPlayerModel)
           (CameraDriven.set_playerVelocity (mkVector3 3 0 4)
              (CameraDriven.set_playerOnFloor true
                 CameraDriven.newPlayerModel))).
  - reflexivity.
  - reflexivity.
Defined.

(** X11.  Off the floor the damping does depend on the step size: for a
    positive damping factor and [dt > 0], an airborne player with a
    horizontal velocity component [c <> 0] has, after two calls of
    [updatePhysics] with [dt], the component [c * (0.9 + 0.1*u)^2], and
    after one call with [2 * dt] the component [c * (0.9 + 0.1*u^2)],
    where [u = exp(-dampingFactor * dt)]; the two differ. *)
Theorem X11_airborne_damping_depends_on_step_size :
  forall (deltaTime gravity : R) (pm : CameraDriven.PlayerModel),
    CameraDriven.playerOnFloor pm = false ->
    0 < CameraDriven.dampingFactor pm ->
    0 < deltaTime ->
    x (CameraDriven.playerVelocity pm) <> 0 ->
    let u := exp (- CameraDriven.dampingFactor pm * deltaTime) in
    let c := x (CameraDriven.playerVelocity pm) in
    let twice :=
      x (CameraDriven.playerVelocity
           (CameraDriven.updatePhysics deltaTime gravity
              (CameraDriven.updatePhysics deltaTime gravity pm))) in
    let once :=
      x (CameraDriven.playerVelocity
           (CameraDriven.updatePhysics (2 * deltaTime) gravity pm)) in
    twice = c * ((0.9 + 0.1 * u) * (0.9 + 0.1 * u))
    /\ once = c * (0.9 + 0.1 * (u * u))
    /\ twice <> once.
Proof.
  intros deltaTime gravity pm Hair Hk Hdt Hc u c twice once.
  destruct (cam_updatePhysics_frame deltaTime gravity pm) as (Hfl & _ & Hk').
  assert (Htwice : twice = c * ((0.9 + 0.1 * u) * (0.9 + 0.1 * u))).
  { unfold twice. rewrite cam_updatePhysics_velocity, Hfl, Hk', Hair.
    rewrite cam_updatePhysics_velocity, Hair.
    unfold preDamping, dampingMultiplier, multiplyScalar, setY.
    cbn -[exp]. fold u. fold c. clearbody u c. lra. }
  assert (Honce : once = c * (0.9 + 0.1 * (u * u))).
  { unfold once. rewrite cam_updatePhysics_velocity, Hair.
    unfold preDamping, dampingMultiplier, multiplyScalar, setY.
    cbn -[exp]. fold c.
    replace (- CameraDriven.dampingFactor pm * (2 * deltaTime))
      with (- CameraDriven.dampingFactor pm * deltaTime
            + - CameraDriven.dampingFactor pm * deltaTime) by ring.
    rewrite exp_plus. fold u. clearbody u c. lra. }
  split; [exact Htwice |]. split; [exact Honce |].
  rewrite Htwice, Honce. intros Heq.
  pose proof (exp_decay_bounds _ _ Hk Hdt) as Hu. fold u in Hu.
  assert (Hz : c * ((1 - u) * (1 - u)) = 0) by lra.
  apply Rmult_integral in Hz. destruct Hz as [Hz | Hz]; [contradiction |].
  apply Rmult_integral in Hz. lra.
Qed.

Lemma X11_witness :
  x (CameraDriven.playerVelocity
       (CameraDriven.updatePhysics 0.01 30
          (CameraDriven.updatePhysics 0.01 30
             (CameraDriven.set_playerVelocity (mkVector3 3 0 4)
                CameraDriven.newPlayerModel))))
  <> x (CameraDriven.playerVelocity
          (CameraDriven.updatePhysics (2 * 0.01) 30
             (CameraDriven.set_playerVelocity (mkVector3 3 0 4)
                CameraDriven.newPlayerModel))).
Proof.
  apply (X11_airborne_damping_depends_on_step_size 0.01 30
           (CameraDriven.set_playerVelocity (mkVector3 3 0 4)
              CameraDriven.newPlayerModel)).
  - reflexivity.
  - cbn. lra.
  - lra.
  - cbn. lra.
Defined.

(** ** Where the mesh is drawn *)

Lemma cd_updatePhysics_player (deltaTime gravity : R) pm :
  let r := CharacterDriven.updatePhysics deltaTime gravity pm in
  CharacterDriven.player r
  = match CharacterDriven.player pm with
    | Some _ =>
        Some (mkObject3D (start (CharacterDriven.playerCollider r))
                (atan2 (x (CharacterDriven.playerDirection pm))
                       (z (CharacterDriven.playerDirection pm))))
    | None => None
    end.
Proof.
  unfold CharacterDriven.updatePhysics, CharacterDriven.updateModelTransform,
    CharacterDriven.updateDebugCapsule.
  destruct pm as [pl col v fl dbg sh gs asp jf df dir ms].
  destruct pl, dbg, sh, fl; reflexivity.
Qed.

Lemma cd_checkCollisions_start (worldOctree : Octree) pm :
  start (CharacterDriven.playerCollider
           (CharacterDriven.checkCollisions worldOctree pm))
  = match worldOctree (CharacterDriven.playerCollider pm) with
    | Some c =>
        if Rgeb (depth c) 1e-10
        then add (start (CharacterDriven.playerCollider pm))
                 (multiplyScalar (normal c) (depth c))
        else start (CharacterDriven.playerCollider pm)
    | None => start (CharacterDriven.playerCollider pm)
    end.
Proof.
  unfold CharacterDriven.checkCollisions, capsuleIntersect.
  destruct (worldOctree (CharacterDriven.playerCollider pm)) as [[n d] |];
    cbn; [| reflexivity].
  destruct (Rgtb (y n) 0), (Rgeb d (1 / 10000000000)); reflexivity.
Qed.

(** X12.  In the character-driven scene the mesh is placed by
    [updatePhysics], before [checkCollisions] runs.  After
    [updatePlayer] a loaded mesh therefore stands at the start point the
    capsule had after integration, with yaw [atan2(d.x, d.z)] of the
    facing direction [d]; when the collision query pushes the capsule
    out (a contact with depth at least 1e-10), the capsule's start point
    is ahead of the mesh by exactly [normal * depth] until the next
    substep.  A mesh that is not loaded stays absent. *)
Theorem X12_mesh_is_placed_before_collision_push_out :
  forall (worldOctree : Octree) (deltaTime : R) (s : CharacterDriven.Scene),
    let pm := CharacterDriven.playerModel s in
    let mid :=
      CharacterDriven.updatePhysics deltaTime CharacterDriven.GRAVITY pm in
    let r := CharacterDriven.playerModel
               (CharacterDriven.updatePlayer worldOctree deltaTime s) in
    match CharacterDriven.player pm with
    | None => CharacterDriven.player r = None
    | Some _ =>
        exists o,
          CharacterDriven.player r = Some o
          /\ position o = start (CharacterDriven.playerCollider mid)
          /\ rotation_y o
             = atan2 (x (CharacterDriven.playerDirection pm))
                     (z (CharacterDriven.playerDirection pm))
          /\ start (CharacterDriven.playerCollider r)
             = match worldOctree (CharacterDriven.playerCollider mid) with
               | Some c =>
                   if Rgeb (depth c) 1e-10
                   then add (position o)
                            (multiplyScalar (normal c) (depth c))
                   else position o
               | None => position o
               end
    end.
Proof.
  intros worldOctree deltaTime s pm mid r.
  assert (Hpl : CharacterDriven.player r = CharacterDriven.player mid).
  { unfold r, CharacterDriven.updatePlayer. cbn.
    apply cd_checkCollisions_rest. }
  assert (Hst : start (CharacterDriven.playerCollider r)
                = match worldOctree (CharacterDriven.playerCollider mid) with
                  | Some c =>
                      if Rgeb (depth c) 1e-10
                      then add (start (CharacterDriven.playerCollider mid))
                               (multiplyScalar (normal c) (depth c))
                      else start (CharacterDriven.playerCollider mid)
                  | None => start (CharacterDriven.playerCollider mid)
                  end).
  { unfold r, CharacterDriven.updatePlayer. cbn.
    apply cd_checkCollisions_start. }
  pose proof (cd_updatePhysics_player deltaTime CharacterDriven.GRAVITY pm)
    as Hmid.
  cbv zeta in Hmid. fold mid in Hmid.
  destruct (CharacterDriven.player pm) as [o0 |].
  - eexists. rewrite Hpl, Hmid. split; [reflexivity |].
    cbn [position rotation_y]. repeat split. exact Hst.
  - rewrite Hpl. exact Hmid.
Qed.

(** ** Mouse look of the camera-driven scene *)

Lemma clamp_bounds (lo hi t : R) :
  lo <= hi -> lo <= Rmax lo (Rmin hi t) <= hi.
Proof.
  intros H. unfold Rmax, Rmin.
  destruct (Rle_dec hi t); destruct (Rle_dec lo _); lra.
Qed.

Lemma clamp_inside (lo hi t : R) :
  lo <= t <= hi -> Rmax lo (Rmin hi t) = t.
Proof.
  intros H. unfold Rmax, Rmin.
  destruct (Rle_dec hi t); destruct (Rle_dec lo _); lra.
Qed.

(** X13.  [handleMouseMove] of the camera-driven scene, pointer locked:
    the yaw decreases by [movementX / mouseSensitivity]; the pitch
    decreases by [movementY / mouseSensitivity] and is then clamped, so
    that it always ends in [-PI/2, PI/2] and is the unclamped value
    when that lies in the interval; roll, camera position, player model
    and movement state are not touched.  With the pointer not locked
    the call changes nothing. *)
Theorem X13_mouse_look_clamps_pitch :
  forall (movementX movementY : R) (pc : CameraDriven.PlayerCamera),
    let r := CameraDriven.handleMouseMove true movementX movementY pc in
    let rot := cam_rotation (CameraDriven.camera pc) in
    let rot' := cam_rotation (CameraDriven.camera r) in
    let pitch := ex rot - movementY / CameraDriven.mouseSensitivity pc in
    - PI / 2 <= ex rot' <= PI / 2
    /\ (- PI / 2 <= pitch <= PI / 2 -> ex rot' = pitch)
    /\ ey rot' = ey rot - movementX / CameraDriven.mouseSensitivity pc
    /\ ez rot' = ez rot
    /\ cam_position (CameraDriven.camera r)
       = cam_position (CameraDriven.camera pc)
    /\ CameraDriven.playerModel r = CameraDriven.playerModel pc
    /\ CameraDriven.moveState r = CameraDriven.moveState pc
    /\ CameraDriven.handleMouseMove false movementX movementY pc = pc.
Proof.
  intros movementX movementY pc. cbv zeta.
  unfold CameraDriven.handleMouseMove. cbn.
  pose proof PI_RGT_0 as Hpi.
  split; [apply clamp_bounds; lra |].
  split; [intros H; apply clamp_inside; exact H |].
  repeat split.
Qed.

Lemma X13_witness :
  ex (cam_rotation
        (CameraDriven.camera
           (CameraDriven.handleMouseMove true 10 0 Samples.cameraStart)))
  = 0 - 0 / 500.
Proof.
  apply (X13_mouse_look_clamps_pitch 10 0 Samples.cameraStart).
  cbn. pose proof PI_RGT_0. lra.
Defined.

(** ** The horizontal direction of the camera *)

Lemma getWorldDirection_closed (c : Camera) :
  getWorldDirection c
  = mkVector3 (- (cos (ex (cam_rotation c)) * sin (ey (cam_rotation c))))
              (sin (ex (cam_rotation c)))
              (- (cos (ex (cam_rotation c)) * cos (ey (cam_rotation c)))).
Proof.
  unfold getWorldDirection. cbv zeta. unfold set.
  rewrite Ropp_involutive.
  apply normalize_unit. unfold length. cbn -[cos sin].
  set (a := cos (ex (cam_rotation c))).
  set (b := sin (ex (cam_rotation c))).
  set (c' := cos (ey (cam_rotation c))).
  set (d := sin (ey (cam_rotation c))).
  assert (H1 : b * b + a * a = 1)
    by (pose proof (sin2_cos2 (ex (cam_rotation c))) as H;
        unfold Rsqr in H; exact H).
  assert (H2 : d * d + c' * c' = 1)
    by (pose proof (sin2_cos2 (ey (cam_rotation c))) as H;
        unfold Rsqr in H; exact H).
  clearbody a b c' d.
  replace (- (a * d) * - (a * d) + b * b + - (a * c') * - (a * c'))
    with (a * a * (d * d + c' * c') + b * b) by ring.
  rewrite H2. replace (a * a * 1 + b * b) with 1 by lra. apply sqrt_1.
Qed.

Lemma getCameraDirection_closed (pc : CameraDriven.PlayerCamera) :
  0 < cos (ex (cam_rotation (CameraDriven.camera pc))) ->
  CameraDriven.getCameraDirection pc
  = mkVector3 (- sin (ey (cam_rotation (CameraDriven.camera pc)))) 0
              (- cos (ey (cam_rotation (CameraDriven.camera pc)))).
Proof.
  intros Ha. unfold CameraDriven.getCameraDirection. cbv zeta.
  rewrite getWorldDirection_closed. unfold setY. cbn -[cos sin].
  set (a := cos (ex (cam_rotation (CameraDriven.camera pc)))) in *.
  set (c' := cos (ey (cam_rotation (CameraDriven.camera pc)))).
  set (d := sin (ey (cam_rotation (CameraDriven.camera pc)))).
  assert (H2 : d * d + c' * c' = 1)
    by (pose proof (sin2_cos2 (ey (cam_rotation (CameraDriven.camera pc))))
          as H; unfold Rsqr in H; exact H).
  clearbody a c' d.
  assert (Hlen : length (mkVector3 (- (a * d)) 0 (- (a * c'))) = a).
  { unfold length. cbn.
    replace (- (a * d) * - (a * d) + 0 * 0 + - (a * c') * - (a * c'))
      with (a * a * (d * d + c' * c')) by ring.
    rewrite H2, Rmult_1_r. apply sqrt_square. lra. }
  unfold normalize, normalizeDivisor, divideScalar. rewrite Hlen.
  destruct (Req_dec_T a 0) as [E | _]; [lra |].
  unfold multiplyScalar. cbn. apply Vector3_eq; field; lra.
Qed.

(** X14.  While the camera does not look straight up or down (the
    cosine of its pitch is positive, as it is for every pitch strictly
    between -PI/2 and PI/2), [getCameraDirection] depends on the yaw
    alone: it is the unit horizontal vector [(-sin yaw, 0, -cos yaw)],
    whatever the pitch, the roll and the position of the camera. *)
Theorem X14_camera_direction_depends_on_yaw_only :
  forall (pc : CameraDriven.PlayerCamera),
    let rot := cam_rotation (CameraDriven.camera pc) in
    0 < cos (ex rot) ->
    CameraDriven.getCameraDirection pc
    = mkVector3 (- sin (ey rot)) 0 (- cos (ey rot))
    /\ length (CameraDriven.getCameraDirection pc) = 1
    /\ (- PI / 2 < ex rot < PI / 2 -> 0 < cos (ex rot)).
Proof.
  intros pc rot Ha.
  rewrite (getCameraDirection_closed pc Ha). fold rot.
  split; [reflexivity |]. split.
  - unfold length. cbn -[cos sin].
    replace (- sin (ey rot) * - sin (ey rot) + 0 * 0
             + - cos (ey rot) * - cos (ey rot))
      with (Rsqr (sin (ey rot)) + Rsqr (cos (ey rot)))
      by (unfold Rsqr; ring).
    rewrite sin2_cos2. apply sqrt_1.
  - intros [Hlo Hhi]. apply cos_gt_0; lra.
Qed.

Lemma cos_0_pos : 0 < cos 0.
Proof. rewrite cos_0. lra. Qed.

Lemma X14_witness :
  CameraDriven.getCameraDirection Samples.cameraStart
  = mkVector3 (- sin 0) 0 (- cos 0).
Proof.
  apply (X14_camera_direction_depends_on_yaw_only Samples.cameraStart).
  exact cos_0_pos.
Defined.

(** ** Camera-driven movement, in full *)

Lemma normalize_flat_facing (F : Vector3) :
  facing F -> normalize (setY 0 F) = F.
Proof.
  intros [Hu Hy]. rewrite (setY_flat F Hy). apply normalize_unit, Hu.
Qed.

Lemma cross_up (F : Vector3) :
  cross F (mkVector3 0 1 0) = mkVector3 (- z F) 0 (x F).
Proof. unfold cross. cbn. apply Vector3_eq; ring. Qed.

Lemma cam_processMovement_steps (keyStates : KeyStates) (deltaTime : R) pc :
  CameraDriven.processMovement keyStates deltaTime pc
  = let pc0 := CameraDriven.updateMovementState keyStates pc in
    let dir := CameraDriven.getCameraDirection pc0 in
    let upv := up (CameraDriven.camera pc0) in
    let pc1 :=
      camStep (forward (CameraDriven.moveState pc0))
        (CameraDriven.executeForwardMovement deltaTime dir) pc0 in
    let pc2 :=
      camStep (backward (CameraDriven.moveState pc1))
        (CameraDriven.executeBackwardMovement deltaTime dir) pc1 in
    let pc3 :=
      camStep (left (CameraDriven.moveState pc2))
        (CameraDriven.executeLeftMovement deltaTime dir upv) pc2 in
    let pc4 :=
      camStep (right (CameraDriven.moveState pc3))
        (CameraDriven.executeRightMovement deltaTime dir upv) pc3 in
    if jump (CameraDriven.moveState pc4) then
      CameraDriven.set_moveState
        (mkMoveState (forward (CameraDriven.moveState pc4))
           (backward (CameraDriven.moveState pc4))
           (left (CameraDriven.moveState pc4))
           (right (CameraDriven.moveState pc4)) false)
        (CameraDriven.set_playerModel
           (CameraDriven.executeJump (CameraDriven.playerModel pc4)) pc4)
    else pc4.
Proof. reflexivity. Qed.

Lemma cam_set_playerVelocity_same pm :
  CameraDriven.set_playerVelocity (CameraDriven.playerVelocity pm) pm = pm.
Proof. destruct pm. reflexivity. Qed.

Lemma camStep_spec (flag : bool) (G : Vector3) (c : R) command q pm0 w :
  (forall w',
      command (CameraDriven.set_playerVelocity w' pm0)
      = CameraDriven.set_playerVelocity (add w' (multiplyScalar G c)) pm0) ->
  CameraDriven.playerModel q = CameraDriven.set_playerVelocity w pm0 ->
  CameraDriven.playerModel (camStep flag command q)
  = CameraDriven.set_playerVelocity
      (add w (multiplyScalar G (keyWeight flag * c))) pm0
  /\ CameraDriven.moveState (camStep flag command q)
     = CameraDriven.moveState q.
Proof.
  intros Hcmd Hq. unfold camStep, keyWeight. destruct flag; cbn.
  - rewrite Hq, Hcmd. split; [| reflexivity].
    f_equal. f_equal. f_equal. ring.
  - rewrite Hq. split; [| reflexivity]. f_equal.
    destruct w as [a b d]. unfold add, multiplyScalar. vec.
Qed.

(** The velocity after [processMovement], for a camera direction [F]
    that flattening and normalizing leave as it is, and an up vector
    [U]. *)
Lemma cam_processMovement_velocity_gen
  (keyStates : KeyStates) (deltaTime : R) pc (F U : Vector3) :
  normalize (setY 0 F) = F ->
  CameraDriven.getCameraDirection pc = F ->
  up (CameraDriven.camera pc) = U ->
  let pm := CameraDriven.playerModel pc in
  let sd := deltaTime * (if CameraDriven.playerOnFloor pm
                         then CameraDriven.groundSpeed pm
                         else CameraDriven.airSpeed pm) in
  let along := (keyWeight (keyStates "KeyW"%string)
                - keyWeight (keyStates "KeyS"%string)) * sd in
  let aside := (keyWeight (keyStates "KeyD"%string)
                - keyWeight (keyStates "KeyA"%string)) * sd in
  let moved :=
    add (add (CameraDriven.playerVelocity pm) (multiplyScalar F along))
        (multiplyScalar (cross F U) aside) in
  CameraDriven.playerVelocity
    (CameraDriven.playerModel
       (CameraDriven.processMovement keyStates deltaTime pc))
  = if keyStates "Space"%string && CameraDriven.playerOnFloor pm
    then mkVector3 (x moved) (CameraDriven.jumpForce pm) (z moved)
    else moved.
Proof.
  intros HF Hdir Hup pm sd along aside moved.
  rewrite cam_processMovement_steps. cbv zeta.
  set (pc0 := CameraDriven.updateMovementState keyStates pc).
  change (CameraDriven.getCameraDirection pc0)
    with (CameraDriven.getCameraDirection pc).
  change (up (CameraDriven.camera pc0)) with (up (CameraDriven.camera pc)).
  rewrite Hdir, Hup.
  set (S := cross F U).
  assert (H0 : CameraDriven.playerModel pc0
               = CameraDriven.set_playerVelocity
                   (CameraDriven.playerVelocity pm) pm)
    by (symmetry; apply cam_set_playerVelocity_same).
  assert (Hms0 : CameraDriven.moveState pc0
                 = mkMoveState (keyStates "KeyW"%string)
                     (keyStates "KeyS"%string) (keyStates "KeyA"%string)
                     (keyStates "KeyD"%string) (keyStates "Space"%string))
    by reflexivity.
  destruct (camStep_spec (forward (CameraDriven.moveState pc0)) F sd
              (CameraDriven.executeForwardMovement deltaTime F) pc0 pm _
              ltac:(intros w'; unfold CameraDriven.executeForwardMovement;
                    rewrite HF; reflexivity) H0)
    as (H1 & Hms1).
  set (pc1 := camStep _ _ pc0) in *.
  destruct (camStep_spec (backward (CameraDriven.moveState pc1)) F (- sd)
              (CameraDriven.executeBackwardMovement deltaTime F) pc1 pm _
              ltac:(intros w'; unfold CameraDriven.executeBackwardMovement;
                    rewrite HF; reflexivity) H1)
    as (H2 & Hms2).
  set (pc2 := camStep _ _ pc1) in *.
  destruct (camStep_spec (left (CameraDriven.moveState pc2)) S (- sd)
              (CameraDriven.executeLeftMovement deltaTime F U) pc2 pm _
              ltac:(intros w'; unfold CameraDriven.executeLeftMovement;
                    rewrite HF; reflexivity) H2)
    as (H3 & Hms3).
  set (pc3 := camStep _ _ pc2) in *.
  destruct (camStep_spec (right (CameraDriven.moveState pc3)) S sd
              (CameraDriven.executeRightMovement deltaTime F U) pc3 pm _
              ltac:(intros w'; unfold CameraDriven.executeRightMovement;
                    rewrite HF; reflexivity) H3)
    as (H4 & Hms4).
  set (pc4 := camStep _ _ pc3) in *.
  rewrite Hms3, Hms2, Hms1, Hms0 in Hms4.
  rewrite ?Hms3, ?Hms2, ?Hms1, ?Hms0 in H4.
  cbn [forward backward left right] in H4.
  assert (Hmoved :
    add (add (add (add (CameraDriven.playerVelocity pm)
                     (multiplyScalar F
                        (keyWeight (keyStates "KeyW"%string) * sd)))
                (multiplyScalar F
                   (keyWeight (keyStates "KeyS"%string) * - sd)))
           (multiplyScalar S (keyWeight (keyStates "KeyA"%string) * - sd)))
      (multiplyScalar S (keyWeight (keyStates "KeyD"%string) * sd))
    = moved).
  { unfold moved, along, aside, add, multiplyScalar. fold S.
    clearbody sd S. apply Vector3_eq; cbn; ring. }
  rewrite Hmoved in H4.
  rewrite Hms4. cbn [jump].
  destruct (keyStates "Space"%string); cbn [andb].
  - cbn [CameraDriven.playerModel CameraDriven.set_moveState
         CameraDriven.set_playerModel].
    rewrite H4. unfold CameraDriven.executeJump. cbn. fold pm.
    destruct (CameraDriven.playerOnFloor pm); reflexivity.
  - rewrite H4. reflexivity.
Qed.

Lemma cam_processMovement_velocity
  (keyStates : KeyStates) (deltaTime : R) pc (F : Vector3) :
  facing F ->
  CameraDriven.getCameraDirection pc = F ->
  up (CameraDriven.camera pc) = mkVector3 0 1 0 ->
  let pm := CameraDriven.playerModel pc in
  let sd := deltaTime * (if CameraDriven.playerOnFloor pm
                         then CameraDriven.groundSpeed pm
                         else CameraDriven.airSpeed pm) in
  let along := (keyWeight (keyStates "KeyW"%string)
                - keyWeight (keyStates "KeyS"%string)) * sd in
  let aside := (keyWeight (keyStates "KeyD"%string)
                - keyWeight (keyStates "KeyA"%string)) * sd in
  let moved :=
    add (add (CameraDriven.playerVelocity pm) (multiplyScalar F along))
        (multiplyScalar (mkVector3 (- z F) 0 (x F)) aside) in
  CameraDriven.playerVelocity
    (CameraDriven.playerModel
       (CameraDriven.processMovement keyStates deltaTime pc))
  = if keyStates "Space"%string && CameraDriven.playerOnFloor pm
    then mkVector3 (x moved) (CameraDriven.jumpForce pm) (z moved)
    else moved.
Proof.
  intros HF Hdir Hup.
  pose proof (cam_processMovement_velocity_gen keyStates deltaTime pc F
                (mkVector3 0 1 0) (normalize_flat_facing F HF) Hdir Hup)
    as H.
  rewrite cross_up in H. exact H.
Qed.

Lemma yaw_direction_facing (yaw : R) :
  facing (mkVector3 (- sin yaw) 0 (- cos yaw)).
Proof.
  split; [| reflexivity]. unfold length. cbn -[cos sin].
  replace (- sin yaw * - sin yaw + 0 * 0 + - cos yaw * - cos yaw)
    with (Rsqr (sin yaw) + Rsqr (cos yaw)) by (unfold Rsqr; ring).
  rewrite sin2_cos2. apply sqrt_1.
Qed.

(** X15.  The camera-driven [processMovement], for a camera with the
    default up vector (0,1,0) that does not look straight up or down:
    with [F = (-sin yaw, 0, -cos yaw)] and [S = (cos yaw, 0, -sin yaw)],
    the velocity gains [(W - S) * speedDelta * F + (D - A) * speedDelta
    * S], each key counting 1 when held and 0 when not and [speedDelta]
    being [dt * groundSpeed] on the floor and [dt * airSpeed] off it;
    then, when Space is held and the player is on the floor, the
    vertical component is replaced by the jump force.  Opposite keys
    cancel, and the camera's pitch plays no part. *)
Theorem X15_camera_move_follows_yaw :
  forall (keyStates : KeyStates) (deltaTime : R)
         (pc : CameraDriven.PlayerCamera),
    0 < cos (ex (cam_rotation (CameraDriven.camera pc))) ->
    up (CameraDriven.camera pc) = mkVector3 0 1 0 ->
    let yaw := ey (cam_rotation (CameraDriven.camera pc)) in
    let pm := CameraDriven.playerModel pc in
    let sd := deltaTime * (if CameraDriven.playerOnFloor pm
                           then CameraDriven.groundSpeed pm
                           else CameraDriven.airSpeed pm) in
    let along := (keyWeight (keyStates "KeyW"%string)
                  - keyWeight (keyStates "KeyS"%string)) * sd in
    let aside := (keyWeight (keyStates "KeyD"%string)
                  - keyWeight (keyStates "KeyA"%string)) * sd in
    let moved :=
      add (add (CameraDriven.playerVelocity pm)
               (multiplyScalar (mkVector3 (- sin yaw) 0 (- cos yaw)) along))
          (multiplyScalar (mkVector3 (cos yaw) 0 (- sin yaw)) aside) in
    CameraDriven.playerVelocity
      (CameraDriven.playerModel
         (CameraDriven.processMovement keyStates deltaTime pc))
    = if keyStates "Space"%string && CameraDriven.playerOnFloor pm
      then mkVector3 (x moved) (CameraDriven.jumpForce pm) (z moved)
      else moved.
Proof.
  intros keyStates deltaTime pc Hpitch Hup yaw pm sd along aside moved.
  pose proof (cam_processMovement_velocity keyStates deltaTime pc
                (mkVector3 (- sin yaw) 0 (- cos yaw))
                (yaw_direction_facing yaw)
                (getCameraDirection_closed pc Hpitch) Hup) as H.
  cbv zeta in H. cbn [x z] in H. rewrite Ropp_involutive in H. exact H.
Qed.

Lemma X15_witness :
  CameraDriven.playerVelocity
    (CameraDriven.playerModel
       (CameraDriven.processMovement Samples.forwardHeld 0.01
          Samples.cameraStart))
  = add (add zero
           (multiplyScalar (mkVector3 (- sin 0) 0 (- cos 0))
              ((1 - 0) * (0.01 * 8))))
        (multiplyScalar (mkVector3 (cos 0) 0 (- sin 0)) ((0 - 0) * (0.01 * 8))).
Proof.
  apply (X15_camera_move_follows_yaw Samples.forwardHeld 0.01
           Samples.cameraStart).
  - exact cos_0_pos.
  - reflexivity.
Defined.

(** X16.  Diagonal movement is not normalized in the camera-driven
    controller: with forward and right held together (and neither
    backward nor left), the horizontal velocity gained in one call has
    squared length [2 * speedDelta^2], twice that of a single key; the
    speed gain is larger by the factor [sqrt 2]. *)
Theorem X16_camera_diagonal_move_is_faster :
  forall (keyStates : KeyStates) (deltaTime : R)
         (pc : CameraDriven.PlayerCamera),
    0 < cos (ex (cam_rotation (CameraDriven.camera pc))) ->
    up (CameraDriven.camera pc) = mkVector3 0 1 0 ->
    keyStates "KeyW"%string = true ->
    keyStates "KeyD"%string = true ->
    keyStates "KeyS"%string = false ->
    keyStates "KeyA"%string = false ->
    let pm := CameraDriven.playerModel pc in
    let sd := deltaTime * (if CameraDriven.playerOnFloor pm
                           then CameraDriven.groundSpeed pm
                           else CameraDriven.airSpeed pm) in
    let v := CameraDriven.playerVelocity pm in
    let v' := CameraDriven.playerVelocity
                (CameraDriven.playerModel
                   (CameraDriven.processMovement keyStates deltaTime pc)) in
    (x v' - x v) * (x v' - x v) + (z v' - z v) * (z v' - z v)
    = 2 * (sd * sd).
Proof.
  intros keyStates deltaTime pc Hpitch Hup HW HD HS HA pm sd v v'.
  set (yaw := ey (cam_rotation (CameraDriven.camera pc))).
  pose proof (cam_processMovement_velocity keyStates deltaTime pc
                (mkVector3 (- sin yaw) 0 (- cos yaw))
                (yaw_direction_facing yaw)
                (getCameraDirection_closed pc Hpitch) Hup) as H.
  cbv zeta in H. fold pm in H. fold sd in H. fold v' in H. fold v in H.
  rewrite HW, HD, HS, HA in H. unfold keyWeight in H.
  pose proof (sin2_cos2 yaw) as Hsc. unfold Rsqr in Hsc.
  set (sy := sin yaw) in *. set (cy := cos yaw) in *.
  assert (Hx : x v' = x v + - sy * ((1 - 0) * sd) + - - cy * ((1 - 0) * sd)).
  { rewrite H. destruct (_ && _); reflexivity. }
  assert (Hz : z v' = z v + - cy * ((1 - 0) * sd) + - sy * ((1 - 0) * sd)).
  { rewrite H. destruct (_ && _); reflexivity. }
  rewrite Hx, Hz. clearbody sy cy sd v v'.
  replace ((x v + - sy * ((1 - 0) * sd) + - - cy * ((1 - 0) * sd) - x v)
           * (x v + - sy * ((1 - 0) * sd) + - - cy * ((1 - 0) * sd) - x v)
           + (z v + - cy * ((1 - 0) * sd) + - sy * ((1 - 0) * sd) - z v)
             * (z v + - cy * ((1 - 0) * sd) + - sy * ((1 - 0) * sd) - z v))
    with (2 * (sy * sy + cy * cy) * (sd * sd)) by ring.
  rewrite Hsc. ring.
Qed.

Lemma X16_witness :
  let v' := CameraDriven.playerVelocity
              (CameraDriven.playerModel
                 (CameraDriven.processMovement Samples.forwardRightHeld 0.01
                    Samples.cameraStart)) in
  (x v' - 0) * (x v' - 0) + (z v' - 0) * (z v' - 0)
  = 2 * (0.01 * 8 * (0.01 * 8)).
Proof.
  apply (X16_camera_diagonal_move_is_faster Samples.forwardRightHeld 0.01
           Samples.cameraStart).
  - exact cos_0_pos.
  - reflexivity.
  - reflexivity.
  - reflexivity.
  - reflexivity.
  - reflexivity.
Defined.

(** ** Movement commands undo each other *)

Lemma add_scaled_opposite (v G : Vector3) (c : R) :
  add (add v (multiplyScalar G c)) (multiplyScalar G (- c)) = v.
Proof. destruct v as [a b d]. unfold add, multiplyScalar. vec. Qed.

Lemma add_scaled_opposite' (v G : Vector3) (c : R) :
  add (add v (multiplyScalar G (- c))) (multiplyScalar G c) = v.
Proof. destruct v as [a b d]. unfold add, multiplyScalar. vec. Qed.

(** X17.  The movement commands of both player models undo each other:
    for every direction (the zero vector and a vertical one included),
    every up vector and every [dt], [executeBackwardMovement] after
    [executeForwardMovement] and [executeRightMovement] after
    [executeLeftMovement], called with the same arguments, give back
    the player model they started from. *)
Theorem X17_opposite_commands_cancel :
  forall (deltaTime : R) (direction upv : Vector3)
         (pm : CharacterDriven.PlayerModel) (pm' : CameraDriven.PlayerModel),
    CharacterDriven.executeBackwardMovement deltaTime direction
      (CharacterDriven.executeForwardMovement deltaTime direction pm) = pm
    /\ CharacterDriven.executeRightMovement deltaTime direction upv
         (CharacterDriven.executeLeftMovement deltaTime direction upv pm)
       = pm
    /\ CameraDriven.executeBackwardMovement deltaTime direction
         (CameraDriven.executeForwardMovement deltaTime direction pm') = pm'
    /\ CameraDriven.executeRightMovement deltaTime direction upv
         (CameraDriven.executeLeftMovement deltaTime direction upv pm')
       = pm'.
Proof.
  intros deltaTime direction upv pm pm'.
  unfold CharacterDriven.executeBackwardMovement,
    CharacterDriven.executeForwardMovement,
    CharacterDriven.executeRightMovement,
    CharacterDriven.executeLeftMovement,
    CameraDriven.executeBackwardMovement,
    CameraDriven.executeForwardMovement,
    CameraDriven.executeRightMovement,
    CameraDriven.executeLeftMovement.
  destruct pm as [pl col v fl dbg sh gs asp jf df dir ms].
  destruct pm' as [pl' col' v' fl' gs' asp' jf' df'].
  cbn. unfold CharacterDriven.set_playerVelocity,
         CameraDriven.set_playerVelocity. cbn.
  rewrite !add_scaled_opposite, !add_scaled_opposite'. auto.
Qed.

(** ** Camera and mesh of the camera-driven scene *)

Lemma cam_physics_player (worldOctree : Octree) (deltaTime gravity : R) pm :
  CameraDriven.player
    (CameraDriven.checkCollisions worldOctree
       (CameraDriven.updatePhysics deltaTime gravity pm))
  = CameraDriven.player pm.
Proof.
  unfold CameraDriven.checkCollisions, capsuleIntersect.
  destruct (worldOctree _) as [[n d] |]; cbn -[CameraDriven.updatePhysics].
  - destruct (Rgtb (y n) 0), (Rgeb d (1 / 10000000000));
      cbn -[CameraDriven.updatePhysics];
      unfold CameraDriven.updatePhysics;
      destruct (CameraDriven.playerOnFloor pm); reflexivity.
  - unfold CameraDriven.updatePhysics.
    destruct (CameraDriven.playerOnFloor pm); reflexivity.
Qed.

(** X18.  After [updatePlayer] of the camera-driven scene the camera
    sits exactly on the collider position (the capsule's end point) and
    keeps its rotation; a loaded mesh is placed at the collider
    position minus the camera offset, with yaw
    [atan2(F.x, F.z) + PI] for the camera direction [F]; a mesh that is
    not loaded stays absent. *)
Theorem X18_camera_rides_on_the_collider :
  forall (worldOctree : Octree) (deltaTime : R)
         (pc : CameraDriven.PlayerCamera),
    let r := CameraDriven.updatePlayer worldOctree deltaTime pc in
    let F := CameraDriven.getCameraDirection pc in
    cam_position (CameraDriven.camera r)
    = CameraDriven.getColliderPosition (CameraDriven.playerModel r)
    /\ cam_rotation (CameraDriven.camera r)
       = cam_rotation (CameraDriven.camera pc)
    /\ CameraDriven.player (CameraDriven.playerModel r)
       = match CameraDriven.player (CameraDriven.playerModel pc) with
         | Some _ =>
             Some (mkObject3D
                     (sub (CameraDriven.getColliderPosition
                             (CameraDriven.playerModel r))
                          (CameraDriven.cameraOffset pc))
                     (atan2 (x F) (z F) + PI))
         | None => None
         end.
Proof.
  intros worldOctree deltaTime pc. cbv zeta.
  unfold CameraDriven.updatePlayer. cbv zeta.
  pose proof (cam_physics_player worldOctree deltaTime CameraDriven.GRAVITY
                (CameraDriven.playerModel pc)) as Hpl.
  cbn [CameraDriven.playerModel CameraDriven.set_playerModel].
  set (q := CameraDriven.checkCollisions worldOctree _) in *.
  unfold CameraDriven.syncPlayerModel, CameraDriven.isLoaded,
    CameraDriven.updateCameraPosition.
  cbn [CameraDriven.playerModel CameraDriven.set_playerModel
       CameraDriven.set_camera].
  rewrite Hpl.
  destruct (CameraDriven.player (CameraDriven.playerModel pc)) as [o |]
    eqn:Hp.
  - unfold CameraDriven.updatePosition, CameraDriven.updateRotation.
    cbn [CameraDriven.playerModel CameraDriven.set_playerModel
         CameraDriven.player CameraDriven.set_player].
    rewrite Hpl.
    cbn [CameraDriven.playerModel CameraDriven.set_playerModel
         CameraDriven.player CameraDriven.set_player CameraDriven.camera
         cam_position cam_rotation Three.position].
    repeat split.
  - cbn [CameraDriven.playerModel CameraDriven.camera cam_position
         cam_rotation].
    repeat split. exact Hpl.
Qed.





(** ** Controls of the basic scene *)

Lemma basic_controls_velocity (keyStates : KeyStates) (deltaTime : R) c :
  let s := Basic.scene c in
  let D := normalize (setY 0 (getWorldDirection (Basic.camera s))) in
  let U := up (Basic.camera s) in
  let sd := deltaTime * (if Basic.playerOnFloor s then 25 else 8) in
  let along := (keyWeight (keyStates "KeyW"%string)
                - keyWeight (keyStates "KeyS"%string)) * sd in
  let aside := (keyWeight (keyStates "KeyD"%string)
                - keyWeight (keyStates "KeyA"%string)) * sd in
  let moved :=
    add (add (Basic.playerVelocity s) (multiplyScalar D along))
        (multiplyScalar (cross D U) aside) in
  Basic.playerVelocity (Basic.scene (Basic.controls keyStates deltaTime c))
  = if keyStates "Space"%string && Basic.playerOnFloor s
    then mkVector3 (x moved) 15 (z moved)
    else moved.
Proof.
  cbv zeta. unfold Basic.controls.
  set (D := normalize (setY 0 (getWorldDirection (Basic.camera (Basic.scene c))))).
  set (U := up (Basic.camera (Basic.scene c))).
  set (sd := deltaTime * _).
  unfold keyWeight.
  destruct (keyStates "KeyW"%string), (keyStates "KeyS"%string),
    (keyStates "KeyA"%string), (keyStates "KeyD"%string),
    (keyStates "Space"%string);
    cbv zeta;
    unfold Basic.addScaledDirection, Basic.getForwardVector,
      Basic.getSideVector;
    cbn [Basic.scene Basic.playerDirection Basic.camera Basic.playerVelocity
         Basic.playerOnFloor Basic.set_playerVelocity andb];
    fold D; fold U;
    destruct (Basic.playerOnFloor (Basic.scene c));
    cbn [Basic.scene Basic.playerVelocity Basic.set_playerVelocity];
    destruct (Basic.playerVelocity (Basic.scene c)) as [vx vy vz];
    clearbody D U sd;
    unfold add, multiplyScalar, setY, cross; cbn [x y z];
    apply Vector3_eq; try reflexivity; ring.
Qed.

(** X20.  The camera-driven controller computes the movement of the
    basic scene: with the default speeds and jump force (25, 8, 15),
    the same camera, key state and [dt], and equal velocity, collider
    and floor flag, [PlayerCamera.processMovement] and the basic
    scene's [controls] leave equal velocity, collider and floor flag.
    The second flattening and normalizing of the camera direction in
    the [execute...Movement] commands changes nothing, also when the
    camera looks straight up or down. *)
Theorem X20_camera_controller_computes_basic_controls :
  forall (keyStates : KeyStates) (deltaTime : R)
         (pc : CameraDriven.PlayerCamera) (c : Basic.Closure),
    CameraDriven.camera pc = Basic.camera (Basic.scene c) ->
    physCamera (CameraDriven.playerModel pc) = physBasic (Basic.scene c) ->
    CameraDriven.groundSpeed (CameraDriven.playerModel pc) = 25 ->
    CameraDriven.airSpeed (CameraDriven.playerModel pc) = 8 ->
    CameraDriven.jumpForce (CameraDriven.playerModel pc) = 15 ->
    physCamera
      (CameraDriven.playerModel
         (CameraDriven.processMovement keyStates deltaTime pc))
    = physBasic (Basic.scene (Basic.controls keyStates deltaTime c)).
Proof.
  intros keyStates deltaTime pc c Hcam Hphys Hgs Has Hjf.
  unfold physCamera, physBasic in *. injection Hphys as Hv Hc Hf.
  destruct (cam_processMovement_frame keyStates deltaTime pc)
    as (Hfl & _ & _ & Hcol).
  destruct (basic_controls_rest keyStates deltaTime c) as (Hcol' & Hfl' & _).
  rewrite Hfl, Hcol, Hfl', Hcol', Hc, Hf.
  f_equal. f_equal.
  rewrite basic_controls_velocity.
  rewrite (cam_processMovement_velocity_gen keyStates deltaTime pc
             (CameraDriven.getCameraDirection pc)
             (up (CameraDriven.camera pc))
             (flatten_normalize_idempotent _) eq_refl eq_refl).
  unfold CameraDriven.getCameraDirection. cbv zeta.
  rewrite Hcam, Hv, Hf, Hgs, Has, Hjf. reflexivity.
Qed.

Lemma X20_witness :
  physCamera
    (CameraDriven.playerModel
       (CameraDriven.processMovement Samples.forwardRightHeld 0.01
          (CameraDriven.newPlayerCamera
             (mkCamera zero (mkEuler 0 0 0) (mkVector3 0 1 0))
             (CameraDriven.set_playerCollider
                (mkCapsule (mkVector3 0 0.35 0) (mkVector3 0 1 0) 0.35)
                CameraDriven.newPlayerModel))))
  = physBasic
      (Basic.scene
         (Basic.controls Samples.forwardRightHeld 0.01 Samples.basicStart)).
Proof.
  apply (X20_camera_controller_computes_basic_controls
           Samples.forwardRightHeld 0.01
           (CameraDriven.newPlayerCamera
              (mkCamera zero (mkEuler 0 0 0) (mkVector3 0 1 0))
              (CameraDriven.set_playerCollider
                 (mkCapsule (mkVector3 0 0.35 0) (mkVector3 0 1 0) 0.35)
                 CameraDriven.newPlayerModel))
           Samples.basicStart).
  - reflexivity.
  - reflexivity.
  - reflexivity.
  - reflexivity.
  - reflexivity.
Defined.

(** X21.  The out-of-bounds reset of the basic scene tests the camera
    height, not the collider.  When it fires (camera at or below -25)
    the collider becomes the scene's spawn capsule, start (0,0.35,0),
    end (0,1,0), radius 0.35, and the camera goes to (0,1,0) with
    rotation (0,0,0); the velocity and the floor flag are left as they
    were, so the player keeps its falling speed.  When it does not fire
    the scene is unchanged. *)
Theorem X21_basic_reset_keeps_velocity :
  forall (s : Basic.GameScene),
    (y (cam_position (Basic.camera s)) <= -25 ->
     let r := Basic.teleportPlayerIfOob s in
     Basic.playerCollider r
     = mkCapsule (mkVector3 0 0.35 0) (mkVector3 0 1 0) 0.35
     /\ cam_position (Basic.camera r) = mkVector3 0 1 0
     /\ cam_rotation (Basic.camera r) = mkEuler 0 0 0
     /\ Basic.playerVelocity r = Basic.playerVelocity s
     /\ Basic.playerOnFloor r = Basic.playerOnFloor s)
    /\ (-25 < y (cam_position (Basic.camera s)) ->
        Basic.teleportPlayerIfOob s = s).
Proof.
  intros s. unfold Basic.teleportPlayerIfOob. split.
  - intros H. rewrite (Rleb_true _ _ H). cbn. repeat split.
  - intros H. unfold Rleb.
    destruct (Rle_dec _ _) as [Hle | _]; [lra | reflexivity].
Qed.

Lemma X21_witness :
  Basic.playerVelocity
    (Basic.teleportPlayerIfOob
       (Basic.mkGameScene
          (mkCamera (mkVector3 0 (-26) 0) (mkEuler 0.2 1 0) (mkVector3 0 1 0))
          false
          (mkCapsule (mkVector3 0 (-26.65) 0) (mkVector3 0 (-26) 0) 0.35)
          (mkVector3 0 (-40) 0)))
  = mkVector3 0 (-40) 0
  /\ Basic.teleportPlayerIfOob (Basic.scene Samples.basicStart)
     = Basic.scene Samples.basicStart.
Proof.
  split.
  - apply (X21_basic_reset_keeps_velocity
             (Basic.mkGameScene
                (mkCamera (mkVector3 0 (-26) 0) (mkEuler 0.2 1 0)
                   (mkVector3 0 1 0))
                false
                (mkCapsule (mkVector3 0 (-26.65) 0) (mkVector3 0 (-26) 0)
                   0.35)
                (mkVector3 0 (-40) 0))).
    cbn. lra.
  - apply (X21_basic_reset_keeps_velocity (Basic.scene Samples.basicStart)).
    cbn. lra.
Defined.

(** ** Running on the ground *)

Lemma groundSpeedAfter_closed (n : nat) (s f : R) :
  f <> 1 ->
  groundSpeedAfter n s f = s * f * (1 - f ^ n) / (1 - f).
Proof.
  intros Hf. induction n as [| n IH]; cbn [groundSpeedAfter pow].
  - field. lra.
  - rewrite IH. field. lra.
Qed.

Lemma pow_decay_bounds (f : R) (n : nat) : 0 < f < 1 -> 0 < f ^ n <= 1.
Proof.
  intros Hf. induction n as [| n IH]; cbn [pow].
  - lra.
  - nra.
Qed.

Lemma groundSpeedAfter_grows (n : nat) (s f : R) :
  0 < s -> 0 < f < 1 ->
  groundSpeedAfter n s f < groundSpeedAfter (Datatypes.S n) s f
  /\ groundSpeedAfter (Datatypes.S n) s f < s * f / (1 - f).
Proof.
  intros Hs Hf.
  rewrite !groundSpeedAfter_closed by lra.
  pose proof (pow_decay_bounds f n Hf) as Hp.
  cbn [pow].
  assert (Hinv : 0 < / (1 - f)) by (apply Rinv_0_lt_compat; lra).
  assert (Hsf : 0 < s * f) by nra.
  assert (Hgap : 0 < f ^ n * (1 - f)) by nra.
  assert (Hnext : 0 < f * f ^ n) by nra.
  unfold Rdiv. split.
  - apply Rmult_lt_compat_r; [exact Hinv |]. nra.
  - apply Rmult_lt_compat_r; [exact Hinv |]. nra.
Qed.

Lemma Rgeb_true_inv (a b : R) : Rgeb a b = true -> b <= a.
Proof. unfold Rgeb. destruct (Rle_dec b a); [trivial | discriminate]. Qed.

Lemma Rleb_false (a b : R) : b < a -> Rleb a b = false.
Proof. intros H. unfold Rleb. destruct (Rle_dec a b); [lra | reflexivity]. Qed.

Lemma cd_processMovement_params (deltaTime : R) pm :
  let r := CharacterDriven.processMovement deltaTime pm in
  CharacterDriven.groundSpeed r = CharacterDriven.groundSpeed pm
  /\ CharacterDriven.airSpeed r = CharacterDriven.airSpeed pm
  /\ CharacterDriven.dampingFactor r = CharacterDriven.dampingFactor pm.
Proof.
  destruct pm as [pl col v fl dbg sh gs asp jf df dir ms].
  destruct ms as [fw bw lf rt jp].
  destruct fw, bw, lf, rt, jp, fl; repeat split; reflexivity.
Qed.

(** One [controls] call with only the forward key held. *)
Lemma cd_controls_forward (keyStates : KeyStates) (deltaTime : R) pm :
  onlyForward keyStates ->
  facing (CharacterDriven.playerDirection pm) ->
  let r := CharacterDriven.processMovement deltaTime
             (CharacterDriven.updateMovementState keyStates pm) in
  CharacterDriven.playerVelocity r
  = add (CharacterDriven.playerVelocity pm)
        (multiplyScalar (CharacterDriven.playerDirection pm)
           (deltaTime * (if CharacterDriven.playerOnFloor pm
                         then CharacterDriven.groundSpeed pm
                         else CharacterDriven.airSpeed pm)))
  /\ CharacterDriven.playerDirection r = CharacterDriven.playerDirection pm
  /\ CharacterDriven.playerOnFloor r = CharacterDriven.playerOnFloor pm
  /\ CharacterDriven.playerCollider r = CharacterDriven.playerCollider pm
  /\ CharacterDriven.groundSpeed r = CharacterDriven.groundSpeed pm
  /\ CharacterDriven.dampingFactor r = CharacterDriven.dampingFactor pm.
Proof.
  intros (HW & HS & HA & HD & HSp) Hf. cbv zeta.
  set (pm0 := CharacterDriven.updateMovementState keyStates pm).
  assert (Hms : CharacterDriven.moveState pm0
                = mkMoveState true false false false false).
  { unfold pm0, CharacterDriven.updateMovementState. cbn.
    rewrite HW, HS, HA, HD, HSp. reflexivity. }
  assert (Hdir : CharacterDriven.playerDirection
                   (CharacterDriven.processMovement deltaTime pm0)
                 = CharacterDriven.playerDirection pm).
  { rewrite processMovement_direction, turnBlock_direction by apply Hf.
    rewrite Hms. cbn [left right]. rewrite Rplus_0_l. apply rotateY_0. }
  pose proof (cd_processMovement_velocity deltaTime pm0 Hf) as Hv.
  cbv zeta in Hv. rewrite Hdir, Hms in Hv. cbn [forward backward jump andb] in Hv.
  destruct (cd_processMovement_rest deltaTime pm0) as (Hcol & Hfl & _).
  destruct (cd_processMovement_params deltaTime pm0) as (Hgs & _ & Hk).
  split.
  { rewrite Hv. f_equal. f_equal.
    change (CharacterDriven.playerOnFloor pm0)
      with (CharacterDriven.playerOnFloor pm).
    change (CharacterDriven.groundSpeed pm0)
      with (CharacterDriven.groundSpeed pm).
    change (CharacterDriven.airSpeed pm0)
      with (CharacterDriven.airSpeed pm).
    ring. }
  split; [exact Hdir |].
  split; [exact Hfl |]. split; [exact Hcol |].
  split; [exact Hgs | exact Hk].
Qed.

Lemma running_substep (keyStates : KeyStates) (worldOctree : Octree)
  (deltaTime : R) (d : Vector3) (gs k c : R) s :
  onlyForward keyStates ->
  groundEverywhere worldOctree ->
  facing d ->
  running d gs k c s ->
  running d gs k ((c + deltaTime * gs) * exp (- k * deltaTime))
    (CharacterDriven.substep keyStates worldOctree deltaTime s).
Proof.
  intros Hkeys Hground Hd (Hfl & Hdir & Hv & Hgs & Hk & Hy).
  unfold CharacterDriven.substep, CharacterDriven.updateSpheres,
    CharacterDriven.updatePlayer, CharacterDriven.controls.
  cbv zeta. cbn [CharacterDriven.playerModel CharacterDriven.playerCamera].
  set (pm := CharacterDriven.playerModel s) in *.
  set (pm1 := CharacterDriven.processMovement deltaTime
                (CharacterDriven.updateMovementState keyStates pm)).
  destruct (cd_controls_forward keyStates deltaTime pm Hkeys
              ltac:(rewrite Hdir; exact Hd))
    as (Hv1 & Hdir1 & Hfl1 & Hcol1 & Hgs1 & Hk1).
  fold pm1 in Hv1, Hdir1, Hfl1, Hcol1, Hgs1, Hk1.
  rewrite Hfl, Hgs, Hdir, Hv in Hv1.
  set (pm2 := CharacterDriven.updatePhysics deltaTime
                CharacterDriven.GRAVITY pm1).
  destruct (cd_updatePhysics_rest deltaTime CharacterDriven.GRAVITY pm1)
    as (Hdir2 & Hfl2 & Hgs2 & _ & _ & Hk2 & _).
  fold pm2 in Hdir2, Hfl2, Hgs2, Hk2.
  pose proof (cd_updatePhysics_velocity deltaTime CharacterDriven.GRAVITY pm1)
    as Hv2.
  fold pm2 in Hv2. rewrite Hfl1, Hfl, Hk1, Hk, Hv1 in Hv2.
  unfold preDamping, dampingMultiplier in Hv2.
  assert (Hv2' : CharacterDriven.playerVelocity pm2
                 = multiplyScalar d
                     ((c + deltaTime * gs) * exp (- k * deltaTime))).
  { rewrite Hv2. unfold add, multiplyScalar. cbn -[exp].
    apply Vector3_eq; ring. }
  pose proof (cd_updatePhysics_collider deltaTime CharacterDriven.GRAVITY pm1)
    as Hcol2.
  fold pm2 in Hcol2. rewrite Hcol1, Hv2' in Hcol2.
  assert (Hy2 : - 25 < y (end_ (CharacterDriven.playerCollider pm2))).
  { rewrite Hcol2. cbn -[exp]. rewrite (proj2 Hd). lra. }
  destruct (Hground (CharacterDriven.playerCollider pm2))
    as (n & d0 & Hq & Hn).
  pose proof (cd_checkCollisions_floor worldOctree pm2 n d0 Hq Hn) as H3.
  cbv zeta in H3.
  set (pm3 := CharacterDriven.checkCollisions worldOctree pm2) in *.
  assert (Hthree :
    CharacterDriven.playerOnFloor pm3 = true
    /\ CharacterDriven.playerDirection pm3 = d
    /\ CharacterDriven.playerVelocity pm3
       = multiplyScalar d ((c + deltaTime * gs) * exp (- k * deltaTime))
    /\ CharacterDriven.groundSpeed pm3 = gs
    /\ CharacterDriven.dampingFactor pm3 = k
    /\ - 25 < y (end_ (CharacterDriven.playerCollider pm3))).
  { rewrite H3. destruct (Rgeb d0 1e-10) eqn:Hdepth; cbn -[exp];
      rewrite ?Hdir2, ?Hdir1, ?Hdir, ?Hv2', ?Hgs2, ?Hgs1, ?Hgs,
        ?Hk2, ?Hk1, ?Hk; repeat split; try reflexivity.
    - apply Rgeb_true_inv in Hdepth. nra.
    - exact Hy2. }
  unfold CharacterDriven.teleportPlayerIfOob,
    CharacterDriven.getColliderPosition.
  cbn [CharacterDriven.playerModel].
  rewrite Rleb_false by apply Hthree.
  exact Hthree.
Qed.

Lemma forLoop_succ_r {S : Type} (n : nat) (body : S -> S) (s : S) :
  forLoop (Datatypes.S n) body s = body (forLoop n body s).
Proof.
  revert s. induction n as [| n IH]; intros s.
  - reflexivity.
  - change (forLoop (Datatypes.S (Datatypes.S n)) body s)
      with (forLoop (Datatypes.S n) body (body s)).
    rewrite IH. reflexivity.
Qed.

Lemma running_substeps (keyStates : KeyStates) (worldOctree : Octree)
  (deltaTime : R) (d : Vector3) (gs k : R) s (n : nat) :
  onlyForward keyStates ->
  groundEverywhere worldOctree ->
  facing d ->
  running d gs k 0 s ->
  running d gs k
    (groundSpeedAfter n (deltaTime * gs) (exp (- k * deltaTime)))
    (forLoop n (CharacterDriven.substep keyStates worldOctree deltaTime) s).
Proof.
  intros Hkeys Hground Hd H0. induction n as [| n IH].
  - exact H0.
  - rewrite forLoop_succ_r. cbn [groundSpeedAfter].
    apply running_substep; assumption.
Qed.

(** X22.  Running on the ground in the character-driven scene.  The
    player starts at rest on the floor, facing a unit horizontal
    direction [d]; only the forward key is held; every collision query
    answers a floor contact.  Then after [n] substeps of length
    [dt > 0] the player is still on the floor, still faces [d], and its
    velocity is [d] times [s * f * (1 - f^n) / (1 - f)], with
    [s = dt * groundSpeed] and [f = exp(-dampingFactor * dt)].  The
    speed grows with every substep and stays below
    [s * f / (1 - f)]. *)
Theorem X22_ground_speed_rises_to_a_bounded_steady_state :
  forall (n : nat) (keyStates : KeyStates) (worldOctree : Octree)
         (deltaTime : R) (s : CharacterDriven.Scene),
    let pm := CharacterDriven.playerModel s in
    let d := CharacterDriven.playerDirection pm in
    let gs := CharacterDriven.groundSpeed pm in
    let k := CharacterDriven.dampingFactor pm in
    onlyForward keyStates ->
    groundEverywhere worldOctree ->
    0 < deltaTime -> 0 < gs -> 0 < k ->
    facing d ->
    CharacterDriven.playerOnFloor pm = true ->
    CharacterDriven.playerVelocity pm = mkVector3 0 0 0 ->
    - 25 < y (CharacterDriven.getColliderPosition pm) ->
    let f := exp (- k * deltaTime) in
    let speed (i : nat) := deltaTime * gs * f * (1 - f ^ i) / (1 - f) in
    let r := CharacterDriven.playerModel
               (forLoop n
                  (CharacterDriven.substep keyStates worldOctree deltaTime)
                  s) in
    CharacterDriven.playerVelocity r = multiplyScalar d (speed n)
    /\ CharacterDriven.playerOnFloor r = true
    /\ CharacterDriven.playerDirection r = d
    /\ speed n < speed (Datatypes.S n)
    /\ speed (Datatypes.S n) < deltaTime * gs * f / (1 - f).
Proof.
  intros n keyStates worldOctree deltaTime s pm d gs k
    Hkeys Hground Hdt Hgs Hk Hd Hfl Hv Hy f speed r.
  pose proof (exp_decay_bounds k deltaTime Hk Hdt) as Hf. fold f in Hf.
  assert (H0 : running d gs k 0 s).
  { unfold running. cbv zeta. fold pm.
    repeat split; try reflexivity; try assumption.
    rewrite Hv. unfold multiplyScalar. apply Vector3_eq; ring. }
  destruct (running_substeps keyStates worldOctree deltaTime d gs k s n
              Hkeys Hground Hd H0) as (Hfl' & Hdir' & Hv' & _).
  fold r in Hfl', Hdir', Hv'. fold f in Hv'.
  rewrite groundSpeedAfter_closed in Hv' by lra.
  split; [exact Hv' |]. split; [exact Hfl' |]. split; [exact Hdir' |].
  assert (Hs : 0 < deltaTime * gs) by nra.
  pose proof (groundSpeedAfter_grows n (deltaTime * gs) f Hs Hf) as Hgrow.
  rewrite !groundSpeedAfter_closed in Hgrow by lra.
  exact Hgrow.
Qed.

Lemma ramp_groundEverywhere : groundEverywhere Samples.ramp.
Proof.
  intros c. exists (mkVector3 0 1 0), 0. split; [reflexivity | cbn; lra].
Qed.

Lemma forwardHeld_onlyForward : onlyForward Samples.forwardHeld.
Proof. repeat split. Qed.

Lemma X22_witness :
  CharacterDriven.playerOnFloor
    (CharacterDriven.playerModel
       (forLoop 100
          (CharacterDriven.substep Samples.forwardHeld Samples.ramp 0.01)
          (CharacterDriven.mkScene
             (CharacterDriven.set_playerOnFloor true
                CharacterDriven.newPlayerModel)
             (CharacterDriven.mkPlayerCamera 0 0.3))))
  = true.
Proof.
  apply (X22_ground_speed_rises_to_a_bounded_steady_state 100
           Samples.forwardHeld Samples.ramp 0.01
           (CharacterDriven.mkScene
              (CharacterDriven.set_playerOnFloor true
                 CharacterDriven.newPlayerModel)
              (CharacterDriven.mkPlayerCamera 0 0.3))).
  - exact forwardHeld_onlyForward.
  - exact ramp_groundEverywhere.
  - lra.
  - cbn. lra.
  - cbn. lra.
  - exact facing_axis_z.
  - reflexivity.
  - reflexivity.
  - cbn. lra.
Defined.

(** ** Switching scenes *)

Lemma managerOk_cases (m : SceneManager.SceneManager) :
  managerOk m ->
  exists i c,
    m = SceneManager.mkSceneManager
          (SceneManager.createGameScenePlayerDriven
           :: SceneManager.createGameSceneCameraDriven
           :: SceneManager.createGameScene :: nil)%list i (Some c)
    /\ ((i = 0%Z /\ c = SceneManager.createGameScenePlayerDriven)
        \/ (i = 1%Z /\ c = SceneManager.createGameSceneCameraDriven)
        \/ (i = 2%Z /\ c = SceneManager.createGameScene)).
Proof.
  destruct m as [sc i cur]. unfold managerOk. cbn.
  intros (-> & Hi & ->).
  assert (Hc : i = 0%Z \/ i = 1%Z \/ i = 2%Z) by lia.
  destruct Hc as [-> | [-> | ->]]; eexists; eexists;
    (split; [reflexivity |]); auto.
Qed.

Lemma nextScene_ok (m : SceneManager.SceneManager) :
  managerOk m ->
  exists m',
    SceneManager.nextScene true m = Some m'
    /\ managerOk m'
    /\ SceneManager.currentSceneIndex m'
       = ((SceneManager.currentSceneIndex m + 1) mod 3)%Z
    /\ SceneManager.prevScene true m' = Some m.
Proof.
  intros H. destruct (managerOk_cases m H) as (i & c & -> & Hc).
  destruct Hc as [[-> ->] | [[-> ->] | [-> ->]]];
    eexists; (split; [reflexivity |]);
    (split; [unfold managerOk; cbn; repeat split; lia |]);
    split; reflexivity.
Qed.

Lemma prevScene_ok (m : SceneManager.SceneManager) :
  managerOk m ->
  exists m',
    SceneManager.prevScene true m = Some m'
    /\ managerOk m'
    /\ SceneManager.currentSceneIndex m'
       = ((SceneManager.currentSceneIndex m - 1) mod 3)%Z
    /\ SceneManager.nextScene true m' = Some m.
Proof.
  intros H. destruct (managerOk_cases m H) as (i & c & -> & Hc).
  destruct Hc as [[-> ->] | [[-> ->] | [-> ->]]];
    eexists; (split; [reflexivity |]);
    (split; [unfold managerOk; cbn; repeat split; lia |]);
    split; reflexivity.
Qed.

Lemma onKeyDown_ok (key : string) (m : SceneManager.SceneManager) :
  managerOk m ->
  exists m', SceneManager.onKeyDown true key m = Some m' /\ managerOk m'.
Proof.
  intros H. unfold SceneManager.onKeyDown.
  destruct (string_dec key "ArrowLeft").
  - destruct (prevScene_ok m H) as (m' & Hp & Hok & _). eauto.
  - destruct (string_dec key "ArrowRight").
    + destruct (nextScene_ok m H) as (m' & Hn & Hok & _). eauto.
    + eauto.
Qed.

(** X23.  Scene switching never leaves the scene list.  On a page that
    has the [#app] element the constructor builds a manager at index 0
    showing the first scene; from then on every sequence of key
    presses is handled without a call throwing, and leaves an index in
    0..2 with the scene at that index as the current one.
    [nextScene] moves the index to [(i + 1) mod 3], [prevScene] to
    [(i - 1) mod 3], and each undoes the other.  On a page without
    [#app] the constructor throws. *)
Theorem X23_scene_switching_stays_in_range :
  forall (keys : list string) (m : SceneManager.SceneManager),
    managerOk m ->
    (exists m0, SceneManager.newSceneManager true = Some m0
                /\ managerOk m0
                /\ SceneManager.currentSceneIndex m0 = 0%Z)
    /\ SceneManager.newSceneManager false = None
    /\ (exists m', pressKeys true keys m = Some m' /\ managerOk m')
    /\ (exists m',
           SceneManager.nextScene true m = Some m'
           /\ managerOk m'
           /\ SceneManager.currentSceneIndex m'
              = ((SceneManager.currentSceneIndex m + 1) mod 3)%Z
           /\ SceneManager.prevScene true m' = Some m)
    /\ (exists m',
           SceneManager.prevScene true m = Some m'
           /\ managerOk m'
           /\ SceneManager.currentSceneIndex m'
              = ((SceneManager.currentSceneIndex m - 1) mod 3)%Z
           /\ SceneManager.nextScene true m' = Some m).
Proof.
  intros keys m H.
  split.
  { eexists. split; [reflexivity |].
    split; [unfold managerOk; cbn; repeat split; lia | reflexivity]. }
  split; [reflexivity |].
  split.
  { revert m H. induction keys as [| key rest IH]; intros m H.
    - exists m. split; [reflexivity | exact H].
    - cbn [pressKeys].
      destruct (onKeyDown_ok key m H) as (m1 & -> & H1). apply IH, H1. }
  split; [apply nextScene_ok, H | apply prevScene_ok, H].
Qed.

Lemma X23_witness :
  exists m',
    pressKeys true ("ArrowRight" :: "ArrowRight" :: "KeyW" :: "ArrowLeft"
                    :: nil)%list%string
      (SceneManager.mkSceneManager
         (SceneManager.createGameScenePlayerDriven
          :: SceneManager.createGameSceneCameraDriven
          :: SceneManager.createGameScene :: nil)%list
         2%Z (Some SceneManager.createGameScene))
    = Some m' /\ managerOk m'.
Proof.
  apply (X23_scene_switching_stays_in_range
           ("ArrowRight" :: "ArrowRight" :: "KeyW" :: "ArrowLeft"
            :: nil)%list%string
           (SceneManager.mkSceneManager
              (SceneManager.createGameScenePlayerDriven
               :: SceneManager.createGameSceneCameraDriven
               :: SceneManager.createGameScene :: nil)%list
              2%Z (Some SceneManager.createGameScene))).
  unfold managerOk. cbn. repeat split; lia.
Defined.

(** ** The follow camera *)

Lemma PI_below : PI < 3.6.
Proof.
  pose proof (PI_ineq 1) as [_ H].
  unfold sum_f_R0, tg_alt, PI_tg in H. simpl in H. lra.
Qed.

(** X24.  [handleMouseMove] of the follow camera, pointer locked: the
    horizontal angle decreases by [movementX * mouseSensitivity]; the
    vertical angle decreases by [movementY * mouseSensitivity] and is
    then clamped, so that it always ends in [-PI/3, PI/12] and is the
    unclamped value when that lies in the interval; camera position,
    follow parameters and targets are not touched.  With the pointer
    not locked the call changes nothing. *)
Theorem X24_follow_camera_clamps_vertical_angle :
  forall (movementX movementY : R) (pc : FollowCamera.PlayerCamera),
    let r := FollowCamera.handleMouseMove true movementX movementY pc in
    let angle := FollowCamera.cameraAngleX pc
                 - movementY * FollowCamera.mouseSensitivity pc in
    - PI / 3 <= FollowCamera.cameraAngleX r <= PI / 12
    /\ (- PI / 3 <= angle <= PI / 12 -> FollowCamera.cameraAngleX r = angle)
    /\ FollowCamera.cameraAngleY r
       = FollowCamera.cameraAngleY pc
         - movementX * FollowCamera.mouseSensitivity pc
    /\ FollowCamera.camera_position r = FollowCamera.camera_position pc
    /\ FollowCamera.followDistance r = FollowCamera.followDistance pc
    /\ FollowCamera.followHeight r = FollowCamera.followHeight pc
    /\ FollowCamera.mouseSensitivity r = FollowCamera.mouseSensitivity pc
    /\ FollowCamera.handleMouseMove false movementX movementY pc = pc.
Proof.
  intros movementX movementY pc. cbv zeta.
  unfold FollowCamera.handleMouseMove. cbn.
  pose proof PI_RGT_0 as Hpi.
  split; [apply clamp_bounds; lra |].
  split; [intros H; apply clamp_inside; exact H |].
  repeat split.
Qed.

Lemma X24_witness :
  FollowCamera.cameraAngleX
    (FollowCamera.handleMouseMove true 0 200
       (FollowCamera.newPlayerCamera zero))
  = 0.3 - 200 * 0.001.
Proof.
  apply (X24_follow_camera_clamps_vertical_angle 0 200
           (FollowCamera.newPlayerCamera zero)).
  cbn. pose proof PI_RGT_0. pose proof PI2_3_2. lra.
Defined.

(** X25.  The vertical angle 0.3 that the follow camera is constructed
    with lies above the upper limit PI/12 of [handleMouseMove]: the
    first pointer-locked mouse event whose vertical movement is not
    positive lowers it to exactly PI/12, whatever the horizontal
    movement.  The value 0.1 that [resetCameraAngles] sets lies inside
    the limits, and a mouse event without vertical movement keeps
    it. *)
Theorem X25_initial_vertical_angle_is_outside_the_clamp :
  forall (movementX movementY : R) (p : Vector3)
         (pc : FollowCamera.PlayerCamera),
    movementY <= 0 ->
    FollowCamera.cameraAngleX (FollowCamera.newPlayerCamera p) = 0.3
    /\ PI / 12 < 0.3
    /\ FollowCamera.cameraAngleX
         (FollowCamera.handleMouseMove true movementX movementY
            (FollowCamera.newPlayerCamera p))
       = PI / 12
    /\ FollowCamera.cameraAngleX
         (FollowCamera.handleMouseMove true movementX 0
            (FollowCamera.resetCameraAngles pc))
       = 0.1.
Proof.
  intros movementX movementY p pc Hup.
  pose proof PI_below as Hpi. pose proof PI_RGT_0 as Hpos.
  split; [reflexivity |]. split; [lra |].
  unfold FollowCamera.handleMouseMove, FollowCamera.resetCameraAngles.
  cbn. split.
  - unfold Rmax, Rmin.
    destruct (Rle_dec (PI / 12) (0.3 - movementY * 0.001)) as [_ | H];
      [| lra].
    destruct (Rle_dec (- PI / 3) (PI / 12)); lra.
  - rewrite clamp_inside; [ring |]. pose proof PI2_3_2. lra.
Qed.

Lemma X25_witness :
  FollowCamera.cameraAngleX
    (FollowCamera.handleMouseMove true 5 0 (FollowCamera.newPlayerCamera zero))
  = PI / 12.
Proof.
  apply (X25_initial_vertical_angle_is_outside_the_clamp 5 0 zero
           (FollowCamera.newPlayerCamera zero)).
  lra.
Defined.

Lemma facing_horizontal_unit (d : Vector3) :
  facing d -> x d * x d + z d * z d = 1.
Proof.
  intros [Hu Hy]. pose proof (unit_dot d Hu) as H. unfold dot in H.
  rewrite Hy in H. lra.
Qed.

Lemma sub_add_cancel (p o : Vector3) : sub (add p o) p = o.
Proof. destruct o as [a b c]. unfold sub, add. vec. Qed.

(** X26.  The follow camera aims at a point on a sphere around the
    character: for a unit horizontal facing direction,
    [calculateTargetPosition] sets the target position at the offset
    [o] from the player position with height
    [followHeight + followDistance * sin(angleX)], horizontal distance
    [followDistance * cos(angleX)] (squared below), and therefore at
    distance [followDistance] from the point [followHeight] above the
    player position, for every horizontal angle.  With horizontal
    angle 0 the offset points against the facing direction. *)
Theorem X26_follow_camera_target_lies_on_a_sphere :
  forall (playerPosition playerDirection : Vector3)
         (pc : FollowCamera.PlayerCamera),
    facing playerDirection ->
    let r := FollowCamera.calculateTargetPosition playerPosition
               playerDirection pc in
    let o := sub (FollowCamera.targetPosition r) playerPosition in
    let dist := FollowCamera.followDistance pc in
    let h := FollowCamera.followHeight pc in
    let ax := FollowCamera.cameraAngleX pc in
    y o = h + dist * sin ax
    /\ x o * x o + z o * z o = (dist * cos ax) * (dist * cos ax)
    /\ x o * x o + (y o - h) * (y o - h) + z o * z o = dist * dist
    /\ (FollowCamera.cameraAngleY pc = 0 ->
        o = mkVector3 (- x playerDirection * (dist * cos ax))
                      (h + dist * sin ax)
                      (- z playerDirection * (dist * cos ax))).
Proof.
  intros playerPosition playerDirection pc Hf r o dist h ax.
  pose proof (facing_horizontal_unit _ Hf) as Hd.
  assert (Ho : o = rotateY (FollowCamera.cameraAngleY pc)
                     (mkVector3 (- x playerDirection * (dist * cos ax))
                        (h + dist * sin ax)
                        (- z playerDirection * (dist * cos ax)))).
  { unfold o, r, FollowCamera.calculateTargetPosition. cbv zeta.
    cbn [FollowCamera.targetPosition FollowCamera.set_targetPosition].
    rewrite sub_add_cancel. apply applyMatrix4_makeRotationY. }
  pose proof (sin2_cos2 (FollowCamera.cameraAngleY pc)) as Hy.
  pose proof (sin2_cos2 ax) as Hx. unfold Rsqr in Hy, Hx.
  assert (Hflat : x o * x o + z o * z o = (dist * cos ax) * (dist * cos ax)).
  { rewrite Ho. unfold rotateY. cbn -[cos sin].
    set (sy := sin (FollowCamera.cameraAngleY pc)) in *.
    set (cy := cos (FollowCamera.cameraAngleY pc)) in *.
    set (hd := dist * cos ax).
    set (px := x playerDirection) in *. set (pz := z playerDirection) in *.
    clearbody sy cy hd px pz.
    transitivity ((px * px + pz * pz) * (sy * sy + cy * cy) * (hd * hd)).
    - ring.
    - rewrite Hd, Hy. ring. }
  assert (Hheight : y o = h + dist * sin ax) by (rewrite Ho; reflexivity).
  split; [exact Hheight |]. split; [exact Hflat |]. split.
  - rewrite Hheight.
    transitivity (x o * x o + z o * z o
                  + dist * dist * (sin ax * sin ax)); [ring |].
    rewrite Hflat.
    transitivity (dist * dist * (sin ax * sin ax + cos ax * cos ax));
      [ring |].
    rewrite Hx. ring.
  - intros H0. rewrite Ho, H0. apply rotateY_0.
Qed.

Lemma X26_witness :
  y (sub (FollowCamera.targetPosition
            (FollowCamera.calculateTargetPosition (mkVector3 0 1.8 0)
               (mkVector3 0 0 1) (FollowCamera.newPlayerCamera zero)))
         (mkVector3 0 1.8 0))
  = 2 + 5 * sin 0.3.
Proof.
  apply (X26_follow_camera_target_lies_on_a_sphere (mkVector3 0 1.8 0)
           (mkVector3 0 0 1) (FollowCamera.newPlayerCamera zero)).
  exact facing_axis_z.
Defined.

(** X27.  [update] of the follow camera does nothing while the mesh is
    not loaded.  Once it is loaded, the camera moves towards the target
    position by the fraction [followSpeed * dt] of the way: the vector
    from the camera to the target is multiplied by
    [1 - followSpeed * dt], so for [0 <= followSpeed * dt <= 1] the
    distance to the target shrinks by that factor and the camera never
    passes the target.  The point looked at is the collider position
    (the capsule's end point) raised by half the follow height; the
    two angles are not touched. *)
Theorem X27_follow_camera_closes_in_without_overshoot :
  forall (deltaTime : R) (pm : CharacterDriven.PlayerModel)
         (pc : FollowCamera.PlayerCamera),
    let r := FollowCamera.update deltaTime pm pc in
    let alpha := FollowCamera.followSpeed pc * deltaTime in
    (CharacterDriven.player pm = None -> r = pc)
    /\ (CharacterDriven.player pm <> None ->
        let target := FollowCamera.targetPosition r in
        target
        = FollowCamera.targetPosition
            (FollowCamera.calculateTargetPosition
               (CharacterDriven.getColliderPosition pm)
               (CharacterDriven.playerDirection pm) pc)
        /\ sub target (FollowCamera.camera_position r)
           = multiplyScalar (sub target (FollowCamera.camera_position pc))
               (1 - alpha)
        /\ (0 <= alpha <= 1 ->
            length (sub target (FollowCamera.camera_position r))
            = (1 - alpha)
              * length (sub target (FollowCamera.camera_position pc)))
        /\ FollowCamera.targetLookAt r
           = add (CharacterDriven.getColliderPosition pm)
                 (mkVector3 0 (FollowCamera.followHeight pc * 0.5) 0)
        /\ FollowCamera.cameraAngleX r = FollowCamera.cameraAngleX pc
        /\ FollowCamera.cameraAngleY r = FollowCamera.cameraAngleY pc).
Proof.
  intros deltaTime pm pc r alpha. unfold r, FollowCamera.update.
  unfold CharacterDriven.isLoaded.
  destruct (CharacterDriven.player pm) as [o |]; cbn [negb].
  - split; [intros H; discriminate |]. intros _. cbv zeta.
    unfold CharacterDriven.getPosition, CharacterDriven.getDirection.
    set (q := FollowCamera.calculateTargetPosition _ _ pc).
    assert (Hq : FollowCamera.camera_position q
                 = FollowCamera.camera_position pc
                 /\ FollowCamera.followSpeed q = FollowCamera.followSpeed pc
                 /\ FollowCamera.followHeight q
                    = FollowCamera.followHeight pc
                 /\ FollowCamera.cameraAngleX q
                    = FollowCamera.cameraAngleX pc
                 /\ FollowCamera.cameraAngleY q
                    = FollowCamera.cameraAngleY pc)
      by (unfold q, FollowCamera.calculateTargetPosition; cbn; auto).
    destruct Hq as (Hp & Hs & Hh & Hax & Hay).
    cbn [FollowCamera.targetPosition FollowCamera.camera_position
         FollowCamera.targetLookAt FollowCamera.cameraAngleX
         FollowCamera.cameraAngleY FollowCamera.set_camera_position
         FollowCamera.set_targetLookAt FollowCamera.followHeight
         FollowCamera.followSpeed].
    rewrite Hp, Hs, Hh, Hax, Hay. fold alpha.
    assert (Hstep :
      sub (FollowCamera.targetPosition q)
          (lerp (FollowCamera.camera_position pc)
                (FollowCamera.targetPosition q) alpha)
      = multiplyScalar
          (sub (FollowCamera.targetPosition q)
               (FollowCamera.camera_position pc)) (1 - alpha)).
    { unfold sub, lerp, multiplyScalar. cbn. apply Vector3_eq; ring. }
    split; [reflexivity |].
    split; [exact Hstep |].
    split.
    { intros Ha. rewrite Hstep. apply length_multiplyScalar. lra. }
    split.
    { unfold setY, add. cbn. apply Vector3_eq; ring. }
    split; reflexivity.
  - split; [reflexivity |]. intros H. contradiction.
Qed.

Lemma X27_witness :
  FollowCamera.update 0.01 CharacterDriven.newPlayerModel
    (FollowCamera.newPlayerCamera zero)
  = FollowCamera.newPlayerCamera zero
  /\ FollowCamera.cameraAngleX
       (FollowCamera.update 0.01
          (CharacterDriven.set_player (Some (mkObject3D zero 0))
             CharacterDriven.newPlayerModel)
          (FollowCamera.newPlayerCamera zero))
     = 0.3.
Proof.
  split.
  - apply (X27_follow_camera_closes_in_without_overshoot 0.01
             CharacterDriven.newPlayerModel
             (FollowCamera.newPlayerCamera zero)).
    reflexivity.
  - apply (X27_follow_camera_closes_in_without_overshoot 0.01
             (CharacterDriven.set_player (Some (mkObject3D zero 0))
                CharacterDriven.newPlayerModel)
             (FollowCamera.newPlayerCamera zero)).
    discriminate.
Defined.

(** The offset of the follow camera before its own horizontal rotation
    turns with the facing direction. *)
Lemma rotateY_behind (a hd H : R) (d : Vector3) :
  mkVector3 (- x (rotateY a d) * hd) H (- z (rotateY a d) * hd)
  = rotateY a (mkVector3 (- x d * hd) H (- z d * hd)).
Proof. unfold rotateY. cbn -[cos sin]. apply Vector3_eq; ring. Qed.

(** X28.  In the character-driven scene a horizontal mouse movement
    turns the view by the sum of two rotations.  With the pointer
    locked, a unit facing direction and a vertical angle inside the
    clamp limits, a mouse event with horizontal movement [mx] (and no
    vertical movement) turns the character by [-0.002 * mx] and the
    camera's own angle by [-mouseSensitivity * mx]; the offset of the
    camera target from the player is thereby rotated about the vertical
    axis by [-(0.002 + mouseSensitivity) * mx] radians. *)
Theorem X28_mouse_swings_follow_camera_by_both_rotations :
  forall (movementX : R) (playerPosition : Vector3)
         (pc : FollowCamera.PlayerCamera) (pm : CharacterDriven.PlayerModel),
    length (CharacterDriven.playerDirection pm) = 1 ->
    - PI / 3 <= FollowCamera.cameraAngleX pc <= PI / 12 ->
    let st := FollowCamera.onMouseMove true movementX 0 (pc, pm) in
    let before :=
      sub (FollowCamera.targetPosition
             (FollowCamera.calculateTargetPosition playerPosition
                (CharacterDriven.playerDirection pm) pc))
          playerPosition in
    let after :=
      sub (FollowCamera.targetPosition
             (FollowCamera.calculateTargetPosition playerPosition
                (CharacterDriven.playerDirection (snd st)) (fst st)))
          playerPosition in
    let t := - (0.002 + FollowCamera.mouseSensitivity pc) * movementX in
    after = mkVector3 (x before * cos t + z before * sin t) (y before)
                      (- x before * sin t + z before * cos t).
Proof.
  intros movementX playerPosition pc pm Hunit Hclamp st before after t.
  change (after = rotateY t before).
  unfold after, before, st, FollowCamera.onMouseMove,
    FollowCamera.calculateTargetPosition.
  cbv zeta.
  cbn [fst snd FollowCamera.targetPosition FollowCamera.set_targetPosition].
  rewrite !sub_add_cancel, !applyMatrix4_makeRotationY.
  rewrite handleRotationInput_direction by exact Hunit.
  unfold FollowCamera.handleMouseMove.
  cbn [FollowCamera.cameraAngleX FollowCamera.cameraAngleY
       FollowCamera.set_angles FollowCamera.followDistance
       FollowCamera.followHeight FollowCamera.mouseSensitivity].
  rewrite clamp_inside by lra.
  replace (FollowCamera.cameraAngleX pc
           - 0 * FollowCamera.mouseSensitivity pc)
    with (FollowCamera.cameraAngleX pc) by ring.
  rewrite rotateY_behind, !rotateY_compose.
  f_equal. unfold t. ring.
Qed.

Lemma X28_witness :
  y (sub (FollowCamera.targetPosition
            (FollowCamera.calculateTargetPosition zero
               (CharacterDriven.playerDirection
                  (snd (FollowCamera.onMouseMove true 100 0
                          (FollowCamera.resetCameraAngles
                             (FollowCamera.newPlayerCamera zero),
                           CharacterDriven.newPlayerModel))))
               (fst (FollowCamera.onMouseMove true 100 0
                       (FollowCamera.resetCameraAngles
                          (FollowCamera.newPlayerCamera zero),
                        CharacterDriven.newPlayerModel)))))
         zero)
  = y (sub (FollowCamera.targetPosition
              (FollowCamera.calculateTargetPosition zero
                 (CharacterDriven.playerDirection
                    CharacterDriven.newPlayerModel)
                 (FollowCamera.resetCameraAngles
                    (FollowCamera.newPlayerCamera zero))))
           zero).
Proof.
  pose proof (X28_mouse_swings_follow_camera_by_both_rotations 100 zero
                (FollowCamera.resetCameraAngles
                   (FollowCamera.newPlayerCamera zero))
                CharacterDriven.newPlayerModel
                length_axis_z
                ltac:(cbn; pose proof PI_RGT_0; pose proof PI2_3_2; lra))
    as H.
  cbv zeta in H. rewrite H. reflexivity.
Defined.
